(** * TaskManager: the project/task store of [mcp-task-server-v2.js]

    A shallow embedding of the ten tool handlers of the Express server
    (lines 237-590 of [src/mcp-task-server-v2.js]) together with the
    properties its specification states about them.

    Further parts cover the tool endpoint and the REST routes of that
    server, the tool functions [executeTool] and [handleTool] of the MCP
    servers ([src/mcp-http-server.js], the second part of
    [src/mcp-task-server-v2.js], [src/unnamed/part_000]), and the first
    server [src/mcp-task-server.js].

    Conventions of the embedding.
    - The two module-level arrays [projects] and [tasks] form the store;
      a handler is a function from the store to the new store and the
      outcome of the call (the response written to [res], and the
      exception that escaped the handler, if any).
    - [args] is the flat argument bag of a tool call.  Its fields have the
      types the tools' [inputSchema] declares: optional strings, an
      optional array of strings, an optional boolean.  [None] is
      [undefined], a property that is absent from the bag.
    - [uuidv4()] and [new Date()] read the environment; the values they
      return are explicit arguments of the handler that reads them.  A
      timestamp is the time value of the [Date] in milliseconds, of which
      [toISOString()] is the printed form and [new Date(iso)] the inverse.
    - [Array.prototype.find], [findIndex], [filter], [splice(i, 1)] and an
      assignment through an element are [list_find], [filter], [delete]
      and list insert; [Array.prototype.sort] is a stable insertion sort,
      and the parsing of a date string by [new Date(s)] is a parameter.
    - The human-readable [content[0].text] of a response is not modelled;
      the structured part of the body is. *)

From Stdlib Require Import ZArith Ascii String Sorting.Sorted PrimFloat FloatOps Uint63.
From stdpp Require Import base list strings sorting.

Open Scope string_scope.
Open Scope list_scope.

(** ** JavaScript values of the handlers *)

Module JS.

(** [ToBoolean] on a value that is [undefined]/[null] or a string. *)
Definition truthy (v : option string) : bool :=
  match v with
  | None => false
  | Some s => negb (String.eqb s "")
  end.

(** [v || d] with a string default. *)
Definition or_str (v : option string) (d : string) : string :=
  match v with
  | Some s => if String.eqb s "" then d else s
  | None => d
  end.

(** [v || null]. *)
Definition or_null (v : option string) : option string :=
  if truthy v then v else None.

(** [v || []]: an array is always truthy. *)
Definition or_nil (v : option (list string)) : list string :=
  match v with
  | Some l => l
  | None => []
  end.

(** [ToBoolean] on an optional boolean. *)
Definition truthy_bool (v : option bool) : bool :=
  match v with
  | Some b => b
  | None => false
  end.

(** [if (x !== undefined) o.f = x]: the value of [o.f] afterwards. *)
Definition assign_if_defined {A} (x : option A) (old : A) : A :=
  match x with
  | Some v => v
  | None => old
  end.

(** A Number that is an integer or [NaN]. *)
Definition number := option Z.
Definition NaN : number := None.

Definition sub (a b : number) : number :=
  match a, b with
  | Some x, Some y => Some (x - y)%Z
  | _, _ => NaN
  end.

(** What [Array.prototype.sort] makes of the comparator's result:
    [NaN] counts as [+0]. *)
Definition sort_order (v : number) : Z :=
  match v with
  | Some z => z
  | None => 0%Z
  end.

Section Sort.
Context {A : Type} (comparefn : A → A → number).

Fixpoint insert (x : A) (l : list A) : list A :=
  match l with
  | [] => [x]
  | y :: l' =>
      if (sort_order (comparefn x y) <=? 0)%Z
      then x :: y :: l'
      else y :: insert x l'
  end.

Definition sort (l : list A) : list A := foldr insert [] l.

(** [x] is left in front of [y] when the two are compared. *)
Definition keeps (x y : A) : Prop :=
  (sort_order (comparefn x y) <=? 0)%Z = true.
End Sort.

(** [n] as a Number, for an array length. *)
Definition of_nat (n : nat) : float :=
  PrimFloat.of_uint63 (Uint63.of_Z (Z.of_nat n)).

(** [Math.round]: the integer nearest to [x], a tie going up; [None]
    when [x] is [NaN] or infinite. *)
Definition Math_round (x : float) : number :=
  match Prim2SF x with
  | SpecFloat.S754_zero _ => Some 0%Z
  | SpecFloat.S754_finite s m e =>
      let n := if s then Z.neg m else Z.pos m in
      Some (match e with
            | Z.neg k => (2 * n + 2 ^ Z.pos k) / 2 ^ (Z.pos k + 1)
            | _ => n * 2 ^ e
            end)%Z
  | _ => NaN
  end.

(** The exceptions a handler can raise. *)
Inductive exn : Type :=
| ReferenceError (ident : string).

End JS.

(** ** Data model *)

(** A project object, as [handleCreateProject] builds it (lines 282-292). *)
Record Project : Type := mkProject {
  p_id : string;
  p_name : option string;
  p_description : string;
  p_status : string;
  p_priority : string;
  p_due_date : option string;
  p_tags : list string;
  p_created_at : Z;
  p_updated_at : Z
}.

(** A task object, as [handleCreateTask] builds it (lines 428-443). *)
Record Task : Type := mkTask {
  t_id : string;
  t_title : option string;
  t_description : string;
  t_project_id : string;
  t_project_name : option string;
  t_status : string;
  t_priority : string;
  t_due_date : option string;
  t_assignee : option string;
  t_tags : list string;
  t_parent_task_id : option string;
  t_created_at : Z;
  t_updated_at : Z;
  t_subtasks : list string
}.

(** The module-level state: [let projects = []; let tasks = [];]. *)
Record store : Type := mkStore {
  projects : list Project;
  tasks : list Task
}.

Definition empty_store : store := {| projects := []; tasks := [] |}.

(** The argument bag of a tool call. *)
Record Args : Type := mkArgs {
  arg_id : option string;
  arg_name : option string;
  arg_title : option string;
  arg_description : option string;
  arg_status : option string;
  arg_priority : option string;
  arg_due_date : option string;
  arg_assignee : option string;
  arg_tags : option (list string);
  arg_project_id : option string;
  arg_parent_task_id : option string;
  arg_task_id : option string;
  arg_new_project_id : option string;
  arg_delete_tasks : option bool
}.

(** The empty bag [{}]. *)
Definition no_args : Args :=
  mkArgs None None None None None None None None None None None None None None.

(** ** Responses *)

(** A project of [list_projects], with its derived [task_counts]
    (lines 245-256). *)
Record ProjectWithCounts : Type := mkProjectWithCounts {
  pc_project : Project;
  pc_total : nat;
  pc_todo : nat;
  pc_in_progress : nat;
  pc_done : nat
}.

(** The [summary] object of [get_project_summary] (lines 561-581). *)
Record Summary : Type := mkSummary {
  s_project : Project;
  s_total_tasks : nat;
  s_todo : nat;
  s_in_progress : nat;
  s_done : nat;
  s_completion_percentage : JS.number;
  s_urgent : nat;
  s_high : nat;
  s_medium : nat;
  s_low : nat;
  s_recent_tasks : list Task
}.

(** The JSON body handed to [res.json]. *)
Inductive body : Type :=
| BError (error : string)
| BProjects (ps : list ProjectWithCounts) (total : nat)
| BProject (project : Project)
| BDeletedProject (project : Project) (deleted_tasks : option (list Task))
| BTasks (ts : list Task) (total : nat)
| BTask (task : Task)
| BDeletedTask (deleted : Task)
| BSummary (summary : Summary).

Record response : Type := mkResponse {
  status : nat;
  json : body
}.

(** What a call of a handler did besides changing the store: the
    response it wrote, and the exception that left it.  Express answers
    an exception raised before any response with status 500. *)
Record outcome : Type := mkOutcome {
  sent : option response;
  raised : option JS.exn
}.

Definition respond (code : nat) (b : body) : outcome :=
  {| sent := Some {| status := code; json := b |}; raised := None |}.

Definition throw (e : JS.exn) : outcome :=
  {| sent := None; raised := Some e |}.

(** [NotFoundError] and [ValidationError] of the specification are the
    404 and 400 responses of the dispatcher. *)
Definition NotFoundError (o : outcome) : Prop :=
  ∃ msg, o = respond 404 (BError msg).

Definition ValidationError (o : outcome) : Prop :=
  ∃ msg, o = respond 400 (BError msg).

(** A 200 response and no exception. *)
Definition succeeds (o : outcome) : Prop :=
  ∃ b, o = respond 200 b.

(** ** Persistence hooks

    [saveProjects] and [saveTasks] are declared with [const] inside the
    block of [if (process.env.REPLIT_DB_URL) { ... }] (lines 18-44), so
    their scope is that block.  The handlers are declared at the top
    level of the module and resolve free identifiers there.  These are
    the bindings of the top level (lines 4-14, 237-552, 649, 658). *)
Definition module_scope : list string :=
  [ "express"; "cors"; "uuidv4"; "app"; "projects"; "tasks"; "lastModified";
    "handleListProjects"; "handleCreateProject"; "handleUpdateProject";
    "handleDeleteProject"; "handleListTasks"; "handleCreateTask";
    "handleUpdateTask"; "handleDeleteTask"; "handleMoveTask";
    "handleGetProjectSummary"; "PORT"; "saveData" ].

(** [if (f) f();] for a persistence hook [f]: evaluating an identifier
    that has no binding raises a [ReferenceError]; a bound hook would
    write to the external database and refresh [lastModified], neither
    of which is part of the store. *)
Definition call_if_defined (f : string) : option JS.exn :=
  if bool_decide (f ∈ module_scope) then None
  else Some (JS.ReferenceError f).

(** [if (f) f(); res.json(...)]. *)
Definition save_then (f : string) (k : outcome) : outcome :=
  match call_if_defined f with
  | Some e => throw e
  | None => k
  end.

(** [res.json(...); if (f) f();]. *)
Definition then_save (o : outcome) (f : string) : outcome :=
  match call_if_defined f with
  | Some e => {| sent := sent o; raised := Some e |}
  | None => o
  end.

(** ** The comparator of the two listings (lines 259-268 and 399-408) *)

(** [priorityOrder[p]] as an operand of [-]: a key outside the literal
    is [undefined] or a member inherited from [Object.prototype], and
    either is [NaN] as a number. *)
Definition priorityOrder (p : string) : JS.number :=
  if String.eqb p "urgent" then Some 0%Z
  else if String.eqb p "high" then Some 1%Z
  else if String.eqb p "medium" then Some 2%Z
  else if String.eqb p "low" then Some 3%Z
  else JS.NaN.

Section Listing.

(** [new Date(s)] on a string: its time value, [None] for an invalid
    date. *)
Variable Date : string → JS.number.

Definition Date_of (v : option string) : JS.number := v ≫= Date.

Definition by_priority_and_due_date {A : Type}
    (priority : A → string) (due_date : A → option string) (a b : A)
    : JS.number :=
  if negb (String.eqb (priority a) (priority b)) then
    JS.sub (priorityOrder (priority a)) (priorityOrder (priority b))
  else if JS.truthy (due_date a) && JS.truthy (due_date b) then
    JS.sub (Date_of (due_date a)) (Date_of (due_date b))
  else Some 0%Z.

(** [(args.status && args.status !== 'all')], also for [args.priority]. *)
Definition is_filter (v : option string) : bool :=
  JS.truthy v && negb (bool_decide (v = Some "all")).

Definition filter_by {A : Type} (field : A → string) (v : option string)
    (l : list A) : list A :=
  if is_filter v then filter (λ x, Some (field x) = v) l else l.

(** Lines 245-256. *)
Definition with_counts (ts : list Task) (project : Project)
    : ProjectWithCounts :=
  let projectTasks := filter (λ t, t_project_id t = p_id project) ts in
  {| pc_project := project;
     pc_total := length projectTasks;
     pc_todo := length (filter (λ t, t_status t = "todo") projectTasks);
     pc_in_progress :=
       length (filter (λ t, t_status t = "in_progress") projectTasks);
     pc_done := length (filter (λ t, t_status t = "done") projectTasks) |}.

(** Lines 238-242. *)
Definition select_projects (args : Args) (ps : list Project) : list Project :=
  filter_by p_status (arg_status args) ps.

(** Lines 237-279. *)
Definition handleListProjects (args : Args) (st : store) : store * outcome :=
  let filtered := select_projects args (projects st) in
  let projectsWithCounts := with_counts (tasks st) <$> filtered in
  let sorted :=
    JS.sort (by_priority_and_due_date (p_priority ∘ pc_project)
                                      (p_due_date ∘ pc_project))
            projectsWithCounts in
  (st, respond 200 (BProjects sorted (length sorted))).

Definition set_project_name (name : option string) (t : Task) : Task :=
  {| t_id := t_id t; t_title := t_title t; t_description := t_description t;
     t_project_id := t_project_id t; t_project_name := name;
     t_status := t_status t; t_priority := t_priority t;
     t_due_date := t_due_date t; t_assignee := t_assignee t;
     t_tags := t_tags t; t_parent_task_id := t_parent_task_id t;
     t_created_at := t_created_at t; t_updated_at := t_updated_at t;
     t_subtasks := t_subtasks t |}.

(** [{...task, project_name: project ? project.name : 'Unknown Project'}]. *)
Definition with_project (ps : list Project) (task : Task) : Task :=
  set_project_name
    match list_find (λ p, p_id p = t_project_id task) ps with
    | Some (_, project) => p_name project
    | None => Some "Unknown Project"
    end
    task.

(** Lines 375-387. *)
Definition select_tasks (args : Args) (ts : list Task) : list Task :=
  let filtered := ts in
  let filtered :=
    if JS.truthy (arg_project_id args)
    then filter (λ t, Some (t_project_id t) = arg_project_id args) filtered
    else filtered in
  let filtered := filter_by t_status (arg_status args) filtered in
  filter_by t_priority (arg_priority args) filtered.

(** Lines 374-419. *)
Definition handleListTasks (args : Args) (st : store) : store * outcome :=
  let filtered := select_tasks args (tasks st) in
  let tasksWithProjects := with_project (projects st) <$> filtered in
  let sorted :=
    JS.sort (by_priority_and_due_date t_priority t_due_date)
            tasksWithProjects in
  (st, respond 200 (BTasks sorted (length sorted))).

End Listing.

(** ** Project handlers *)

(** Lines 281-305.  [uuid] is the value of [uuidv4()], [created] and
    [updated] those of the two [new Date()]. *)
Definition handleCreateProject (uuid : string) (created updated : Z)
    (args : Args) (st : store) : store * outcome :=
  let newProject :=
    {| p_id := uuid;
       p_name := arg_name args;
       p_description := JS.or_str (arg_description args) "";
       p_status := JS.or_str (arg_status args) "todo";
       p_priority := JS.or_str (arg_priority args) "medium";
       p_due_date := JS.or_null (arg_due_date args);
       p_tags := JS.or_nil (arg_tags args);
       p_created_at := created;
       p_updated_at := updated |} in
  let st' := {| projects := projects st ++ [newProject]; tasks := tasks st |} in
  (st', save_then "saveProjects" (respond 200 (BProject newProject))).

(** The assignments of lines 317-324 on one project. *)
Definition update_project_fields (now : Z) (args : Args) (project : Project)
    : Project :=
  {| p_id := p_id project;
     p_name :=
       match arg_name args with
       | Some v => Some v
       | None => p_name project
       end;
     p_description :=
       JS.assign_if_defined (arg_description args) (p_description project);
     p_status := JS.assign_if_defined (arg_status args) (p_status project);
     p_priority :=
       JS.assign_if_defined (arg_priority args) (p_priority project);
     p_due_date :=
       match arg_due_date args with
       | Some v => Some v
       | None => p_due_date project
       end;
     p_tags := JS.assign_if_defined (arg_tags args) (p_tags project);
     p_created_at := p_created_at project;
     p_updated_at := now |}.

(** Lines 307-335. *)
Definition handleUpdateProject (now : Z) (args : Args) (st : store)
    : store * outcome :=
  match arg_id args ≫= λ id, list_find (λ p, p_id p = id) (projects st) with
  | None => (st, respond 404 (BError "Project not found"))
  | Some (projectIndex, project) =>
      let project := update_project_fields now args project in
      let st' := {| projects := <[projectIndex := project]> (projects st);
                    tasks := tasks st |} in
      (st', save_then "saveProjects" (respond 200 (BProject project)))
  end.

(** Lines 337-371. *)
Definition handleDeleteProject (args : Args) (st : store) : store * outcome :=
  match arg_id args ≫= λ id, list_find (λ p, p_id p = id) (projects st) with
  | None => (st, respond 404 (BError "Project not found"))
  | Some (projectIndex, deletedProject) =>
      let projects' := delete projectIndex (projects st) in
      if JS.truthy_bool (arg_delete_tasks args) then
        let deletedTasks :=
          filter (λ t, Some (t_project_id t) = arg_id args) (tasks st) in
        let tasks' :=
          filter (λ t, Some (t_project_id t) ≠ arg_id args) (tasks st) in
        ({| projects := projects'; tasks := tasks' |},
         save_then "saveTasks"
           (then_save
              (respond 200 (BDeletedProject deletedProject (Some deletedTasks)))
              "saveProjects"))
      else
        ({| projects := projects'; tasks := tasks st |},
         then_save (respond 200 (BDeletedProject deletedProject None))
                   "saveProjects")
  end.

(** ** Task handlers *)

Definition add_subtask (child : string) (t : Task) : Task :=
  {| t_id := t_id t; t_title := t_title t; t_description := t_description t;
     t_project_id := t_project_id t; t_project_name := t_project_name t;
     t_status := t_status t; t_priority := t_priority t;
     t_due_date := t_due_date t; t_assignee := t_assignee t;
     t_tags := t_tags t; t_parent_task_id := t_parent_task_id t;
     t_created_at := t_created_at t; t_updated_at := t_updated_at t;
     t_subtasks := t_subtasks t ++ [child] |}.

Definition remove_subtask (child : string) (t : Task) : Task :=
  {| t_id := t_id t; t_title := t_title t; t_description := t_description t;
     t_project_id := t_project_id t; t_project_name := t_project_name t;
     t_status := t_status t; t_priority := t_priority t;
     t_due_date := t_due_date t; t_assignee := t_assignee t;
     t_tags := t_tags t; t_parent_task_id := t_parent_task_id t;
     t_created_at := t_created_at t; t_updated_at := t_updated_at t;
     t_subtasks := filter (λ id, id ≠ child) (t_subtasks t) |}.

(** [if (v) { const parent = tasks.find(t => t.id === v);
              if (parent) <parent is changed by f> }]
    (lines 448-453 and 507-512). *)
Definition on_parent (v : option string) (f : Task → Task) (ts : list Task)
    : list Task :=
  if JS.truthy v then
    match list_find (λ t, Some (t_id t) = v) ts with
    | Some (i, parent) => <[i := f parent]> ts
    | None => ts
    end
  else ts.

(** Lines 421-464. *)
Definition handleCreateTask (uuid : string) (created updated : Z)
    (args : Args) (st : store) : store * outcome :=
  match arg_project_id args with
  | None => (st, respond 404 (BError "Project not found"))
  | Some project_id =>
      match list_find (λ p, p_id p = project_id) (projects st) with
      | None => (st, respond 404 (BError "Project not found"))
      | Some (_, project) =>
          let newTask :=
            {| t_id := uuid;
               t_title := arg_title args;
               t_description := JS.or_str (arg_description args) "";
               t_project_id := project_id;
               t_project_name := p_name project;
               t_status := JS.or_str (arg_status args) "todo";
               t_priority := JS.or_str (arg_priority args) "medium";
               t_due_date := JS.or_null (arg_due_date args);
               t_assignee := JS.or_null (arg_assignee args);
               t_tags := JS.or_nil (arg_tags args);
               t_parent_task_id := JS.or_null (arg_parent_task_id args);
               t_created_at := created;
               t_updated_at := updated;
               t_subtasks := [] |} in
          let pushed := tasks st ++ [newTask] in
          let tasks' :=
            on_parent (arg_parent_task_id args) (add_subtask uuid) pushed in
          ({| projects := projects st; tasks := tasks' |},
           save_then "saveTasks"
             (respond 200 (BTask (default newTask (last tasks')))))
      end
  end.

(** The assignments of lines 476-484 on one task. *)
Definition update_task_fields (now : Z) (args : Args) (task : Task) : Task :=
  {| t_id := t_id task;
     t_title :=
       match arg_title args with
       | Some v => Some v
       | None => t_title task
       end;
     t_description :=
       JS.assign_if_defined (arg_description args) (t_description task);
     t_project_id := t_project_id task;
     t_project_name := t_project_name task;
     t_status := JS.assign_if_defined (arg_status args) (t_status task);
     t_priority := JS.assign_if_defined (arg_priority args) (t_priority task);
     t_due_date :=
       match arg_due_date args with
       | Some v => Some v
       | None => t_due_date task
       end;
     t_assignee :=
       match arg_assignee args with
       | Some v => Some v
       | None => t_assignee task
       end;
     t_tags := JS.assign_if_defined (arg_tags args) (t_tags task);
     t_parent_task_id := t_parent_task_id task;
     t_created_at := t_created_at task;
     t_updated_at := now;
     t_subtasks := t_subtasks task |}.

(** Lines 466-495. *)
Definition handleUpdateTask (now : Z) (args : Args) (st : store)
    : store * outcome :=
  match arg_id args ≫= λ id, list_find (λ t, t_id t = id) (tasks st) with
  | None => (st, respond 404 (BError "Task not found"))
  | Some (taskIndex, task) =>
      let task := update_task_fields now args task in
      let st' := {| projects := projects st;
                    tasks := <[taskIndex := task]> (tasks st) |} in
      (st', save_then "saveTasks" (respond 200 (BTask task)))
  end.

(** Lines 497-523. *)
Definition handleDeleteTask (args : Args) (st : store) : store * outcome :=
  match arg_id args ≫= λ id, list_find (λ t, t_id t = id) (tasks st) with
  | None => (st, respond 404 (BError "Task not found"))
  | Some (taskIndex, deletedTask) =>
      let spliced := delete taskIndex (tasks st) in
      let tasks' :=
        on_parent (t_parent_task_id deletedTask)
                  (remove_subtask (t_id deletedTask)) spliced in
      ({| projects := projects st; tasks := tasks' |},
       save_then "saveTasks" (respond 200 (BDeletedTask deletedTask)))
  end.

(** The assignments of lines 537-539. *)
Definition move_to (now : Z) (new_project_id : string) (newProject : Project)
    (task : Task) : Task :=
  {| t_id := t_id task; t_title := t_title task;
     t_description := t_description task;
     t_project_id := new_project_id;
     t_project_name := p_name newProject;
     t_status := t_status task; t_priority := t_priority task;
     t_due_date := t_due_date task; t_assignee := t_assignee task;
     t_tags := t_tags task; t_parent_task_id := t_parent_task_id task;
     t_created_at := t_created_at task;
     t_updated_at := now;
     t_subtasks := t_subtasks task |}.

(** Lines 525-550. *)
Definition handleMoveTask (now : Z) (args : Args) (st : store)
    : store * outcome :=
  match arg_task_id args ≫= λ id, list_find (λ t, t_id t = id) (tasks st) with
  | None => (st, respond 404 (BError "Task not found"))
  | Some (i, task) =>
      match arg_new_project_id args with
      | None => (st, respond 404 (BError "New project not found"))
      | Some new_project_id =>
          match list_find (λ p, p_id p = new_project_id) (projects st) with
          | None => (st, respond 404 (BError "New project not found"))
          | Some (_, newProject) =>
              let task := move_to now new_project_id newProject task in
              ({| projects := projects st;
                  tasks := <[i := task]> (tasks st) |},
               save_then "saveTasks" (respond 200 (BTask task)))
          end
      end
  end.

(** [projectTasks.length > 0
       ? Math.round((done / projectTasks.length) * 100) : 0]
    (lines 568-570), in binary64 arithmetic. *)
Definition completion_percentage (done total : nat) : JS.number :=
  if (0 <? total)%nat then
    JS.Math_round
      (PrimFloat.mul (PrimFloat.div (JS.of_nat done) (JS.of_nat total))
                     (JS.of_nat 100))
  else Some 0%Z.

(** [(a, b) => new Date(b.updated_at) - new Date(a.updated_at)]. *)
Definition by_updated_at_desc (a b : Task) : JS.number :=
  JS.sub (Some (t_updated_at b)) (Some (t_updated_at a)).

(** Lines 552-590. *)
Definition handleGetProjectSummary (args : Args) (st : store)
    : store * outcome :=
  match arg_id args ≫= λ id, list_find (λ p, p_id p = id) (projects st) with
  | None => (st, respond 404 (BError "Project not found"))
  | Some (_, project) =>
      let projectTasks :=
        filter (λ t, Some (t_project_id t) = arg_id args) (tasks st) in
      let count (P : Task → Prop) `{!∀ t, Decision (P t)} :=
        length (filter P projectTasks) in
      let summary :=
        {| s_project := project;
           s_total_tasks := length projectTasks;
           s_todo := count (λ t, t_status t = "todo");
           s_in_progress := count (λ t, t_status t = "in_progress");
           s_done := count (λ t, t_status t = "done");
           s_completion_percentage :=
             completion_percentage (count (λ t, t_status t = "done"))
                                   (length projectTasks);
           s_urgent := count (λ t, t_priority t = "urgent");
           s_high := count (λ t, t_priority t = "high");
           s_medium := count (λ t, t_priority t = "medium");
           s_low := count (λ t, t_priority t = "low");
           s_recent_tasks := take 5 (JS.sort by_updated_at_desc projectTasks)
        |} in
      (st, respond 200 (BSummary summary))
  end.

(** ** The dispatcher (lines 196-234) *)

(** A tool call: the tool name, the argument bag, and the values the
    handler will read from [uuidv4()] and the clock. *)
Inductive call : Type :=
| list_projects (args : Args)
| create_project (uuid : string) (created updated : Z) (args : Args)
| update_project (now : Z) (args : Args)
| delete_project (args : Args)
| list_tasks (args : Args)
| create_task (uuid : string) (created updated : Z) (args : Args)
| update_task (now : Z) (args : Args)
| delete_task (args : Args)
| move_task (now : Z) (args : Args)
| get_project_summary (args : Args).

Definition dispatch (Date : string → JS.number) (c : call) (st : store)
    : store * outcome :=
  match c with
  | list_projects args => handleListProjects Date args st
  | create_project uuid created updated args =>
      handleCreateProject uuid created updated args st
  | update_project now args => handleUpdateProject now args st
  | delete_project args => handleDeleteProject args st
  | list_tasks args => handleListTasks Date args st
  | create_task uuid created updated args =>
      handleCreateTask uuid created updated args st
  | update_task now args => handleUpdateTask now args st
  | delete_task args => handleDeleteTask args st
  | move_task now args => handleMoveTask now args st
  | get_project_summary args => handleGetProjectSummary args st
  end.

(** The store after a sequence of calls. *)
Definition run (Date : string → JS.number) (cs : list call) (st : store)
    : store :=
  foldl (λ st c, fst (dispatch Date c st)) st cs.

(** ** A [Date] for the examples

    The date-only form [YYYY-MM-DD] of the ECMAScript date-time string
    format, read as midnight UTC; any other string is an invalid date
    here. *)
Definition digit (c : ascii) : option Z :=
  let n := (Z.of_nat (nat_of_ascii c) - 48)%Z in
  if ((0 <=? n) && (n <=? 9))%Z then Some n else None.

Fixpoint digits (acc : Z) (s : string) : option Z :=
  match s with
  | EmptyString => Some acc
  | String c s' =>
      match digit c with
      | Some d => digits (10 * acc + d)%Z s'
      | None => None
      end
  end.

Definition days_from_civil (y m d : Z) : Z :=
  (let y := if m <=? 2 then y - 1 else y in
   let era := y / 400 in
   let yoe := y - era * 400 in
   let doy := (153 * (if 2 <? m then m - 3 else m + 9) + 2) / 5 + d - 1 in
   let doe := yoe * 365 + yoe / 4 - yoe / 100 + doy in
   era * 146097 + doe - 719468)%Z.

Definition Date_ymd (s : string) : JS.number :=
  if (String.length s =? 10)%nat
     && String.eqb (String.substring 4 1 s) "-"
     && String.eqb (String.substring 7 1 s) "-"
  then
    y ← digits 0 (String.substring 0 4 s);
    m ← digits 0 (String.substring 5 2 s);
    d ← digits 0 (String.substring 8 2 s);
    if ((1 <=? m) && (m <=? 12) && (1 <=? d) && (d <=? 31))%Z
    then Some (days_from_civil y m d * 86400000)%Z
    else None
  else None.

(** ** The specification's words, for comparison with the code *)

(** [subtasks] of every task is the set of ids of the tasks whose
    [parent_task_id] is that task's id. *)
Definition mirrors_children (ts : list Task) : Prop :=
  ∀ T, T ∈ ts →
    ∀ id, id ∈ t_subtasks T ↔
          ∃ c, c ∈ ts ∧ t_id c = id ∧ t_parent_task_id c = Some (t_id T).

Definition subtasks_consistent (st : store) : Prop :=
  mirrors_children (tasks st).

(** ** Reachable states *)

(** The ids of the tasks are pairwise distinct, and a [parent_task_id]
    is [null] or a non-empty string, as [args.parent_task_id || null]
    makes it. *)
Definition tasks_wf (ts : list Task) : Prop :=
  NoDup (t_id <$> ts) ∧ ∀ t, t ∈ ts → t_parent_task_id t ≠ Some "".

(** [uuidv4()] returns an id that is in use nowhere: it is the id of no
    task, the [parent_task_id] of no task, and not the
    [parent_task_id] of the request. *)
Definition fresh_task_id (uuid : string) (args : Args) (st : store) : Prop :=
  (∀ t, t ∈ tasks st → t_id t ≠ uuid ∧ t_parent_task_id t ≠ Some uuid) ∧
  arg_parent_task_id args ≠ Some uuid.

(** The calls considered for the states without cascade: every call but
    delete_project with [delete_tasks], a created task getting a fresh
    id. *)
Definition without_cascade (c : call) (st : store) : Prop :=
  match c with
  | create_task uuid _ _ args => fresh_task_id uuid args st
  | delete_project args => JS.truthy_bool (arg_delete_tasks args) = false
  | _ => True
  end.

Inductive reachable_without_cascade (Date : string → JS.number)
    : store → Prop :=
| reachable_empty : reachable_without_cascade Date empty_store
| reachable_call st c :
    reachable_without_cascade Date st →
    without_cascade c st →
    reachable_without_cascade Date (fst (dispatch Date c st)).

(** [on_parent], as a map over an array of distinct ids. *)
Definition retarget (v : option string) (f : Task → Task) (t : Task) : Task :=
  if JS.truthy v then
    if decide (Some (t_id t) = v) then f t else t
  else t.

Section SpecOrder.
Context {A : Type} (Date : string → JS.number).
Context (priority : A → string) (due_date : A → option string).

(** The rank of a priority: urgent < high < medium < low. *)
Definition rank (a : A) : Z := JS.sort_order (priorityOrder (priority a)).

Definition has_due_date (a : A) : Prop := JS.truthy (due_date a) = true.

(** The listing order as the specification words it: by rank; on equal
    priority by ascending due date when both sides have one, an entry
    with a due date before one without. *)
Definition spec_before (a b : A) : Prop :=
  (rank a < rank b)%Z ∨
  (priority a = priority b ∧
   ((has_due_date a ∧ has_due_date b ∧
     (JS.sort_order (Date_of Date (due_date a))
      ≤ JS.sort_order (Date_of Date (due_date b)))%Z) ∨
    (has_due_date a ∧ ¬ has_due_date b) ∨
    (¬ has_due_date a ∧ ¬ has_due_date b))).

Definition spec_sorted (l : list A) : Prop := StronglySorted spec_before l.

(** The order the comparator of the code decides when every entry has
    a due date. *)
Definition by_rank_then_date (a b : A) : Prop :=
  (rank a ≤ rank b)%Z ∧
  (priority a = priority b →
   (JS.sort_order (Date_of Date (due_date a))
    ≤ JS.sort_order (Date_of Date (due_date b)))%Z).

Definition by_rank (a b : A) : Prop := (rank a ≤ rank b)%Z.

(** What the listing guarantees of its result [out] for the collection
    [l] it sorts. *)
Definition listing_order (l out : list A) : Prop :=
  out ≡ₚ l ∧
  ((∀ x, x ∈ l → is_Some (priorityOrder (priority x))) →
   StronglySorted by_rank out) ∧
  ((∀ x, x ∈ l → ¬ has_due_date x) →
   ∀ p, filter (λ x, priority x = p) out = filter (λ x, priority x = p) l) ∧
  ((∀ x, x ∈ l → is_Some (priorityOrder (priority x))) →
   (∀ x, x ∈ l → has_due_date x ∧ is_Some (Date_of Date (due_date x))) →
   StronglySorted by_rank_then_date out ∧
   ∀ p d, filter (λ x, priority x = p ∧ Date_of Date (due_date x) = Some d) out
          = filter (λ x, priority x = p ∧ Date_of Date (due_date x) = Some d) l).

End SpecOrder.

(** ** Sample data for the examples *)

Definition sample_project (id priority : string) (due_date : option string)
    : Project :=
  {| p_id := id; p_name := Some ("Project " ++ id)%string;
     p_description := ""; p_status := "todo"; p_priority := priority;
     p_due_date := due_date; p_tags := [];
     p_created_at := 1000; p_updated_at := 1000 |}.

Definition sample_task (id project_id status priority : string)
    (parent : option string) (subtasks : list string) (updated_at : Z)
    : Task :=
  {| t_id := id; t_title := Some ("Task " ++ id)%string; t_description := "";
     t_project_id := project_id;
     t_project_name := Some ("Project " ++ project_id)%string;
     t_status := status; t_priority := priority; t_due_date := None;
     t_assignee := None; t_tags := []; t_parent_task_id := parent;
     t_created_at := 2000; t_updated_at := updated_at;
     t_subtasks := subtasks |}.

(** Two projects; three tasks of the first, one of the second. *)
Definition sample_store : store :=
  {| projects := [ sample_project "p1" "medium" None;
                   sample_project "p2" "high" (Some "2024-03-01") ];
     tasks := [ sample_task "t1" "p1" "done" "high" None ["t2"] 2001;
                sample_task "t2" "p1" "todo" "low" (Some "t1") [] 2003;
                sample_task "t3" "p2" "todo" "medium" None [] 2002;
                sample_task "t4" "p1" "in_progress" "urgent" None [] 2004 ] |}.

Definition with_id (id : string) (args : Args) : Args :=
  {| arg_id := Some id; arg_name := arg_name args;
     arg_title := arg_title args; arg_description := arg_description args;
     arg_status := arg_status args; arg_priority := arg_priority args;
     arg_due_date := arg_due_date args; arg_assignee := arg_assignee args;
     arg_tags := arg_tags args; arg_project_id := arg_project_id args;
     arg_parent_task_id := arg_parent_task_id args;
     arg_task_id := arg_task_id args;
     arg_new_project_id := arg_new_project_id args;
     arg_delete_tasks := arg_delete_tasks args |}.

Definition with_project_id (id : string) (args : Args) : Args :=
  {| arg_id := arg_id args; arg_name := arg_name args;
     arg_title := arg_title args; arg_description := arg_description args;
     arg_status := arg_status args; arg_priority := arg_priority args;
     arg_due_date := arg_due_date args; arg_assignee := arg_assignee args;
     arg_tags := arg_tags args; arg_project_id := Some id;
     arg_parent_task_id := arg_parent_task_id args;
     arg_task_id := arg_task_id args;
     arg_new_project_id := arg_new_project_id args;
     arg_delete_tasks := arg_delete_tasks args |}.

Definition with_title (title : string) (args : Args) : Args :=
  {| arg_id := arg_id args; arg_name := arg_name args;
     arg_title := Some title; arg_description := arg_description args;
     arg_status := arg_status args; arg_priority := arg_priority args;
     arg_due_date := arg_due_date args; arg_assignee := arg_assignee args;
     arg_tags := arg_tags args; arg_project_id := arg_project_id args;
     arg_parent_task_id := arg_parent_task_id args;
     arg_task_id := arg_task_id args;
     arg_new_project_id := arg_new_project_id args;
     arg_delete_tasks := arg_delete_tasks args |}.

Definition with_status_priority (status priority : string) (args : Args)
    : Args :=
  {| arg_id := arg_id args; arg_name := arg_name args;
     arg_title := arg_title args; arg_description := arg_description args;
     arg_status := Some status; arg_priority := Some priority;
     arg_due_date := arg_due_date args; arg_assignee := arg_assignee args;
     arg_tags := arg_tags args; arg_project_id := arg_project_id args;
     arg_parent_task_id := arg_parent_task_id args;
     arg_task_id := arg_task_id args;
     arg_new_project_id := arg_new_project_id args;
     arg_delete_tasks := arg_delete_tasks args |}.

Definition with_parent_task_id (id : string) (args : Args) : Args :=
  {| arg_id := arg_id args; arg_name := arg_name args;
     arg_title := arg_title args; arg_description := arg_description args;
     arg_status := arg_status args; arg_priority := arg_priority args;
     arg_due_date := arg_due_date args; arg_assignee := arg_assignee args;
     arg_tags := arg_tags args; arg_project_id := arg_project_id args;
     arg_parent_task_id := Some id;
     arg_task_id := arg_task_id args;
     arg_new_project_id := arg_new_project_id args;
     arg_delete_tasks := arg_delete_tasks args |}.

Definition with_delete_tasks (b : bool) (args : Args) : Args :=
  {| arg_id := arg_id args; arg_name := arg_name args;
     arg_title := arg_title args; arg_description := arg_description args;
     arg_status := arg_status args; arg_priority := arg_priority args;
     arg_due_date := arg_due_date args; arg_assignee := arg_assignee args;
     arg_tags := arg_tags args; arg_project_id := arg_project_id args;
     arg_parent_task_id := arg_parent_task_id args;
     arg_task_id := arg_task_id args;
     arg_new_project_id := arg_new_project_id args;
     arg_delete_tasks := Some b |}.

Definition with_name (name : string) (args : Args) : Args :=
  {| arg_id := arg_id args; arg_name := Some name;
     arg_title := arg_title args; arg_description := arg_description args;
     arg_status := arg_status args; arg_priority := arg_priority args;
     arg_due_date := arg_due_date args; arg_assignee := arg_assignee args;
     arg_tags := arg_tags args; arg_project_id := arg_project_id args;
     arg_parent_task_id := arg_parent_task_id args;
     arg_task_id := arg_task_id args;
     arg_new_project_id := arg_new_project_id args;
     arg_delete_tasks := arg_delete_tasks args |}.

(** ** Frames of the updates, in the specification's words *)

(** Every field of a task but [updated_at] and those listed in [except]
    by name is the same in [t] and [t']. *)
Definition same_task_fields (except : list string) (t t' : Task) : Prop :=
  t_id t' = t_id t ∧
  ("title" ∉ except → t_title t' = t_title t) ∧
  ("description" ∉ except → t_description t' = t_description t) ∧
  ("project_id" ∉ except → t_project_id t' = t_project_id t) ∧
  ("project_name" ∉ except → t_project_name t' = t_project_name t) ∧
  ("status" ∉ except → t_status t' = t_status t) ∧
  ("priority" ∉ except → t_priority t' = t_priority t) ∧
  ("due_date" ∉ except → t_due_date t' = t_due_date t) ∧
  ("assignee" ∉ except → t_assignee t' = t_assignee t) ∧
  ("tags" ∉ except → t_tags t' = t_tags t) ∧
  t_parent_task_id t' = t_parent_task_id t ∧
  t_created_at t' = t_created_at t ∧
  t_subtasks t' = t_subtasks t.

Definition same_project_fields (except : list string) (p p' : Project)
    : Prop :=
  p_id p' = p_id p ∧
  ("name" ∉ except → p_name p' = p_name p) ∧
  ("description" ∉ except → p_description p' = p_description p) ∧
  ("status" ∉ except → p_status p' = p_status p) ∧
  ("priority" ∉ except → p_priority p' = p_priority p) ∧
  ("due_date" ∉ except → p_due_date p' = p_due_date p) ∧
  ("tags" ∉ except → p_tags p' = p_tags p) ∧
  p_created_at p' = p_created_at p.

Definition present {A : Type} (name : string) (v : option A) : list string :=
  match v with
  | Some _ => [name]
  | None => []
  end.

(** The names of the fields an update_task request carries. *)
Definition task_fields_of (args : Args) : list string :=
  present "title" (arg_title args) ++
  present "description" (arg_description args) ++
  present "status" (arg_status args) ++
  present "priority" (arg_priority args) ++
  present "due_date" (arg_due_date args) ++
  present "assignee" (arg_assignee args) ++
  present "tags" (arg_tags args).

(** The names of the fields an update_project request carries. *)
Definition project_fields_of (args : Args) : list string :=
  present "name" (arg_name args) ++
  present "description" (arg_description args) ++
  present "status" (arg_status args) ++
  present "priority" (arg_priority args) ++
  present "due_date" (arg_due_date args) ++
  present "tags" (arg_tags args).

(** Two projects, a task in the first, a subtask of it in the second. *)
Definition subtask_across_projects : list call :=
  [ create_project "p1" 1000 1000 (with_name "Launch" no_args);
    create_project "p2" 1001 1001 (with_name "Archive" no_args);
    create_task "t1" 1002 1002
      (with_title "Write copy" (with_project_id "p1" no_args));
    create_task "t2" 1003 1003
      (with_parent_task_id "t1"
         (with_title "Proofread" (with_project_id "p2" no_args))) ].

(** The same, then the second project deleted with its tasks. *)
Definition cascade_over_subtask : list call :=
  subtask_across_projects
  ++ [ delete_project (with_delete_tasks true (with_id "p2" no_args)) ].

(** [p] is an integer nearest to [100 * done / total], as a rational. *)
Definition nearest_percent (done total : nat) (p : Z) : Prop :=
  (0 ≤ p ≤ 100 ∧
   Z.abs (2 * (p * Z.of_nat total - 100 * Z.of_nat done)) ≤ Z.of_nat total)%Z.

#[global] Instance nearest_percent_dec done total p :
  Decision (nearest_percent done total p).
Proof. unfold nearest_percent. apply _. Defined.

(** ** The tool endpoint and the REST routes (lines 196-234, 593-646) *)

(** What a request reads from the environment: the value of [uuidv4()]
    and the first and second reading of the clock. *)
Record Env : Type := mkEnv {
  env_uuid : string;
  env_now : Z;
  env_now' : Z
}.

(** [req.body]: its [arguments] property when it has one, and the bag of
    its own properties. *)
Record Body : Type := mkBody {
  body_arguments : option Args;
  body_self : Args
}.

(** [req.body.arguments || req.body]. *)
Definition args_of (b : Body) : Args :=
  match body_arguments b with
  | Some args => args
  | None => body_self b
  end.

(** The [switch] on the tool name. *)
Definition tool_call (toolName : string) (env : Env) (args : Args)
    : option call :=
  if String.eqb toolName "list_projects" then Some (list_projects args)
  else if String.eqb toolName "create_project" then
    Some (create_project (env_uuid env) (env_now env) (env_now' env) args)
  else if String.eqb toolName "update_project" then
    Some (update_project (env_now env) args)
  else if String.eqb toolName "delete_project" then Some (delete_project args)
  else if String.eqb toolName "list_tasks" then Some (list_tasks args)
  else if String.eqb toolName "create_task" then
    Some (create_task (env_uuid env) (env_now env) (env_now' env) args)
  else if String.eqb toolName "update_task" then
    Some (update_task (env_now env) args)
  else if String.eqb toolName "delete_task" then Some (delete_task args)
  else if String.eqb toolName "move_task" then
    Some (move_task (env_now env) args)
  else if String.eqb toolName "get_project_summary" then
    Some (get_project_summary args)
  else None.

(** [app.post('/tools/:toolName', ...)]. *)
Definition post_tools (Date : string → JS.number) (toolName : string)
    (env : Env) (body : Body) (st : store) : store * outcome :=
  match tool_call toolName env (args_of body) with
  | Some c => dispatch Date c st
  | None => (st, respond 404 (BError ("Unknown tool: " ++ toolName)%string))
  end.

(** The bag [{ project_id, status, priority }] of a listing. *)
Definition listing_args (project_id status priority : option string) : Args :=
  {| arg_id := None; arg_name := None; arg_title := None;
     arg_description := None; arg_status := status; arg_priority := priority;
     arg_due_date := None; arg_assignee := None; arg_tags := None;
     arg_project_id := project_id; arg_parent_task_id := None;
     arg_task_id := None; arg_new_project_id := None;
     arg_delete_tasks := None |}.

(** [app.get('/api/projects', ...)]: [handleListProjects({ status: 'all' })]. *)
Definition get_api_projects (Date : string → JS.number) (st : store)
    : store * outcome :=
  handleListProjects Date (listing_args None (Some "all") None) st.

(** [app.get('/api/tasks', ...)]: the three filters come from the query
    string, [status] and [priority] with ['all'] for a falsy value. *)
Definition get_api_tasks (Date : string → JS.number)
    (project_id status priority : option string) (st : store)
    : store * outcome :=
  handleListTasks Date
    (listing_args project_id (Some (JS.or_str status "all"))
                  (Some (JS.or_str priority "all"))) st.

(** [app.delete('/api/projects/:id', ...)]:
    [{ id, delete_tasks: req.query.delete_tasks === 'true' }]. *)
Definition delete_api_project (id : string) (delete_tasks : option string)
    (st : store) : store * outcome :=
  handleDeleteProject
    (with_delete_tasks (bool_decide (delete_tasks = Some "true"))
                       (with_id id no_args)) st.

(** ** What a listing selects *)

(** A filter value selects a field: no filter for a falsy value and for
    ['all'], equality otherwise. *)
Definition selects (v : option string) (field : string) : Prop :=
  is_filter v = true → Some field = v.

#[global] Instance selects_dec v field : Decision (selects v field).
Proof. unfold selects. apply _. Defined.

Definition task_selected (args : Args) (t : Task) : Prop :=
  (JS.truthy (arg_project_id args) = true
   → Some (t_project_id t) = arg_project_id args) ∧
  selects (arg_status args) (t_status t) ∧
  selects (arg_priority args) (t_priority t).

#[global] Instance task_selected_dec args t : Decision (task_selected args t).
Proof. unfold task_selected. apply _. Defined.

(** The statuses the counts of a project distinguish. *)
Definition known_status (s : string) : Prop :=
  s = "todo" ∨ s = "in_progress" ∨ s = "done".

Definition known_priority (p : string) : Prop :=
  p = "urgent" ∨ p = "high" ∨ p = "medium" ∨ p = "low".

(** ** Reachable states, every call allowed *)

(** [uuidv4()] returns an id that no project and no task has. *)
Definition fresh_id (c : call) (st : store) : Prop :=
  match c with
  | create_project uuid _ _ _ => ∀ p, p ∈ projects st → p_id p ≠ uuid
  | create_task uuid _ _ _ => ∀ t, t ∈ tasks st → t_id t ≠ uuid
  | _ => True
  end.

Inductive reachable (Date : string → JS.number) : store → Prop :=
| reachable_init : reachable Date empty_store
| reachable_step st c :
    reachable Date st → fresh_id c st →
    reachable Date (fst (dispatch Date c st)).

(** A project is never deleted without its tasks. *)
Definition keeps_no_orphans (c : call) : Prop :=
  match c with
  | delete_project args => JS.truthy_bool (arg_delete_tasks args) = true
  | _ => True
  end.

Inductive reachable_cascading (Date : string → JS.number) : store → Prop :=
| cascading_init : reachable_cascading Date empty_store
| cascading_step st c :
    reachable_cascading Date st → keeps_no_orphans c →
    reachable_cascading Date (fst (dispatch Date c st)).

(** Every task belongs to an existing project. *)
Definition projects_resolve (st : store) : Prop :=
  ∀ t, t ∈ tasks st → ∃ p, p ∈ projects st ∧ p_id p = t_project_id t.

(** * The MCP servers: [executeTool] and [handleTool]

    [mcp-http-server.js] keeps projects and tasks of fewer fields and
    serves eight tools through [executeTool] (lines 179-285), which
    returns a text or throws an [Error]; the hybrid server in the second
    part of [mcp-task-server-v2.js] serves the first four of them
    through [handleTool] (lines 739-793).  The text a tool returns is
    not modelled, the values it is printed from are. *)

Module Mcp.

Record Project : Type := mkProject {
  mp_id : string;
  mp_name : option string;
  mp_description : string;
  mp_status : string;
  mp_priority : string;
  mp_created_at : Z;
  mp_updated_at : Z
}.

Record Task : Type := mkTask {
  mt_id : string;
  mt_title : option string;
  mt_description : string;
  mt_project_id : string;
  mt_status : string;
  mt_priority : string;
  mt_created_at : Z;
  mt_updated_at : Z
}.

(** [let projects = []; let tasks = [];]. *)
Record store : Type := mkStore {
  projects : list Project;
  tasks : list Task
}.

Definition empty_store : store := {| projects := []; tasks := [] |}.

(** What a tool throws: [new Error(...)] with the id or the name it
    prints, and the [TypeError] of reading a property of [undefined]. *)
Inductive failure : Type :=
| ProjectNotFound (project_id : option string)
| TaskNotFound (task_id : option string)
| UnknownTool (name : option string)
| TypeError.

(** What a tool returns, before it is printed. *)
Inductive result : Type :=
| Projects (filteredProjects : list Project)
| CreatedProject (newProject : Project)
| CreatedTask (newTask : Task) (project : Project)
| Tasks (filteredTasks : list Task)
| UpdatedTask (task : Task)
| DeletedTask (taskToDelete : Task)
| UpdatedProject (project : Project)
| DeletedProject (projectToDelete : Project) (deletedTasksCount : nat).

Inductive completion : Type :=
| Returned (r : result)
| Thrown (e : failure).

(** [case "list_projects"]. *)
Definition list_projects (args : Args) (st : store) : store * completion :=
  let filteredProjects :=
    if is_filter (arg_status args)
    then filter (λ p, Some (mp_status p) = arg_status args) (projects st)
    else projects st in
  (st, Returned (Projects filteredProjects)).

(** [case "create_project"]. *)
Definition create_project (env : Env) (args : Args) (st : store)
    : store * completion :=
  let newProject :=
    {| mp_id := env_uuid env;
       mp_name := arg_name args;
       mp_description := JS.or_str (arg_description args) "";
       mp_status := JS.or_str (arg_status args) "todo";
       mp_priority := JS.or_str (arg_priority args) "medium";
       mp_created_at := env_now env;
       mp_updated_at := env_now' env |} in
  ({| projects := projects st ++ [newProject]; tasks := tasks st |},
   Returned (CreatedProject newProject)).

(** [case "create_task"]. *)
Definition create_task (env : Env) (args : Args) (st : store)
    : store * completion :=
  match arg_project_id args with
  | None => (st, Thrown (ProjectNotFound None))
  | Some project_id =>
      match list_find (λ p, mp_id p = project_id) (projects st) with
      | None => (st, Thrown (ProjectNotFound (Some project_id)))
      | Some (_, project) =>
          let newTask :=
            {| mt_id := env_uuid env;
               mt_title := arg_title args;
               mt_description := JS.or_str (arg_description args) "";
               mt_project_id := project_id;
               mt_status := JS.or_str (arg_status args) "todo";
               mt_priority := JS.or_str (arg_priority args) "medium";
               mt_created_at := env_now env;
               mt_updated_at := env_now' env |} in
          ({| projects := projects st; tasks := tasks st ++ [newTask] |},
           Returned (CreatedTask newTask project))
      end
  end.

(** [case "list_tasks"]. *)
Definition list_tasks (args : Args) (st : store) : store * completion :=
  let filteredTasks :=
    if JS.truthy (arg_project_id args)
    then filter (λ t, Some (mt_project_id t) = arg_project_id args) (tasks st)
    else tasks st in
  let filteredTasks :=
    if is_filter (arg_status args)
    then filter (λ t, Some (mt_status t) = arg_status args) filteredTasks
    else filteredTasks in
  (st, Returned (Tasks filteredTasks)).

(** The assignments of [case "update_task"]. *)
Definition update_task_fields (now : Z) (args : Args) (t : Task) : Task :=
  {| mt_id := mt_id t;
     mt_title :=
       match arg_title args with
       | Some v => Some v
       | None => mt_title t
       end;
     mt_description :=
       JS.assign_if_defined (arg_description args) (mt_description t);
     mt_project_id := mt_project_id t;
     mt_status := JS.assign_if_defined (arg_status args) (mt_status t);
     mt_priority := JS.assign_if_defined (arg_priority args) (mt_priority t);
     mt_created_at := mt_created_at t;
     mt_updated_at := now |}.

(** [case "update_task"]. *)
Definition update_task (env : Env) (args : Args) (st : store)
    : store * completion :=
  match arg_task_id args ≫= λ id, list_find (λ t, mt_id t = id) (tasks st) with
  | None => (st, Thrown (TaskNotFound (arg_task_id args)))
  | Some (taskIndex, task) =>
      let task := update_task_fields (env_now env) args task in
      ({| projects := projects st;
          tasks := <[taskIndex := task]> (tasks st) |},
       Returned (UpdatedTask task))
  end.

(** [case "delete_task"]. *)
Definition delete_task (args : Args) (st : store) : store * completion :=
  match arg_task_id args ≫= λ id, list_find (λ t, mt_id t = id) (tasks st) with
  | None => (st, Thrown (TaskNotFound (arg_task_id args)))
  | Some (_, taskToDelete) =>
      ({| projects := projects st;
          tasks := filter (λ t, Some (mt_id t) ≠ arg_task_id args) (tasks st) |},
       Returned (DeletedTask taskToDelete))
  end.

(** The assignments of [case "update_project"]. *)
Definition update_project_fields (now : Z) (args : Args) (p : Project)
    : Project :=
  {| mp_id := mp_id p;
     mp_name :=
       match arg_name args with
       | Some v => Some v
       | None => mp_name p
       end;
     mp_description :=
       JS.assign_if_defined (arg_description args) (mp_description p);
     mp_status := JS.assign_if_defined (arg_status args) (mp_status p);
     mp_priority := JS.assign_if_defined (arg_priority args) (mp_priority p);
     mp_created_at := mp_created_at p;
     mp_updated_at := now |}.

(** [case "update_project"]. *)
Definition update_project (env : Env) (args : Args) (st : store)
    : store * completion :=
  match arg_project_id args
        ≫= λ id, list_find (λ p, mp_id p = id) (projects st) with
  | None => (st, Thrown (ProjectNotFound (arg_project_id args)))
  | Some (projectIndex, project) =>
      let project := update_project_fields (env_now env) args project in
      ({| projects := <[projectIndex := project]> (projects st);
          tasks := tasks st |},
       Returned (UpdatedProject project))
  end.

(** [case "delete_project"]. *)
Definition delete_project (args : Args) (st : store) : store * completion :=
  match arg_project_id args
        ≫= λ id, list_find (λ p, mp_id p = id) (projects st) with
  | None => (st, Thrown (ProjectNotFound (arg_project_id args)))
  | Some (_, projectToDelete) =>
      let deletedTasksCount :=
        length (filter (λ t, Some (mt_project_id t) = arg_project_id args)
                       (tasks st)) in
      ({| projects :=
            filter (λ p, Some (mp_id p) ≠ arg_project_id args) (projects st);
          tasks :=
            filter (λ t, Some (mt_project_id t) ≠ arg_project_id args)
                   (tasks st) |},
       Returned (DeletedProject projectToDelete deletedTasksCount))
  end.

(** The body of [executeTool] of [mcp-http-server.js]: the [switch] on
    the name. *)
Definition executeTool_body (name : option string) (env : Env) (args : Args)
    (st : store) : store * completion :=
  match name with
  | None => (st, Thrown (UnknownTool name))
  | Some n =>
      if String.eqb n "list_projects" then list_projects args st
      else if String.eqb n "create_project" then create_project env args st
      else if String.eqb n "create_task" then create_task env args st
      else if String.eqb n "list_tasks" then list_tasks args st
      else if String.eqb n "update_task" then update_task env args st
      else if String.eqb n "delete_task" then delete_task args st
      else if String.eqb n "update_project" then update_project env args st
      else if String.eqb n "delete_project" then delete_project args st
      else (st, Thrown (UnknownTool name))
  end.

(** [function executeTool(name, args = {})]. *)
Definition executeTool (name : option string) (env : Env)
    (args : option Args) (st : store) : store * completion :=
  executeTool_body name env (default no_args args) st.

(** [function handleTool(name, args)] of the hybrid server: four tools,
    and no default for [args], so that a tool reads a property of
    [undefined] when no arguments are sent. *)
Definition handleTool (name : option string) (env : Env)
    (args : option Args) (st : store) : store * completion :=
  let with_args (tool : Args → store → store * completion) :=
    match args with
    | Some args => tool args st
    | None => (st, Thrown TypeError)
    end in
  match name with
  | None => (st, Thrown (UnknownTool name))
  | Some n =>
      if String.eqb n "list_projects" then with_args list_projects
      else if String.eqb n "create_project" then with_args (create_project env)
      else if String.eqb n "list_tasks" then with_args list_tasks
      else if String.eqb n "create_task" then with_args (create_task env)
      else (st, Thrown (UnknownTool name))
  end.

(** [app.post('/tools/call', ...)] of the hybrid server (lines 853-868):
    the status and, for 200, the value the text is printed from. *)
Definition post_tools_call (name : option string) (env : Env)
    (args : option Args) (st : store) : store * (nat * option result) :=
  match handleTool name env args st with
  | (st', Returned r) => (st', (200, Some r))
  | (st', Thrown _) => (st', (400, None))
  end.

(** ** The [/mcp] endpoint of [mcp-http-server.js], POST (lines 303-391)

    A message of the JSON-RPC transport: [jsonrpc], [method], and of
    [params] the [name] and [arguments] of a tool call; [None] for
    [params] is a message without them. *)
Record Params : Type := mkParams {
  par_name : option string;
  par_arguments : option Args
}.

Record Message : Type := mkMessage {
  msg_jsonrpc : option string;
  msg_method : option string;
  msg_params : option Params
}.

(** The body of the answer: a [result], an [error] with its code, or
    none. *)
Inductive answer : Type :=
| Initialized (sessionId : string)
| ToolList
| ToolResult (r : result)
| RpcError (code : Z)
| NoBody.

Record reply : Type := mkReply {
  http_status : nat;
  body : answer
}.

(** The sessions: the keys of the [Map], [set] replacing an entry of
    the same key. *)
Definition set_session (sessionId : string) (sessions : list string)
    : list string :=
  if bool_decide (sessionId ∈ sessions) then sessions
  else sessions ++ [sessionId].

Definition post_mcp (env : Env) (message : Message)
    (st : store) (sessions : list string)
    : store * list string * reply :=
  let method_is (m : string) :=
    bool_decide (msg_method message = Some m) in
  if negb (bool_decide (msg_jsonrpc message = Some "2.0")) then
    (st, sessions, {| http_status := 400; body := RpcError (-32600) |})
  else if method_is "initialize" then
    (st, set_session (env_uuid env) sessions,
     {| http_status := 200; body := Initialized (env_uuid env) |})
  else if method_is "tools/list" then
    (st, sessions, {| http_status := 200; body := ToolList |})
  else if method_is "tools/call" then
    match msg_params message with
    | None =>
        (st, sessions, {| http_status := 500; body := RpcError (-32603) |})
    | Some params =>
        match executeTool (par_name params) env (par_arguments params) st
        with
        | (st', Returned r) =>
            (st', sessions, {| http_status := 200; body := ToolResult r |})
        | (st', Thrown _) =>
            (st', sessions,
             {| http_status := 500; body := RpcError (-32603) |})
        end
    end
  else if method_is "notifications/initialized" then
    (st, sessions, {| http_status := 202; body := NoBody |})
  else
    (st, sessions, {| http_status := 200; body := RpcError (-32601) |}).

(** Two projects of the same status; two tasks of the first, one of
    the second. *)
Definition sample_store : store :=
  {| projects :=
       [ mkProject "m1" (Some "Launch") "" "todo" "medium" 1000 1000;
         mkProject "m2" (Some "Archive") "" "todo" "low" 1001 1001 ];
     tasks :=
       [ mkTask "k1" (Some "Write copy") "" "m1" "todo" "medium" 2000 2000;
         mkTask "k2" (Some "Sort files") "" "m2" "done" "low" 2001 2001;
         mkTask "k3" (Some "Proofread") "" "m1" "todo" "high" 2002 2002 ] |}.

Definition sample_env : Env :=
  {| env_uuid := "k4"; env_now := 3000; env_now' := 3001 |}.

(** The states [executeTool] reaches from the empty arrays. *)
Inductive reachable : store → Prop :=
| reachable_empty : reachable empty_store
| reachable_call st name env args :
    reachable st → reachable (fst (executeTool name env args st)).

(** Every task belongs to an existing project. *)
Definition projects_resolve (st : store) : Prop :=
  ∀ t, t ∈ tasks st → ∃ p, p ∈ projects st ∧ mp_id p = mt_project_id t.

End Mcp.

(** * The first server: [mcp-task-server.js]

    The first version of the server keeps tasks only, linked by
    [parent_id].  Its five handlers answer through [res]; [saveTasks] is
    bound at module level there (line 329), so every handler runs to its
    response.  The [lastModified] string and the Replit database are not
    modelled. *)

Module V1.

(** A task object, as [handleCreateTask] builds it (lines 182-194). *)
Record Task : Type := mkTask {
  t1_id : string;
  t1_title : option string;
  t1_description : string;
  t1_status : string;
  t1_priority : string;
  t1_due_date : option string;
  t1_tags : list string;
  t1_parent_id : option string;
  t1_created_at : Z;
  t1_updated_at : Z;
  t1_subtasks : list string
}.

(** The argument bag of a tool call. *)
Record Args : Type := mkArgs {
  a_id : option string;
  a_title : option string;
  a_description : option string;
  a_status : option string;
  a_priority : option string;
  a_due_date : option string;
  a_tags : option (list string);
  a_parent_id : option string
}.

Definition no_args : Args := mkArgs None None None None None None None None.

(** The JSON body handed to [res.json]; [BTaskWithSubtasks task subtasks]
    is [{ ...task, subtasks }] of [handleGetTask]. *)
Inductive body : Type :=
| BError (error : string)
| BTasks (tasks : list Task) (total : nat)
| BTask (task : Task)
| BDeleted (deleted : Task)
| BTaskWithSubtasks (task : Task) (subtasks : list Task).

Record response : Type := mkResponse {
  status : nat;
  json : body
}.

Definition respond (code : nat) (b : body) : response :=
  {| status := code; json := b |}.

(** Lines 147-179. *)
Definition handleListTasks (Date : string → JS.number) (args : Args)
    (tasks : list Task) : list Task * response :=
  let filtered := tasks in
  let filtered := filter_by t1_status (a_status args) filtered in
  let filtered := filter_by t1_priority (a_priority args) filtered in
  let sorted :=
    JS.sort (by_priority_and_due_date Date t1_priority t1_due_date)
            filtered in
  (tasks, respond 200 (BTasks sorted (length sorted))).

Definition add_subtask (child : string) (t : Task) : Task :=
  {| t1_id := t1_id t; t1_title := t1_title t;
     t1_description := t1_description t; t1_status := t1_status t;
     t1_priority := t1_priority t; t1_due_date := t1_due_date t;
     t1_tags := t1_tags t; t1_parent_id := t1_parent_id t;
     t1_created_at := t1_created_at t; t1_updated_at := t1_updated_at t;
     t1_subtasks := t1_subtasks t ++ [child] |}.

Definition remove_subtask (child : string) (t : Task) : Task :=
  {| t1_id := t1_id t; t1_title := t1_title t;
     t1_description := t1_description t; t1_status := t1_status t;
     t1_priority := t1_priority t; t1_due_date := t1_due_date t;
     t1_tags := t1_tags t; t1_parent_id := t1_parent_id t;
     t1_created_at := t1_created_at t; t1_updated_at := t1_updated_at t;
     t1_subtasks := filter (λ id, id ≠ child) (t1_subtasks t) |}.

(** [if (v) { const parent = tasks.find(t => t.id === v);
              if (parent) <parent is changed by f> }]
    (lines 199-204 and 257-262). *)
Definition on_parent (v : option string) (f : Task → Task) (tasks : list Task)
    : list Task :=
  if JS.truthy v then
    match list_find (λ t, Some (t1_id t) = v) tasks with
    | Some (i, parent) => <[i := f parent]> tasks
    | None => tasks
    end
  else tasks.

(** Lines 181-215.  The task of the response is the object pushed, as
    the registration with the parent has left it. *)
Definition handleCreateTask (uuid : string) (created updated : Z)
    (args : Args) (tasks : list Task) : list Task * response :=
  let newTask :=
    {| t1_id := uuid;
       t1_title := a_title args;
       t1_description := JS.or_str (a_description args) "";
       t1_status := JS.or_str (a_status args) "todo";
       t1_priority := JS.or_str (a_priority args) "medium";
       t1_due_date := JS.or_null (a_due_date args);
       t1_tags := JS.or_nil (a_tags args);
       t1_parent_id := JS.or_null (a_parent_id args);
       t1_created_at := created;
       t1_updated_at := updated;
       t1_subtasks := [] |} in
  let pushed := tasks ++ [newTask] in
  let tasks' := on_parent (a_parent_id args) (add_subtask uuid) pushed in
  (tasks', respond 200 (BTask (default newTask (last tasks')))).

(** The assignments of lines 227-234 on one task. *)
Definition update_task_fields (now : Z) (args : Args) (task : Task) : Task :=
  {| t1_id := t1_id task;
     t1_title :=
       match a_title args with
       | Some v => Some v
       | None => t1_title task
       end;
     t1_description :=
       JS.assign_if_defined (a_description args) (t1_description task);
     t1_status := JS.assign_if_defined (a_status args) (t1_status task);
     t1_priority := JS.assign_if_defined (a_priority args) (t1_priority task);
     t1_due_date :=
       match a_due_date args with
       | Some v => Some v
       | None => t1_due_date task
       end;
     t1_tags := JS.assign_if_defined (a_tags args) (t1_tags task);
     t1_parent_id := t1_parent_id task;
     t1_created_at := t1_created_at task;
     t1_updated_at := now;
     t1_subtasks := t1_subtasks task |}.

(** Lines 217-245. *)
Definition handleUpdateTask (now : Z) (args : Args) (tasks : list Task)
    : list Task * response :=
  match a_id args ≫= λ id, list_find (λ t, t1_id t = id) tasks with
  | None => (tasks, respond 404 (BError "Task not found"))
  | Some (taskIndex, task) =>
      let task := update_task_fields now args task in
      (<[taskIndex := task]> tasks, respond 200 (BTask task))
  end.

(** Lines 247-273. *)
Definition handleDeleteTask (args : Args) (tasks : list Task)
    : list Task * response :=
  match a_id args ≫= λ id, list_find (λ t, t1_id t = id) tasks with
  | None => (tasks, respond 404 (BError "Task not found"))
  | Some (taskIndex, deletedTask) =>
      let spliced := delete taskIndex tasks in
      let tasks' :=
        on_parent (t1_parent_id deletedTask)
                  (remove_subtask (t1_id deletedTask)) spliced in
      (tasks', respond 200 (BDeleted deletedTask))
  end.

(** [tasks.find(t => t.id === id)]. *)
Definition find_task (tasks : list Task) (id : string) : option Task :=
  snd <$> list_find (λ t, t1_id t = id) tasks.

(** Lines 275-292: [task.subtasks.map(id => tasks.find(...))
    .filter(Boolean)]. *)
Definition handleGetTask (args : Args) (tasks : list Task)
    : list Task * response :=
  match a_id args ≫= find_task tasks with
  | None => (tasks, respond 404 (BError "Task not found"))
  | Some task =>
      let subtasks := omap (find_task tasks) (t1_subtasks task) in
      (tasks, respond 200 (BTaskWithSubtasks task subtasks))
  end.

(** A tool call, with the values the handler will read from [uuidv4()]
    and the clock. *)
Inductive call : Type :=
| list_tasks (args : Args)
| create_task (uuid : string) (created updated : Z) (args : Args)
| update_task (now : Z) (args : Args)
| delete_task (args : Args)
| get_task (args : Args).

Definition dispatch (Date : string → JS.number) (c : call)
    (tasks : list Task) : list Task * response :=
  match c with
  | list_tasks args => handleListTasks Date args tasks
  | create_task uuid created updated args =>
      handleCreateTask uuid created updated args tasks
  | update_task now args => handleUpdateTask now args tasks
  | delete_task args => handleDeleteTask args tasks
  | get_task args => handleGetTask args tasks
  end.

(** The [switch] of [app.post('/tools/:toolName', ...)] (lines 121-144). *)
Definition tool_call (toolName : string) (env : Env) (args : Args)
    : option call :=
  if String.eqb toolName "list_tasks" then Some (list_tasks args)
  else if String.eqb toolName "create_task" then
    Some (create_task (env_uuid env) (env_now env) (env_now' env) args)
  else if String.eqb toolName "update_task" then
    Some (update_task (env_now env) args)
  else if String.eqb toolName "delete_task" then Some (delete_task args)
  else if String.eqb toolName "get_task" then Some (get_task args)
  else None.

Definition post_tools (Date : string → JS.number) (toolName : string)
    (env : Env) (args : Args) (tasks : list Task) : list Task * response :=
  match tool_call toolName env args with
  | Some c => dispatch Date c tasks
  | None =>
      (tasks, respond 404 (BError ("Unknown tool: " ++ toolName)%string))
  end.

(** ** The tasks the server reaches *)

(** [uuidv4()] returns an id that is in use nowhere: it is the id of no
    task, the [parent_id] of no task, and not the [parent_id] of the
    request. *)
Definition fresh (c : call) (tasks : list Task) : Prop :=
  match c with
  | create_task uuid _ _ args =>
      (∀ t, t ∈ tasks → t1_id t ≠ uuid ∧ t1_parent_id t ≠ Some uuid) ∧
      a_parent_id args ≠ Some uuid
  | _ => True
  end.

Inductive reachable (Date : string → JS.number) : list Task → Prop :=
| reachable_start : reachable Date []
| reachable_next tasks c :
    reachable Date tasks → fresh c tasks →
    reachable Date (fst (dispatch Date c tasks)).

(** The ids of the tasks are pairwise distinct, a [parent_id] is
    [null] or a non-empty string, and no task is its own parent. *)
Definition tasks_wf (tasks : list Task) : Prop :=
  NoDup (t1_id <$> tasks) ∧
  ∀ t, t ∈ tasks →
    t1_parent_id t ≠ Some "" ∧ t1_parent_id t ≠ Some (t1_id t).

(** The tasks whose [parent_id] is [id], in the order of [tasks]. *)
Definition children (tasks : list Task) (id : string) : list Task :=
  filter (λ c, t1_parent_id c = Some id) tasks.

(** [subtasks] of every task lists the ids of its children, in the
    order of [tasks]. *)
Definition lists_children (tasks : list Task) : Prop :=
  ∀ T, T ∈ tasks → t1_subtasks T = t1_id <$> children tasks (t1_id T).

(** [on_parent], as a map over an array of distinct ids. *)
Definition retarget (v : option string) (f : Task → Task) (t : Task) : Task :=
  if JS.truthy v then
    if decide (Some (t1_id t) = v) then f t else t
  else t.

(** What the status and priority filters of a listing let pass. *)
Definition task_selected (args : Args) (t : Task) : Prop :=
  selects (a_status args) (t1_status t) ∧
  selects (a_priority args) (t1_priority t).

#[global] Instance selected_dec args t : Decision (task_selected args t).
Proof. unfold task_selected. apply _. Defined.

(** A sample request and the tasks of three calls: a task, a second
    task under it, and a third on its own. *)
Definition sample_args (title : string) (priority parent_id : option string)
    : Args :=
  {| a_id := None; a_title := Some title; a_description := None;
     a_status := None; a_priority := priority; a_due_date := None;
     a_tags := None; a_parent_id := parent_id |}.

Definition sample_calls : list call :=
  [ create_task "a" 1000 1001 (sample_args "Plan" None None);
    create_task "b" 2000 2001 (sample_args "Draft" (Some "high") (Some "a"));
    create_task "c" 3000 3001 (sample_args "Review" None None) ].

Definition run (Date : string → JS.number) (cs : list call)
    (tasks : list Task) : list Task :=
  foldl (λ ts c, fst (dispatch Date c ts)) tasks cs.

Definition sample_tasks : list Task := run Date_ymd sample_calls [].

Definition with_id (id : string) (args : Args) : Args :=
  {| a_id := Some id; a_title := a_title args;
     a_description := a_description args; a_status := a_status args;
     a_priority := a_priority args; a_due_date := a_due_date args;
     a_tags := a_tags args; a_parent_id := a_parent_id args |}.

End V1.

(** * Properties *)

(** ** [Array.prototype.sort] *)

Section SortFacts.
Context {A : Type} (comparefn : A → A → JS.number).

Abbreviation keeps := (JS.keeps comparefn).

Lemma insert_perm x l : JS.insert comparefn x l ≡ₚ x :: l.
Proof.
  induction l as [|y l IH]; simpl; [done|].
  destruct (_ <=? _)%Z; [done|].
  rewrite IH. apply perm_swap.
Qed.

Lemma sort_perm l : JS.sort comparefn l ≡ₚ l.
Proof.
  induction l as [|x l IH]; simpl; [done|].
  unfold JS.sort in *. by rewrite insert_perm, IH.
Qed.

Lemma elem_of_sort x l : x ∈ JS.sort comparefn l ↔ x ∈ l.
Proof. by rewrite sort_perm. Qed.

Lemma length_sort l : length (JS.sort comparefn l) = length l.
Proof. by rewrite sort_perm. Qed.

(** Sorting with respect to any transitive relation [R] that the
    comparator refines on the elements at hand. *)
Lemma insert_sorted (R : relation A) (Q : A → Prop) x l :
  (∀ a b c, Q a → Q b → Q c → R a b → R b c → R a c) →
  (∀ a b, Q a → Q b → keeps a b → R a b) →
  (∀ a b, Q a → Q b → ¬ keeps a b → R b a) →
  Q x → Forall Q l →
  StronglySorted R l → StronglySorted R (JS.insert comparefn x l).
Proof.
  intros Htrans Hle Hgt Hx HQ Hs.
  induction l as [|y l IH]; simpl.
  { repeat constructor. }
  apply Forall_cons in HQ as [Hy HQ].
  apply StronglySorted_cons in Hs as [Hall Hs].
  destruct (JS.sort_order (comparefn x y) <=? 0)%Z eqn:E.
  - apply StronglySorted_cons. split.
    + apply Forall_cons. split; [by apply Hle|].
      rewrite Forall_forall in *. intros z Hz.
      apply (Htrans x y z); auto.
    + by apply StronglySorted_cons.
  - apply StronglySorted_cons. split; [|by apply IH].
    rewrite Forall_forall in *. intros z Hz.
    rewrite insert_perm in Hz.
    apply elem_of_cons in Hz as [->|Hz]; [|by apply Hall].
    apply Hgt; auto. unfold JS.keeps. by rewrite E.
Qed.

Lemma sort_sorted (R : relation A) (Q : A → Prop) l :
  (∀ a b c, Q a → Q b → Q c → R a b → R b c → R a c) →
  (∀ a b, Q a → Q b → keeps a b → R a b) →
  (∀ a b, Q a → Q b → ¬ keeps a b → R b a) →
  Forall Q l →
  StronglySorted R (JS.sort comparefn l).
Proof.
  intros Htrans Hle Hgt HQ.
  induction l as [|x l IH]; simpl; [constructor|].
  apply Forall_cons in HQ as [Hx HQ].
  apply (insert_sorted R Q); auto.
  rewrite Forall_forall in *. intros z Hz. apply HQ.
  by rewrite elem_of_sort in Hz.
Qed.

(** Stability: entries that the comparator never moves past one
    another keep their encounter order. *)
Lemma insert_filter (P : A → Prop) `{!∀ x, Decision (P x)} x l :
  (∀ y, y ∈ l → P x → P y → keeps x y) →
  filter P (JS.insert comparefn x l) = filter P (x :: l).
Proof.
  induction l as [|y l IH]; intros Hk; simpl; [done|].
  destruct (JS.sort_order (comparefn x y) <=? 0)%Z eqn:E; [done|].
  rewrite filter_cons, IH
    by (intros z Hz Px Pz; apply Hk; [by apply list_elem_of_further|done..]).
  rewrite !filter_cons.
  destruct (decide (P x)) as [Px|], (decide (P y)) as [Py|]; try done.
  specialize (Hk y (list_elem_of_here _ _) Px Py).
  unfold JS.keeps in Hk. congruence.
Qed.

Lemma sort_filter (P : A → Prop) `{!∀ x, Decision (P x)} l :
  (∀ x y, x ∈ l → y ∈ l → P x → P y → keeps x y) →
  filter P (JS.sort comparefn l) = filter P l.
Proof.
  induction l as [|x l IH]; intros Hk; simpl; [done|].
  change (JS.sort comparefn (x :: l))
    with (JS.insert comparefn x (JS.sort comparefn l)).
  rewrite insert_filter.
  - rewrite !filter_cons, IH; [done|].
    intros a b Ha Hb Pa Pb.
    apply Hk; [by apply list_elem_of_further..|done|done].
  - intros y Hy Px Py. rewrite elem_of_sort in Hy.
    apply Hk; [apply list_elem_of_here|by apply list_elem_of_further|done..].
Qed.

End SortFacts.

(** ** The comparator of the listings *)

Lemma priorityOrder_inj p q r :
  priorityOrder p = Some r → priorityOrder q = Some r → p = q.
Proof.
  unfold priorityOrder, JS.NaN.
  repeat match goal with
         | |- context [String.eqb ?a ?b] => destruct (String.eqb_spec a b)
         end; congruence.
Qed.

Section ListingFacts.
Context {A : Type} (Date : string → JS.number).
Context (priority : A → string) (due_date : A → option string).

Abbreviation comparefn := (by_priority_and_due_date Date priority due_date).
Abbreviation ranked := (λ x, is_Some (priorityOrder (priority x))).
Abbreviation dated :=
  (λ x, has_due_date due_date x ∧ is_Some (Date_of Date (due_date x))).

Lemma rank_inj a b :
  ranked a → ranked b → rank priority a = rank priority b →
  priority a = priority b.
Proof.
  unfold rank. intros [ra Ha] [rb Hb]. rewrite Ha, Hb. simpl. intros ->.
  by apply (priorityOrder_inj _ _ rb).
Qed.

Lemma keeps_by_rank a b :
  ranked a → ranked b → JS.keeps comparefn a b → by_rank priority a b.
Proof.
  unfold JS.keeps, by_rank, rank, by_priority_and_due_date.
  intros [ra Ha] [rb Hb].
  destruct (String.eqb_spec (priority a) (priority b)) as [->|Hne]; simpl.
  - lia.
  - rewrite Ha, Hb. simpl. lia.
Qed.

Lemma not_keeps_by_rank a b :
  ranked a → ranked b → ¬ JS.keeps comparefn a b → by_rank priority b a.
Proof.
  unfold JS.keeps, by_rank, rank, by_priority_and_due_date.
  intros [ra Ha] [rb Hb].
  destruct (String.eqb_spec (priority a) (priority b)) as [->|Hne]; simpl.
  - lia.
  - rewrite Ha, Hb. simpl. lia.
Qed.

Lemma keeps_undated a b :
  priority a = priority b → ¬ has_due_date due_date a → JS.keeps comparefn a b.
Proof.
  unfold JS.keeps, by_priority_and_due_date, has_due_date. intros -> Hd.
  rewrite String.eqb_refl. simpl.
  by destruct (JS.truthy (due_date a)).
Qed.

Lemma comparefn_dated a b :
  priority a = priority b → dated a → dated b →
  comparefn a b = JS.sub (Date_of Date (due_date a)) (Date_of Date (due_date b)).
Proof.
  unfold by_priority_and_due_date, has_due_date. intros -> [Ha _] [Hb _].
  rewrite String.eqb_refl, Ha, Hb. done.
Qed.

Lemma keeps_by_rank_then_date a b :
  ranked a → ranked b → dated a → dated b →
  JS.keeps comparefn a b → by_rank_then_date Date priority due_date a b.
Proof.
  intros Ra Rb Da Db Hk. split; [by apply keeps_by_rank|].
  intros Hp. unfold JS.keeps in Hk. rewrite comparefn_dated in Hk by done.
  destruct Da as [_ [da Ea]], Db as [_ [db Eb]].
  rewrite Ea, Eb in *. simpl in *. lia.
Qed.

Lemma not_keeps_by_rank_then_date a b :
  ranked a → ranked b → dated a → dated b →
  ¬ JS.keeps comparefn a b → by_rank_then_date Date priority due_date b a.
Proof.
  intros Ra Rb Da Db Hk. split; [by apply not_keeps_by_rank|].
  intros Hp. unfold JS.keeps in Hk. rewrite comparefn_dated in Hk by done.
  destruct Da as [_ [da Ea]], Db as [_ [db Eb]].
  rewrite Ea, Eb in *. simpl in *. lia.
Qed.

Lemma by_rank_then_date_trans a b c :
  ranked a → ranked b → ranked c →
  by_rank_then_date Date priority due_date a b →
  by_rank_then_date Date priority due_date b c →
  by_rank_then_date Date priority due_date a c.
Proof.
  intros Ra Rb Rc [Hab Dab] [Hbc Dbc]. split; [lia|].
  intros Hac.
  assert (priority a = priority b) as Eab.
  { apply rank_inj; [done..|]. unfold rank in *. rewrite Hac in *. lia. }
  specialize (Dab Eab). rewrite <- Eab in Dbc. specialize (Dbc Hac). lia.
Qed.

Lemma sort_listing_order l :
  listing_order Date priority due_date l (JS.sort comparefn l).
Proof.
  repeat split.
  - apply sort_perm.
  - intros Hr. apply (sort_sorted comparefn _ ranked).
    + unfold by_rank. intros. lia.
    + apply keeps_by_rank.
    + apply not_keeps_by_rank.
    + by apply Forall_forall.
  - intros Hd p. apply sort_filter.
    intros x y Hx Hy Px Py. apply keeps_undated; [congruence|by apply Hd].
  - apply (sort_sorted comparefn _ (λ x, ranked x ∧ dated x)).
    + intros a b c [] [] []. by apply by_rank_then_date_trans.
    + intros a b [] []. by apply keeps_by_rank_then_date.
    + intros a b [] []. by apply not_keeps_by_rank_then_date.
    + apply Forall_forall. auto.
  - intros p d. apply sort_filter.
    intros x y Hx Hy [Px Dx] [Py Dy]. unfold JS.keeps.
    rewrite comparefn_dated; [|congruence|by auto..].
    rewrite Dx, Dy. simpl. rewrite Z.sub_diag. done.
Qed.

End ListingFacts.

(** ** Looking up by id *)

Lemma find_by_id_None {A : Type} (key : A → string) (v : option string)
    (l : list A) :
  (∀ x, x ∈ l → Some (key x) ≠ v) →
  (v ≫= λ id, list_find (λ x, key x = id) l) = None.
Proof.
  intros Hno. destruct v as [id|]; simpl; [|done].
  apply list_find_None, Forall_forall. intros x Hx Hk.
  apply (Hno x Hx). by rewrite Hk.
Qed.

Lemma find_by_id_Some {A : Type} (key : A → string) (id : string)
    (l : list A) i x :
  list_find (λ x, key x = id) l = Some (i, x) →
  l !! i = Some x ∧ key x = id ∧ x ∈ l.
Proof.
  intros [Hi [Hk _]]%list_find_Some. repeat split; [done..|].
  by eapply list_elem_of_lookup_2.
Qed.

(** The persistence hooks have no binding where the handlers look
    them up. *)
Lemma save_then_unbound f k :
  f ∉ module_scope → save_then f k = throw (JS.ReferenceError f).
Proof.
  intros Hf. unfold save_then, call_if_defined.
  by rewrite bool_decide_eq_false_2.
Qed.

Lemma saveTasks_unbound k :
  save_then "saveTasks" k = throw (JS.ReferenceError "saveTasks").
Proof. reflexivity. Qed.

Lemma saveProjects_unbound k :
  save_then "saveProjects" k = throw (JS.ReferenceError "saveProjects").
Proof. reflexivity. Qed.

Lemma throw_not_ValidationError e : ¬ ValidationError (throw e).
Proof. intros [msg H]. discriminate H. Qed.

Lemma throw_not_succeeds e : ¬ succeeds (throw e).
Proof. intros [b H]. discriminate H. Qed.

(** ** [on_parent] changes one task and no length *)

Lemma length_on_parent v f ts : length (on_parent v f ts) = length ts.
Proof.
  unfold on_parent. destruct (JS.truthy v); [|done].
  destruct (list_find _ ts) as [[i parent]|]; [|done].
  apply length_insert.
Qed.

Lemma lookup_on_parent v f ts j t :
  ts !! j = Some t →
  on_parent v f ts !! j = Some t ∨ on_parent v f ts !! j = Some (f t).
Proof.
  intros Hj. unfold on_parent. destruct (JS.truthy v); [|by left].
  destruct (list_find _ ts) as [[i parent]|] eqn:E; [|by left].
  apply list_find_Some in E as [Hi _].
  destruct (decide (i = j)) as [->|Hne].
  - right. rewrite list_lookup_insert_eq by (by eapply lookup_lt_Some).
    congruence.
  - left. by rewrite list_lookup_insert_ne.
Qed.

(** ** create_task and create_project *)

(** C1: create_task with a project_id that is the id of no existing
    project answers NotFoundError (404) and leaves the store, and so the
    task collection, as it was: nothing is appended. *)
Theorem create_task_unknown_project uuid created updated args st :
  (∀ p, p ∈ projects st → Some (p_id p) ≠ arg_project_id args) →
  NotFoundError (snd (handleCreateTask uuid created updated args st)) ∧
  fst (handleCreateTask uuid created updated args st) = st ∧
  tasks (fst (handleCreateTask uuid created updated args st)) = tasks st.
Proof.
  intros Hno. unfold handleCreateTask.
  destruct (arg_project_id args) as [pid|] eqn:Epid.
  - destruct (list_find _ (projects st)) as [[i p]|] eqn:E.
    + apply find_by_id_Some in E as (_ & Hid & Hin).
      destruct (Hno p Hin). by rewrite Hid.
    + simpl. repeat split. by eexists.
  - simpl. repeat split. by eexists.
Qed.

Lemma create_task_unknown_project_witness :
  let args := with_title "Write copy" (with_project_id "p9" no_args) in
  (∀ p, p ∈ projects sample_store → Some (p_id p) ≠ arg_project_id args) ∧
  NotFoundError (snd (handleCreateTask "t5" 3000 3000 args sample_store)) ∧
  fst (handleCreateTask "t5" 3000 3000 args sample_store) = sample_store ∧
  tasks (fst (handleCreateTask "t5" 3000 3000 args sample_store))
  = tasks sample_store.
Proof.
  intros args.
  assert (∀ p, p ∈ projects sample_store → Some (p_id p) ≠ arg_project_id args)
    as H.
  { apply Forall_forall. repeat constructor; discriminate. }
  split; [exact H|].
  exact (create_task_unknown_project "t5" 3000 3000 args sample_store H).
Defined.




(** ** update_task and update_project *)

Ltac kept_field :=
  let H := fresh "H" in
  intros H; rewrite !not_elem_of_app in H; destruct_and!;
  unfold JS.assign_if_defined;
  match goal with
  | |- context [match ?v with _ => _ end] => destruct v
  end; simpl in *; [|done];
  match goal with
  | H : _ ∉ [_] |- _ => destruct H; apply list_elem_of_here
  end.

Lemma update_task_fields_frame now args task :
  same_task_fields (task_fields_of args) task
                   (update_task_fields now args task) ∧
  t_updated_at (update_task_fields now args task) = now.
Proof.
  unfold same_task_fields, task_fields_of. simpl.
  repeat split; try done; kept_field.
Qed.

Lemma update_project_fields_frame now args project :
  same_project_fields (project_fields_of args) project
                      (update_project_fields now args project) ∧
  p_updated_at (update_project_fields now args project) = now.
Proof.
  unfold same_project_fields, project_fields_of. simpl.
  repeat split; try done; kept_field.
Qed.

(** C5: update_task (update_project) on an existing task (project)
    changes that record only, and in it every field that is not present
    in the request keeps its previous value while updated_at becomes the
    current time; with an empty partial every field but updated_at is
    as before. *)
Theorem update_keeps_absent_fields now args st :
  (∀ id i task,
     arg_id args = Some id →
     list_find (λ t, t_id t = id) (tasks st) = Some (i, task) →
     let st' := fst (handleUpdateTask now args st) in
     ∃ task',
       tasks st' !! i = Some task' ∧
       same_task_fields (task_fields_of args) task task' ∧
       (task_fields_of args = [] → same_task_fields [] task task') ∧
       t_updated_at task' = now ∧
       length (tasks st') = length (tasks st) ∧
       (∀ j, j ≠ i → tasks st' !! j = tasks st !! j) ∧
       projects st' = projects st) ∧
  (∀ id i project,
     arg_id args = Some id →
     list_find (λ p, p_id p = id) (projects st) = Some (i, project) →
     let st' := fst (handleUpdateProject now args st) in
     ∃ project',
       projects st' !! i = Some project' ∧
       same_project_fields (project_fields_of args) project project' ∧
       (project_fields_of args = [] → same_project_fields [] project project') ∧
       p_updated_at project' = now ∧
       length (projects st') = length (projects st) ∧
       (∀ j, j ≠ i → projects st' !! j = projects st !! j) ∧
       tasks st' = tasks st).
Proof.
  split.
  - intros id i task Hid Hfind. unfold handleUpdateTask.
    rewrite Hid. simpl. rewrite Hfind. simpl.
    apply find_by_id_Some in Hfind as (Hi & _ & _).
    exists (update_task_fields now args task).
    destruct (update_task_fields_frame now args task) as [Hsame Hnow].
    split_and!; try done.
    + apply list_lookup_insert_eq. by eapply lookup_lt_Some.
    + intros E. by rewrite <- E.
    + apply length_insert.
    + intros j Hj. by apply list_lookup_insert_ne.
  - intros id i project Hid Hfind. unfold handleUpdateProject.
    rewrite Hid. simpl. rewrite Hfind. simpl.
    apply find_by_id_Some in Hfind as (Hi & _ & _).
    exists (update_project_fields now args project).
    destruct (update_project_fields_frame now args project) as [Hsame Hnow].
    split_and!; try done.
    + apply list_lookup_insert_eq. by eapply lookup_lt_Some.
    + intros E. by rewrite <- E.
    + apply length_insert.
    + intros j Hj. by apply list_lookup_insert_ne.
Qed.

Lemma update_keeps_absent_fields_witness :
  let args := with_title "Write copy" (with_id "t2" no_args) in
  let t2 := sample_task "t2" "p1" "todo" "low" (Some "t1") [] 2003 in
  let args' := with_name "Launch" (with_id "p2" no_args) in
  let p2 := sample_project "p2" "high" (Some "2024-03-01") in
  (arg_id args = Some "t2" ∧
   list_find (λ t, t_id t = "t2") (tasks sample_store) = Some (1, t2) ∧
   let st' := fst (handleUpdateTask 5000 args sample_store) in
   ∃ task',
     tasks st' !! 1 = Some task' ∧
     same_task_fields (task_fields_of args) t2 task' ∧
     (task_fields_of args = [] → same_task_fields [] t2 task') ∧
     t_updated_at task' = 5000%Z ∧
     length (tasks st') = length (tasks sample_store) ∧
     (∀ j, j ≠ 1 → tasks st' !! j = tasks sample_store !! j) ∧
     projects st' = projects sample_store) ∧
  (arg_id args' = Some "p2" ∧
   list_find (λ p, p_id p = "p2") (projects sample_store) = Some (1, p2) ∧
   let st' := fst (handleUpdateProject 5000 args' sample_store) in
   ∃ project',
     projects st' !! 1 = Some project' ∧
     same_project_fields (project_fields_of args') p2 project' ∧
     (project_fields_of args' = [] → same_project_fields [] p2 project') ∧
     p_updated_at project' = 5000%Z ∧
     length (projects st') = length (projects sample_store) ∧
     (∀ j, j ≠ 1 → projects st' !! j = projects sample_store !! j) ∧
     tasks st' = tasks sample_store).
Proof.
  intros args t2 args' p2. split.
  - split; [reflexivity|]. split; [reflexivity|].
    exact (proj1 (update_keeps_absent_fields 5000 args sample_store)
                 "t2" 1 t2 eq_refl eq_refl).
  - split; [reflexivity|]. split; [reflexivity|].
    exact (proj2 (update_keeps_absent_fields 5000 args' sample_store)
                 "p2" 1 p2 eq_refl eq_refl).
Defined.

(** ** move_task *)

(** C7: move_task with a task_id or a new_project_id that does not
    resolve answers NotFoundError (404) and leaves the whole store as it
    was; when both resolve, the task gets the new project's id and name
    and the current time as updated_at, its other fields, the other
    tasks and the projects stay as they were. *)
Theorem move_task_all_or_nothing now args st :
  ((∀ t, t ∈ tasks st → Some (t_id t) ≠ arg_task_id args) ∨
   (∀ p, p ∈ projects st → Some (p_id p) ≠ arg_new_project_id args) →
   NotFoundError (snd (handleMoveTask now args st)) ∧
   fst (handleMoveTask now args st) = st) ∧
  (∀ tid pid i task j newProject,
     arg_task_id args = Some tid →
     list_find (λ t, t_id t = tid) (tasks st) = Some (i, task) →
     arg_new_project_id args = Some pid →
     list_find (λ p, p_id p = pid) (projects st) = Some (j, newProject) →
     let st' := fst (handleMoveTask now args st) in
     ∃ task',
       tasks st' !! i = Some task' ∧
       t_project_id task' = pid ∧
       t_project_name task' = p_name newProject ∧
       t_updated_at task' = now ∧
       same_task_fields ["project_id"; "project_name"] task task' ∧
       length (tasks st') = length (tasks st) ∧
       (∀ k, k ≠ i → tasks st' !! k = tasks st !! k) ∧
       projects st' = projects st).
Proof.
  split.
  - intros Hno. unfold handleMoveTask.
    destruct (arg_task_id args ≫= _) as [[i task]|] eqn:Et.
    + destruct Hno as [Hno|Hno].
      { by rewrite (find_by_id_None t_id _ _ Hno) in Et. }
      destruct (arg_new_project_id args) as [pid|] eqn:Ep.
      * destruct (list_find _ (projects st)) as [[j p]|] eqn:E.
        -- apply find_by_id_Some in E as (_ & Hid & Hin).
           destruct (Hno p Hin). by rewrite Hid.
        -- simpl. split; [by eexists|done].
      * simpl. split; [by eexists|done].
    + simpl. split; [by eexists|done].
  - intros tid pid i task j newProject Htid Ht Hpid Hp.
    unfold handleMoveTask. rewrite Htid. simpl. rewrite Ht, Hpid, Hp. simpl.
    apply find_by_id_Some in Ht as (Hi & _ & _).
    exists (move_to now pid newProject task).
    split_and!; try done.
    + apply list_lookup_insert_eq. by eapply lookup_lt_Some.
    + unfold same_task_fields. simpl. split_and!; try done.
      * intros H. destruct H. apply list_elem_of_here.
      * intros H. destruct H. apply list_elem_of_further, list_elem_of_here.
    + apply length_insert.
    + intros k Hk. by apply list_lookup_insert_ne.
Qed.

Lemma move_task_all_or_nothing_witness :
  let move (task_id new_project_id : string) :=
    {| arg_id := None; arg_name := None; arg_title := None;
       arg_description := None; arg_status := None; arg_priority := None;
       arg_due_date := None; arg_assignee := None; arg_tags := None;
       arg_project_id := None; arg_parent_task_id := None;
       arg_task_id := Some task_id;
       arg_new_project_id := Some new_project_id;
       arg_delete_tasks := None |} in
  let t2 := sample_task "t2" "p1" "todo" "low" (Some "t1") [] 2003 in
  let p2 := sample_project "p2" "high" (Some "2024-03-01") in
  (((∀ t, t ∈ tasks sample_store
          → Some (t_id t) ≠ arg_task_id (move "t2" "p9")) ∨
    (∀ p, p ∈ projects sample_store
          → Some (p_id p) ≠ arg_new_project_id (move "t2" "p9"))) ∧
   NotFoundError (snd (handleMoveTask 5000 (move "t2" "p9") sample_store)) ∧
   fst (handleMoveTask 5000 (move "t2" "p9") sample_store) = sample_store) ∧
  (list_find (λ t, t_id t = "t2") (tasks sample_store) = Some (1, t2) ∧
   list_find (λ p, p_id p = "p2") (projects sample_store) = Some (1, p2) ∧
   let st' := fst (handleMoveTask 5000 (move "t2" "p2") sample_store) in
   ∃ task',
     tasks st' !! 1 = Some task' ∧
     t_project_id task' = "p2" ∧
     t_project_name task' = p_name p2 ∧
     t_updated_at task' = 5000%Z ∧
     same_task_fields ["project_id"; "project_name"] t2 task' ∧
     length (tasks st') = length (tasks sample_store) ∧
     (∀ k, k ≠ 1 → tasks st' !! k = tasks sample_store !! k) ∧
     projects st' = projects sample_store).
Proof.
  intros move t2 p2. split.
  - assert (∀ p, p ∈ projects sample_store
                 → Some (p_id p) ≠ arg_new_project_id (move "t2" "p9")) as H.
    { apply Forall_forall. repeat constructor; discriminate. }
    split; [by right|].
    exact (proj1 (move_task_all_or_nothing 5000 (move "t2" "p9") sample_store)
                 (or_intror H)).
  - split; [reflexivity|]. split; [reflexivity|].
    exact (proj2 (move_task_all_or_nothing 5000 (move "t2" "p2") sample_store)
                 "t2" "p2" 1 t2 1 p2 eq_refl eq_refl eq_refl eq_refl).
Defined.

(** ** update_project and the cached project name *)

(** C9: update_project leaves every task record as it was, its cached
    project_name included, so the tasks of a renamed project still
    store the old name; update_task does not write project_name either;
    list_tasks shows, for every task it returns, the name of the live
    project looked up at read time (or the placeholder). *)
Theorem update_project_keeps_tasks now args st :
  tasks (fst (handleUpdateProject now args st)) = tasks st ∧
  (∀ now' args',
     t_project_name <$> tasks (fst (handleUpdateTask now' args' st))
     = t_project_name <$> tasks st) ∧
  (∀ Date args', ∃ out,
     snd (handleListTasks Date args' st)
     = respond 200 (BTasks out (length out)) ∧
     ∀ t', t' ∈ out →
       ∃ t, t ∈ tasks st ∧
            t' = set_project_name
                   match list_find (λ p, p_id p = t_project_id t) (projects st)
                   with
                   | Some (_, project) => p_name project
                   | None => Some "Unknown Project"
                   end t).
Proof.
  split_and!.
  - unfold handleUpdateProject.
    by destruct (arg_id args ≫= _) as [[i project]|].
  - intros now' args'. unfold handleUpdateTask.
    destruct (arg_id args' ≫= _) as [[i task]|] eqn:E; [|done]. simpl.
    destruct (arg_id args') as [id|]; [|done]. simpl in E.
    apply find_by_id_Some in E as (Hi & _ & _).
    rewrite list_fmap_insert. simpl.
    apply list_insert_id. by rewrite list_lookup_fmap, Hi.
  - intros Date args'. eexists. split; [reflexivity|].
    intros t' Ht'. rewrite elem_of_sort in Ht'.
    apply list_elem_of_fmap in Ht' as (t & -> & Ht).
    exists t. split; [|done].
    unfold select_tasks, filter_by in Ht.
    repeat match type of Ht with
           | context [if ?b then _ else _] => destruct b
           end;
      repeat match type of Ht with
             | _ ∈ filter _ _ => apply list_elem_of_filter in Ht as [_ Ht]
             end; done.
Qed.

(** Renaming project p1 of the sample store: its tasks keep the name
    they were created with, and list_tasks shows the new one. *)
Example rename_project_then_list_tasks :
  let rename :=
    {| arg_id := Some "p1"; arg_name := Some "Launch"; arg_title := None;
       arg_description := None; arg_status := None; arg_priority := None;
       arg_due_date := None; arg_assignee := None; arg_tags := None;
       arg_project_id := None; arg_parent_task_id := None;
       arg_task_id := None; arg_new_project_id := None;
       arg_delete_tasks := None |} in
  let st' := fst (handleUpdateProject 5000 rename sample_store) in
  t_project_name <$> tasks st'
  = [Some "Project p1"; Some "Project p1"; Some "Project p2";
     Some "Project p1"] ∧
  ∃ out,
    snd (handleListTasks Date_ymd no_args st')
    = respond 200 (BTasks out 4) ∧
    (t_id <$> out) = ["t4"; "t1"; "t3"; "t2"] ∧
    (t_project_name <$> out)
    = [Some "Launch"; Some "Launch"; Some "Project p2"; Some "Launch"].
Proof. vm_compute. split; [reflexivity|]. eexists. split_and!; reflexivity. Qed.

(** ** The order of the listings *)




(** ** get_project_summary *)

Lemma sort_by_updated_at_desc ts :
  StronglySorted (λ a b, (t_updated_at b ≤ t_updated_at a)%Z)
                 (JS.sort by_updated_at_desc ts).
Proof.
  apply (sort_sorted by_updated_at_desc _ (λ _, True)).
  - intros. lia.
  - unfold JS.keeps, by_updated_at_desc. simpl. intros. lia.
  - unfold JS.keeps, by_updated_at_desc. simpl. intros. lia.
  - by apply Forall_forall.
Qed.

(** The percentage on small counts, in binary64 arithmetic: 29 of 200
    is 14.499999999999998 before rounding. *)
Example completion_percentage_examples :
  completion_percentage 0 0 = Some 0%Z ∧
  completion_percentage 1 1 = Some 100%Z ∧
  completion_percentage 1 3 = Some 33%Z ∧
  completion_percentage 2 3 = Some 67%Z ∧
  completion_percentage 1 8 = Some 13%Z ∧
  completion_percentage 0 4 = Some 0%Z ∧
  completion_percentage 29 200 = Some 14%Z.
Proof. vm_compute. by split_and!. Qed.

(** For a project of up to 200 tasks the percentage is an integer
    nearest to the exact quotient. *)
Lemma completion_percentage_nearest (done total : nat) :
  (done ≤ total)%nat → (0 < total ≤ 200)%nat →
  ∃ p, completion_percentage done total = Some p ∧
       nearest_percent done total p.
Proof.
  intros Hd Ht.
  assert (forallb (λ total : nat,
            forallb (λ done : nat,
              match completion_percentage done total with
              | Some p => bool_decide (nearest_percent done total p)
              | None => false
              end)
              (seq 0 (S total)))
            (seq 1 200) = true) as Hall.
  { vm_compute. reflexivity. }
  rewrite forallb_forall in Hall.
  specialize (Hall total ltac:(apply in_seq; lia)).
  rewrite forallb_forall in Hall.
  specialize (Hall done ltac:(apply in_seq; lia)).
  destruct (completion_percentage done total) as [p|]; [|done].
  exists p. split; [done|]. by apply bool_decide_eq_true in Hall.
Qed.



(** ** Subtasks *)

(** C3 at a sequence of calls from the empty store: a task of project
    p1 gets a subtask in project p2, and [subtasks] mirrors
    [parent_task_id]; deleting p2 with its tasks removes the subtask and
    leaves its id in the [subtasks] of the parent, which no longer is
    the set of ids of existing children. *)
Theorem cascade_delete_leaves_stale_subtask :
  subtasks_consistent (run Date_ymd subtask_across_projects empty_store) ∧
  (t_id <$> tasks (run Date_ymd cascade_over_subtask empty_store) = ["t1"] ∧
   t_subtasks <$> tasks (run Date_ymd cascade_over_subtask empty_store)
   = [["t2"]]) ∧
  ¬ subtasks_consistent (run Date_ymd cascade_over_subtask empty_store).
Proof.
  split_and!.
  - remember (run Date_ymd subtask_across_projects empty_store) as st eqn:E.
    vm_compute in E. subst st.
    intros T HT id. unfold tasks in HT.
    apply elem_of_cons in HT as [->|HT%list_elem_of_singleton]; simpl.
    + split.
      * intros ->%list_elem_of_singleton.
        eexists. split; [apply list_elem_of_further, list_elem_of_here|done].
      * intros (c & Hc & <- & Hp).
        apply elem_of_cons in Hc as [->|Hc%list_elem_of_singleton].
        -- discriminate Hp.
        -- subst c. apply list_elem_of_here.
    + subst T. simpl. split.
      * intros Hid. by apply elem_of_nil in Hid.
      * intros (c & Hc & <- & Hp).
        apply elem_of_cons in Hc as [->|Hc%list_elem_of_singleton].
        -- discriminate Hp.
        -- subst c. discriminate Hp.
  - reflexivity.
  - reflexivity.
  - remember (run Date_ymd cascade_over_subtask empty_store) as st eqn:E.
    vm_compute in E. subst st. intros H.
    destruct (H _ (list_elem_of_here _ _) "t2") as [H1 _].
    destruct H1 as (c & Hc & Hid & _); [apply list_elem_of_here|].
    apply list_elem_of_singleton in Hc as ->. discriminate Hid.
Qed.

(** ** delete_project *)

Lemma filter_none {A : Type} (P : A → Prop) `{!∀ x, Decision (P x)} l :
  (∀ x, x ∈ l → ¬ P x) → filter P l = [].
Proof.
  induction l as [|x l IH]; intros Hno; [done|].
  rewrite filter_cons_False by (apply Hno, list_elem_of_here).
  apply IH. intros y Hy. by apply Hno, list_elem_of_further.
Qed.

(** What delete_project does to the store when the project exists and
    the tasks are to go with it, and what list_tasks finds afterwards. *)
Lemma delete_project_cascade_store Date args st id i project :
  arg_id args = Some id →
  list_find (λ p, p_id p = id) (projects st) = Some (i, project) →
  JS.truthy_bool (arg_delete_tasks args) = true →
  let st' := fst (handleDeleteProject args st) in
  projects st' = delete i (projects st) ∧
  tasks st' = filter (λ t, t_project_id t ≠ id) (tasks st) ∧
  (id ≠ "" →
   snd (handleListTasks Date (with_project_id id no_args) st')
   = respond 200 (BTasks [] 0)).
Proof.
  intros Hid Hfind Hcascade. unfold handleDeleteProject.
  rewrite Hid. simpl. rewrite Hfind, Hcascade. simpl.
  assert (filter (λ t, Some (t_project_id t) ≠ Some id) (tasks st)
          = filter (λ t, t_project_id t ≠ id) (tasks st)) as ->.
  { apply list_filter_iff. intros t. split; congruence. }
  split_and!; [done..|].
  intros Hne. unfold handleListTasks, select_tasks, filter_by. simpl.
  destruct (String.eqb_spec id "") as [|_]; [done|]. simpl.
  rewrite filter_none; [done|].
  intros t [Ht _]%list_elem_of_filter. congruence.
Qed.

Lemma delete_project_unknown args st :
  (∀ p, p ∈ projects st → Some (p_id p) ≠ arg_id args) →
  NotFoundError (snd (handleDeleteProject args st)) ∧
  fst (handleDeleteProject args st) = st.
Proof.
  intros Hno. unfold handleDeleteProject.
  rewrite (find_by_id_None p_id _ _ Hno). simpl. split; [by eexists|done].
Qed.

(** When the tasks go with the project, the handler is left by the
    exception of line 351 and never reaches [res.json] of line 353. *)
Lemma delete_project_cascade_outcome args st id i project :
  arg_id args = Some id →
  list_find (λ p, p_id p = id) (projects st) = Some (i, project) →
  JS.truthy_bool (arg_delete_tasks args) = true →
  snd (handleDeleteProject args st) = throw (JS.ReferenceError "saveTasks").
Proof.
  intros Hid Hfind Hcascade. unfold handleDeleteProject.
  rewrite Hid. simpl. by rewrite Hfind, Hcascade.
Qed.

(** C6 on the sample store: delete_project of p1 with its tasks removes
    p1 and its three tasks and keeps p2 and its task, but raises
    ReferenceError at [if (saveTasks)] before any response is written:
    the number of removed tasks is not reported. *)
Theorem delete_project_cascade_reports_nothing :
  let args := with_delete_tasks true (with_id "p1" no_args) in
  let r := handleDeleteProject args sample_store in
  fst r = {| projects := [sample_project "p2" "high" (Some "2024-03-01")];
             tasks := [sample_task "t3" "p2" "todo" "medium" None [] 2002] |} ∧
  snd r = throw (JS.ReferenceError "saveTasks") ∧
  sent (snd r) = None ∧
  ¬ succeeds (snd r).
Proof.
  intros args r. split_and!; [reflexivity..|].
  apply throw_not_succeeds.
Qed.

(** ** update_task stores what it is given *)

Lemma update_task_stores_verbatim now args st id i task s :
  arg_id args = Some id →
  list_find (λ t, t_id t = id) (tasks st) = Some (i, task) →
  arg_status args = Some s → arg_priority args = Some s →
  let r := handleUpdateTask now args st in
  (∃ task', tasks (fst r) !! i = Some task' ∧
            t_status task' = s ∧ t_priority task' = s) ∧
  snd r = throw (JS.ReferenceError "saveTasks").
Proof.
  intros Hid Hfind Hs Hp. unfold handleUpdateTask.
  rewrite Hid. simpl. rewrite Hfind. simpl.
  apply find_by_id_Some in Hfind as (Hi & _ & _).
  split; [|done]. eexists. split.
  - apply list_lookup_insert_eq. by eapply lookup_lt_Some.
  - simpl. by rewrite Hs, Hp.
Qed.

(** C10 on the sample store: update_task of t2 with a status and a
    priority outside the enumerations stores both as given, but raises
    ReferenceError at [if (saveTasks)] before any response is written:
    the call does not succeed. *)
Theorem update_task_stores_then_raises :
  let args := with_status_priority "archived" "archived"
                (with_id "t2" no_args) in
  let r := handleUpdateTask 5000 args sample_store in
  tasks (fst r) !! 1
  = Some {| t_id := "t2"; t_title := Some "Task t2"; t_description := "";
            t_project_id := "p1"; t_project_name := Some "Project p1";
            t_status := "archived"; t_priority := "archived";
            t_due_date := None; t_assignee := None; t_tags := [];
            t_parent_task_id := Some "t1"; t_created_at := 2000;
            t_updated_at := 5000; t_subtasks := [] |} ∧
  snd r = throw (JS.ReferenceError "saveTasks") ∧
  sent (snd r) = None ∧
  ¬ succeeds (snd r).
Proof.
  intros args r. split_and!; [reflexivity..|].
  apply throw_not_succeeds.
Qed.

(** ** The subtasks invariant without cascade *)

Lemma insert_found_fmap {A : Type} (P : A → Prop) `{!∀ x, Decision (P x)}
    (f : A → A) (l : list A) i x :
  l !! i = Some x → P x →
  (∀ j y, l !! j = Some y → P y → j = i) →
  <[i := f x]> l = (λ y, if decide (P y) then f y else y) <$> l.
Proof.
  intros Hi Px Huniq. apply list_eq. intros j.
  rewrite list_lookup_fmap. destruct (decide (i = j)) as [<-|Hne].
  - rewrite list_lookup_insert_eq by (by eapply lookup_lt_Some).
    rewrite Hi. simpl. by rewrite decide_True.
  - rewrite list_lookup_insert_ne by done.
    destruct (l !! j) as [y|] eqn:E; simpl; [|done].
    rewrite decide_False; [done|]. intros Py. by destruct Hne; symmetry; eauto.
Qed.

Lemma same_id_same_index (ts : list Task) i j x y :
  NoDup (t_id <$> ts) → ts !! i = Some x → ts !! j = Some y →
  t_id x = t_id y → i = j.
Proof.
  intros Hnd Hi Hj Hid.
  apply (NoDup_lookup _ i j (t_id x) Hnd); rewrite list_lookup_fmap.
  - by rewrite Hi.
  - rewrite Hj. simpl. by rewrite Hid.
Qed.

Lemma same_id_same_task (ts : list Task) x y :
  NoDup (t_id <$> ts) → x ∈ ts → y ∈ ts → t_id x = t_id y → x = y.
Proof.
  intros Hnd [i Hi]%list_elem_of_lookup [j Hj]%list_elem_of_lookup Hid.
  assert (i = j) as -> by (by eapply same_id_same_index). congruence.
Qed.

Lemma on_parent_retarget v f ts :
  NoDup (t_id <$> ts) → on_parent v f ts = retarget v f <$> ts.
Proof.
  intros Hnd. unfold on_parent, retarget. destruct (JS.truthy v).
  - destruct (list_find _ ts) as [[i parent]|] eqn:E.
    + apply list_find_Some in E as (Hi & Hp & _).
      apply insert_found_fmap; [done..|].
      intros j y Hj Hy. eapply same_id_same_index; [done..|]. congruence.
    + apply list_find_None in E. rewrite Forall_forall in E.
      rewrite <- (list_fmap_id ts) at 1. apply list_fmap_ext.
      intros j t Ht. rewrite decide_False; [done|].
      apply E. by eapply list_elem_of_lookup_2.
  - by rewrite list_fmap_id.
Qed.

Lemma or_null_Some v x : JS.or_null v = Some x → v = Some x ∧ JS.truthy v = true.
Proof. unfold JS.or_null. by destruct (JS.truthy v). Qed.

Lemma truthy_Some x : x ≠ "" → JS.truthy (Some x) = true.
Proof. simpl. by destruct (String.eqb_spec x ""). Qed.

Lemma child_fmap (h : Task → Task) (ts : list Task) id pid :
  (∀ x, t_id (h x) = t_id x) →
  (∀ x, t_parent_task_id (h x) = t_parent_task_id x) →
  (∃ c, c ∈ h <$> ts ∧ t_id c = id ∧ t_parent_task_id c = Some pid) ↔
  (∃ c, c ∈ ts ∧ t_id c = id ∧ t_parent_task_id c = Some pid).
Proof.
  intros Hid Hp. split.
  - intros (c & (c0 & -> & Hc0)%list_elem_of_fmap & Hc).
    exists c0. by rewrite <- Hid, <- Hp.
  - intros (c & Hc & Hc'). exists (h c). rewrite Hid, Hp.
    split; [|done]. by apply list_elem_of_fmap_2.
Qed.

Lemma tasks_wf_fmap (h : Task → Task) (ts : list Task) :
  (∀ x, t_id (h x) = t_id x) →
  (∀ x, t_parent_task_id (h x) = t_parent_task_id x) →
  tasks_wf ts → tasks_wf (h <$> ts).
Proof.
  intros Hid Hp [Hnd Hwf]. split.
  - rewrite <- list_fmap_compose.
    by rewrite (list_fmap_ext (t_id ∘ h) t_id ts) by (intros; apply Hid).
  - intros t (t0 & -> & Ht0)%list_elem_of_fmap. rewrite Hp. by apply Hwf.
Qed.

Lemma mirrors_children_fmap (h : Task → Task) (ts : list Task) :
  (∀ x, t_id (h x) = t_id x) →
  (∀ x, t_parent_task_id (h x) = t_parent_task_id x) →
  (∀ x, t_subtasks (h x) = t_subtasks x) →
  mirrors_children ts → mirrors_children (h <$> ts).
Proof.
  intros Hid Hp Hs Hm T (T0 & -> & HT0)%list_elem_of_fmap id.
  rewrite child_fmap, Hid, Hs by done. by apply Hm.
Qed.

(** An assignment through [tasks[i]] that keeps id, parent and
    subtasks keeps the invariant. *)
Lemma invariant_insert (f : Task → Task) (ts : list Task) id i task :
  (∀ x, t_id (f x) = t_id x) →
  (∀ x, t_parent_task_id (f x) = t_parent_task_id x) →
  (∀ x, t_subtasks (f x) = t_subtasks x) →
  list_find (λ t, t_id t = id) ts = Some (i, task) →
  tasks_wf ts ∧ mirrors_children ts →
  tasks_wf (<[i := f task]> ts) ∧ mirrors_children (<[i := f task]> ts).
Proof.
  intros Hid Hp Hs (Hi & Ht & _)%list_find_Some [Hwf Hm].
  rewrite (insert_found_fmap (λ t, t_id t = id)); [|done..|].
  - split.
    + apply tasks_wf_fmap; [..|done]; intros x; by destruct (decide _).
    + apply mirrors_children_fmap; [..|done]; intros x; by destruct (decide _).
  - intros j y Hj Hy. eapply same_id_same_index; [apply Hwf|done..|congruence].
Qed.

Lemma retarget_id v f t :
  (∀ x, t_id (f x) = t_id x) → t_id (retarget v f t) = t_id t.
Proof.
  intros Hf. unfold retarget.
  destruct (JS.truthy v); [|done]. by destruct (decide _).
Qed.

Lemma retarget_parent v f t :
  (∀ x, t_parent_task_id (f x) = t_parent_task_id x) →
  t_parent_task_id (retarget v f t) = t_parent_task_id t.
Proof.
  intros Hf. unfold retarget.
  destruct (JS.truthy v); [|done]. by destruct (decide _).
Qed.

(** [tasks.push(newTask)] followed by the registration with the parent
    (lines 445-453). *)
Lemma invariant_create_task ts uuid v (new : Task) :
  tasks_wf ts ∧ mirrors_children ts →
  (∀ t, t ∈ ts → t_id t ≠ uuid ∧ t_parent_task_id t ≠ Some uuid) →
  v ≠ Some uuid →
  t_id new = uuid → t_parent_task_id new = JS.or_null v →
  t_subtasks new = [] →
  tasks_wf (on_parent v (add_subtask uuid) (ts ++ [new])) ∧
  mirrors_children (on_parent v (add_subtask uuid) (ts ++ [new])).
Proof.
  intros [[Hnd Hwf] Hm] Hfresh Hv Hid Hparent Hsub.
  assert (tasks_wf (ts ++ [new])) as Hwf'.
  { split.
    - rewrite fmap_app. apply NoDup_app. split_and!; [done| |apply NoDup_singleton].
      intros x (t & -> & Ht)%list_elem_of_fmap Hx.
      apply list_elem_of_singleton in Hx.
      destruct (Hfresh t Ht) as [H _]. congruence.
    - intros t [Ht| ->%list_elem_of_singleton]%elem_of_app; [by apply Hwf|].
      rewrite Hparent. intros [-> E]%or_null_Some. discriminate E. }
  rewrite on_parent_retarget by apply Hwf'.
  assert (∀ x, t_id (retarget v (add_subtask uuid) x) = t_id x) as Hrid
    by (by intros; apply retarget_id).
  assert (∀ x, t_parent_task_id (retarget v (add_subtask uuid) x)
               = t_parent_task_id x) as Hrp
    by (by intros; apply retarget_parent).
  split; [by apply tasks_wf_fmap|].
  intros T' (T & -> & HT)%list_elem_of_fmap id.
  rewrite child_fmap, Hrid by done. clear Hrid Hrp.
  apply elem_of_app in HT as [HT| ->%list_elem_of_singleton].
  - specialize (Hm T HT id). unfold retarget.
    destruct (JS.truthy v) eqn:Etr; [destruct (decide _) as [Ev|Ev]|].
    + simpl. rewrite elem_of_app, Hm, list_elem_of_singleton. split.
      * intros [(c & Hc & Hc')| ->].
        -- exists c. split; [|done]. apply elem_of_app. by left.
        -- exists new. split_and!; [|done|].
           ++ apply elem_of_app. right. apply list_elem_of_here.
           ++ rewrite Hparent. unfold JS.or_null. by rewrite Etr.
      * intros (c & [Hc| ->%list_elem_of_singleton]%elem_of_app & Hc').
        -- left. by exists c.
        -- right. by destruct Hc' as [<- _].
    + rewrite Hm. split.
      * intros (c & Hc & Hc'). exists c. split; [|done].
        apply elem_of_app. by left.
      * intros (c & [Hc| ->%list_elem_of_singleton]%elem_of_app & Hc').
        -- by exists c.
        -- destruct Hc' as [_ E]. rewrite Hparent in E.
           apply or_null_Some in E as [E _]. by destruct Ev.
    + rewrite Hm. split.
      * intros (c & Hc & Hc'). exists c. split; [|done].
        apply elem_of_app. by left.
      * intros (c & [Hc| ->%list_elem_of_singleton]%elem_of_app & Hc').
        -- by exists c.
        -- destruct Hc' as [_ E]. rewrite Hparent in E.
           apply or_null_Some in E as [_ E]. congruence.
  - assert (retarget v (add_subtask uuid) new = new) as ->.
    { unfold retarget. destruct (JS.truthy v); [|done].
      rewrite decide_False; [done|]. congruence. }
    rewrite Hsub. split; [by intros ?%elem_of_nil|].
    intros (c & [Hc| ->%list_elem_of_singleton]%elem_of_app & _ & E).
    + destruct (Hfresh c Hc) as [_ H]. by rewrite <- Hid in H.
    + rewrite Hparent in E. apply or_null_Some in E as [E _]. congruence.
Qed.

(** [tasks.splice(taskIndex, 1)] followed by the removal from the
    parent's [subtasks] (lines 504-512). *)
Lemma invariant_delete_task (ts : list Task) i D :
  tasks_wf ts ∧ mirrors_children ts →
  ts !! i = Some D →
  let ts' := on_parent (t_parent_task_id D) (remove_subtask (t_id D))
                       (delete i ts) in
  tasks_wf ts' ∧ mirrors_children ts'.
Proof.
  intros [[Hnd Hwf] Hm] Hi ts'. subst ts'.
  rewrite delete_take_drop.
  pose proof (take_drop_middle ts i D Hi) as Hts.
  set (l1 := take i ts) in *. set (l2 := drop (S i) ts) in *.
  assert (∀ c, c ∈ ts ↔ c ∈ l1 ++ l2 ∨ c = D) as Hin.
  { intros c. rewrite <- Hts, !elem_of_app, elem_of_cons. tauto. }
  assert (∀ c, c ∈ l1 ++ l2 → t_id c ≠ t_id D) as Hother.
  { intros c Hc Hid. rewrite <- Hts, fmap_app, fmap_cons in Hnd.
    apply NoDup_app in Hnd as (_ & Hdisj & [Hnot _]%NoDup_cons).
    apply elem_of_app in Hc as [Hc|Hc].
    - apply (Hdisj (t_id c)); [by apply list_elem_of_fmap_2|].
      rewrite Hid. apply list_elem_of_here.
    - apply Hnot. rewrite <- Hid. by apply list_elem_of_fmap_2. }
  assert (tasks_wf (l1 ++ l2)) as Hwf'.
  { split.
    - eapply sublist_NoDup; [exact Hnd|].
      apply fmap_sublist. rewrite <- Hts.
      apply sublist_app; [done|]. by apply sublist_cons.
    - intros t Ht. apply Hwf, Hin. by left. }
  rewrite on_parent_retarget by apply Hwf'.
  set (v := t_parent_task_id D). set (f := remove_subtask (t_id D)).
  assert (∀ x, t_id (retarget v f x) = t_id x) as Hrid
    by (by intros; apply retarget_id).
  assert (∀ x, t_parent_task_id (retarget v f x) = t_parent_task_id x) as Hrp
    by (by intros; apply retarget_parent).
  split; [by apply tasks_wf_fmap|].
  intros T' (T & -> & HT)%list_elem_of_fmap id.
  rewrite child_fmap, Hrid by done. clear Hrid Hrp.
  assert (T ∈ ts) as HT' by (apply Hin; by left).
  specialize (Hm T HT' id).
  assert (JS.truthy v = true ∧ Some (t_id T) = v ∨
          retarget v f T = T ∧ v ≠ Some (t_id T)) as [[Etr Ev]|[Er Ev]].
  { unfold retarget. destruct (JS.truthy v) eqn:Etr.
    - destruct (decide _) as [Ev|Ev]; [by left|]. right. split; congruence.
    - right. split; [done|]. intros E. rewrite E in Etr.
      rewrite truthy_Some in Etr; [done|].
      intros E'. apply (Hwf D); [apply Hin; by right|].
      fold v. by rewrite E, E'. }
  - unfold retarget. rewrite Etr, decide_True by done. subst f. simpl.
    rewrite list_elem_of_filter, Hm. split.
    + intros (Hne & c & Hc & Hcid & Hcp). exists c. split; [|done].
      apply Hin in Hc as [Hc| ->]; [done|]. by destruct Hne.
    + intros (c & Hc & Hcid & Hcp). split.
      * rewrite <- Hcid. by apply Hother.
      * exists c. split; [|done]. apply Hin. by left.
  - rewrite Er, Hm. split.
    + intros (c & Hc & Hcid & Hcp). exists c. split; [|done].
      apply Hin in Hc as [Hc| ->]; [done|]. by destruct Ev.
    + intros (c & Hc & Hc'). exists c. split; [|done]. apply Hin. by left.
Qed.

(** Every handler but [handleCreateTask], [handleUpdateTask],
    [handleDeleteTask], [handleMoveTask] and the deletion of a project
    with its tasks leaves the tasks as they are. *)
Lemma tasks_untouched Date c st :
  match c with
  | list_projects _ | list_tasks _ | get_project_summary _
  | create_project _ _ _ _ | update_project _ _ => True
  | delete_project args => JS.truthy_bool (arg_delete_tasks args) = false
  | _ => False
  end →
  tasks (fst (dispatch Date c st)) = tasks st.
Proof.
  destruct c; simpl; try done; intros H.
  - unfold handleUpdateProject. by destruct (_ ≫= _) as [[]|].
  - unfold handleDeleteProject. destruct (_ ≫= _) as [[]|]; [|done].
    by rewrite H.
  - unfold handleGetProjectSummary. by destruct (_ ≫= _) as [[]|].
Qed.

(** In every state reached from the empty store without deleting a
    project together with its tasks, the ids of the tasks are distinct
    and [subtasks] mirrors [parent_task_id]. *)
Theorem subtasks_consistent_without_cascade Date st :
  reachable_without_cascade Date st →
  tasks_wf (tasks st) ∧ subtasks_consistent st.
Proof.
  unfold subtasks_consistent.
  induction 1 as [|st c Hreach IH Hc].
  { split; [split|]; simpl.
    - apply NoDup_nil_2.
    - by intros t ?%elem_of_nil.
    - by intros T ?%elem_of_nil. }
  destruct c as [args|uuid created updated args|now args|args|args
                |uuid created updated args|now args|args|now args|args];
    try (by rewrite (tasks_untouched Date _ st)).
  - (* create_task *)
    simpl. unfold handleCreateTask.
    destruct (arg_project_id args) as [pid|]; [|done].
    destruct (list_find _ (projects st)) as [[j project]|]; [|done].
    destruct Hc as [Hfresh Hv]. simpl.
    by apply invariant_create_task.
  - (* update_task *)
    simpl. unfold handleUpdateTask.
    destruct (arg_id args) as [id|]; [|done]. simpl.
    destruct (list_find _ (tasks st)) as [[i task]|] eqn:E; [|done]. simpl.
    by apply (invariant_insert (update_task_fields now args) _ id).
  - (* delete_task *)
    simpl. unfold handleDeleteTask.
    destruct (arg_id args) as [id|]; [|done]. simpl.
    destruct (list_find _ (tasks st)) as [[i task]|] eqn:E; [|done]. simpl.
    apply find_by_id_Some in E as (Hi & _ & _).
    by apply invariant_delete_task.
  - (* move_task *)
    simpl. unfold handleMoveTask.
    destruct (arg_task_id args) as [id|]; [|done]. simpl.
    destruct (list_find _ (tasks st)) as [[i task]|] eqn:E; [|done].
    destruct (arg_new_project_id args) as [pid|]; [|done].
    destruct (list_find _ (projects st)) as [[j project]|]; [|done]. simpl.
    by apply (invariant_insert (move_to now pid project) _ id).
Qed.

(** The calls that build the subtask across two projects are of that
    kind. *)
Example subtask_across_projects_reachable :
  reachable_without_cascade Date_ymd
    (run Date_ymd subtask_across_projects empty_store).
Proof.
  cbv [run subtask_across_projects foldl].
  repeat (apply reachable_call; [|try exact I]).
  - apply reachable_empty.
  - split; [|discriminate]. by intros t ?%elem_of_nil.
  - split; [|discriminate].
    intros t Ht. vm_compute in Ht.
    apply list_elem_of_singleton in Ht as ->. split; discriminate.
Qed.

(** * Further properties of the Express server *)

(** ** [on_parent] *)

Lemma fmap_on_parent {B : Type} (g : Task → B) v f ts :
  (∀ x, g (f x) = g x) → g <$> on_parent v f ts = g <$> ts.
Proof.
  intros Hg. unfold on_parent. destruct (JS.truthy v); [|done].
  destruct (list_find _ ts) as [[i parent]|] eqn:E; [|done].
  apply list_find_Some in E as (Hi & _).
  rewrite list_fmap_insert, Hg. apply list_insert_id.
  by rewrite list_lookup_fmap, Hi.
Qed.

Lemma on_parent_found v p f ts k P :
  v = Some p → p ≠ "" →
  list_find (λ t, t_id t = p) ts = Some (k, P) →
  on_parent v f ts = <[k := f P]> ts.
Proof.
  intros -> Hp Hfind. unfold on_parent. rewrite truthy_Some by done.
  rewrite (list_find_ext _ (λ t, t_id t = p)), Hfind; [done|].
  intros t. split; congruence.
Qed.

Lemma on_parent_not_found v f ts :
  (∀ t, t ∈ ts → Some (t_id t) ≠ v) → on_parent v f ts = ts.
Proof.
  intros Hno. unfold on_parent. destruct (JS.truthy v); [|done].
  destruct (list_find _ ts) as [[i parent]|] eqn:E; [|done].
  apply list_find_Some in E as (Hi & Hp & _).
  destruct (Hno parent); [by eapply list_elem_of_lookup_2|done].
Qed.

(** ** delete_task *)

(** X1: delete_task of an unknown id answers 404 and changes nothing;
    of an existing id it removes the first task with that id, keeps the
    projects, keeps every other task in place and unchanged but for the
    [subtasks] of the parent, and the parent of the deleted task, when
    it is found, no longer lists the deleted id. *)
Theorem delete_task_effect args st :
  ((∀ t, t ∈ tasks st → Some (t_id t) ≠ arg_id args) →
   NotFoundError (snd (handleDeleteTask args st)) ∧
   fst (handleDeleteTask args st) = st) ∧
  (∀ id i D,
     arg_id args = Some id →
     list_find (λ t, t_id t = id) (tasks st) = Some (i, D) →
     let st' := fst (handleDeleteTask args st) in
     let rest := delete i (tasks st) in
     projects st' = projects st ∧
     t_id <$> tasks st' = delete i (t_id <$> tasks st) ∧
     (∀ j t, rest !! j = Some t →
        tasks st' !! j = Some t ∨
        tasks st' !! j = Some (remove_subtask id t)) ∧
     (∀ p k P,
        t_parent_task_id D = Some p → p ≠ "" →
        list_find (λ t, t_id t = p) rest = Some (k, P) →
        (∃ P', tasks st' !! k = Some P' ∧ (id ∉ t_subtasks P') ∧
               ∀ x, x ≠ id → (x ∈ t_subtasks P' ↔ x ∈ t_subtasks P)) ∧
        ∀ j, j ≠ k → tasks st' !! j = rest !! j)).
Proof.
  split.
  - intros Hno. unfold handleDeleteTask.
    rewrite (find_by_id_None t_id _ _ Hno). simpl. split; [by eexists|done].
  - intros id i D Hid Hfind. unfold handleDeleteTask.
    rewrite Hid. simpl. rewrite Hfind. simpl.
    apply find_by_id_Some in Hfind as (Hi & HD & _). rewrite HD.
    split_and!; [done| | |].
    + by rewrite fmap_on_parent, list_fmap_delete.
    + intros j t Hj. by apply lookup_on_parent.
    + intros p k P Hp Hne HP.
      rewrite (on_parent_found _ p _ _ k P) by done.
      apply find_by_id_Some in HP as (Hk & _ & _).
      split.
      * exists (remove_subtask id P). split_and!.
        -- apply list_lookup_insert_eq. by eapply lookup_lt_Some.
        -- simpl. intros [? _]%list_elem_of_filter. done.
        -- intros x Hx. simpl. rewrite list_elem_of_filter. tauto.
      * intros j Hj. by apply list_lookup_insert_ne.
Qed.

Lemma delete_task_effect_witness :
  let args := with_id "t2" no_args in
  let t2 := sample_task "t2" "p1" "todo" "low" (Some "t1") [] 2003 in
  let t1 := sample_task "t1" "p1" "done" "high" None ["t2"] 2001 in
  arg_id args = Some "t2" ∧
  list_find (λ t, t_id t = "t2") (tasks sample_store) = Some (1, t2) ∧
  list_find (λ t, t_id t = "t1") (delete 1 (tasks sample_store))
  = Some (0, t1) ∧
  let st' := fst (handleDeleteTask args sample_store) in
  (∃ P', tasks st' !! 0 = Some P' ∧ ("t2" ∉ t_subtasks P') ∧
         ∀ x, x ≠ "t2" → (x ∈ t_subtasks P' ↔ x ∈ t_subtasks t1)) ∧
  ∀ j, j ≠ 0 → tasks st' !! j = delete 1 (tasks sample_store) !! j.
Proof.
  intros args t2 t1. split_and!; [reflexivity..|].
  destruct (proj2 (delete_task_effect args sample_store) "t2" 1 t2
                  eq_refl eq_refl) as (_ & _ & _ & H).
  exact (H "t1" 0 t1 eq_refl ltac:(discriminate) eq_refl).
Defined.

(** ** delete_project without its tasks *)

Lemma elem_of_delete_other {A : Type} (l : list A) i x y :
  l !! i = Some x → y ∈ l → y ≠ x → y ∈ delete i l.
Proof.
  intros Hi [j Hj]%list_elem_of_lookup Hne.
  assert (j ≠ i) as Hji by (intros ->; congruence).
  apply list_elem_of_lookup.
  destruct (decide (j < i)) as [Hlt|Hge].
  - exists j. by rewrite list_lookup_delete_lt.
  - exists (j - 1). rewrite list_lookup_delete_ge by lia.
    by replace (S (j - 1)) with j by lia.
Qed.

(** X2: delete_project of an existing project without [delete_tasks]
    removes that project and leaves every task as it is; the response
    with the deleted project is written before the persistence hook
    raises.  When no other project has the id, list_tasks afterwards
    shows the tasks of the deleted project under 'Unknown Project'. *)
Theorem delete_project_orphans_tasks Date args st id i project :
  arg_id args = Some id →
  list_find (λ p, p_id p = id) (projects st) = Some (i, project) →
  JS.truthy_bool (arg_delete_tasks args) = false →
  let r := handleDeleteProject args st in
  projects (fst r) = delete i (projects st) ∧
  tasks (fst r) = tasks st ∧
  snd r = {| sent := Some {| status := 200;
                             json := BDeletedProject project None |};
             raised := Some (JS.ReferenceError "saveProjects") |} ∧
  ((∀ q, q ∈ delete i (projects st) → p_id q ≠ id) →
   ∀ args' out n,
     snd (handleListTasks Date args' (fst r)) = respond 200 (BTasks out n) →
     ∀ t, t ∈ out → t_project_id t = id →
          t_project_name t = Some "Unknown Project").
Proof.
  intros Hid Hfind Hkeep. unfold handleDeleteProject.
  rewrite Hid. simpl. rewrite Hfind, Hkeep. simpl.
  split_and!; [done..|].
  intros Hgone args' out n Hout t Ht Hpid.
  unfold handleListTasks in Hout. simpl in Hout.
  injection Hout as <- _.
  rewrite elem_of_sort in Ht.
  apply list_elem_of_fmap in Ht as (t0 & -> & _).
  simpl in Hpid. unfold with_project. simpl.
  destruct (list_find _ (delete i (projects st))) as [[k q]|] eqn:E; [|done].
  apply find_by_id_Some in E as (_ & Hq & Hin).
  destruct (Hgone q Hin). congruence.
Qed.

Lemma delete_project_orphans_tasks_witness :
  let args := with_id "p2" no_args in
  let p2 := sample_project "p2" "high" (Some "2024-03-01") in
  let r := handleDeleteProject args sample_store in
  projects (fst r) = delete 1 (projects sample_store) ∧
  tasks (fst r) = tasks sample_store ∧
  snd r = {| sent := Some {| status := 200;
                             json := BDeletedProject p2 None |};
             raised := Some (JS.ReferenceError "saveProjects") |} ∧
  ((∀ q, q ∈ delete 1 (projects sample_store) → p_id q ≠ "p2") →
   ∀ args' out n,
     snd (handleListTasks Date_ymd args' (fst r))
     = respond 200 (BTasks out n) →
     ∀ t, t ∈ out → t_project_id t = "p2" →
          t_project_name t = Some "Unknown Project").
Proof.
  intros args p2.
  exact (delete_project_orphans_tasks Date_ymd args sample_store "p2" 1 p2
           eq_refl eq_refl eq_refl).
Defined.

(** ** No call that completes changes the store *)

Lemma then_saveProjects_unbound o :
  then_save o "saveProjects"
  = {| sent := sent o; raised := Some (JS.ReferenceError "saveProjects") |}.
Proof. reflexivity. Qed.

Ltac completed_case :=
  simpl; rewrite ?saveTasks_unbound, ?saveProjects_unbound,
                 ?then_saveProjects_unbound; simpl;
  split;
  [ intros H; first [discriminate H | by split; [|eexists]]
  | intros H; first [by destruct H
                    | split; [by auto|]; intros [? H']; first [discriminate H' | by eexists] ] ].

Lemma dispatch_completed Date c st :
  let r := dispatch Date c st in
  (raised (snd r) = None → fst r = st ∧ is_Some (sent (snd r))) ∧
  (fst r ≠ st →
   (raised (snd r) = Some (JS.ReferenceError "saveTasks") ∨
    raised (snd r) = Some (JS.ReferenceError "saveProjects")) ∧
   (is_Some (sent (snd r)) → ∃ args, c = delete_project args)).
Proof.
  destruct c; simpl.
  - completed_case.
  - unfold handleCreateProject. completed_case.
  - unfold handleUpdateProject.
    destruct (_ ≫= _) as [[]|]; completed_case.
  - unfold handleDeleteProject.
    destruct (_ ≫= _) as [[]|]; [|completed_case].
    destruct (JS.truthy_bool _); completed_case.
  - completed_case.
  - unfold handleCreateTask.
    destruct (arg_project_id _); [|completed_case].
    destruct (list_find _ _) as [[]|]; completed_case.
  - unfold handleUpdateTask.
    destruct (_ ≫= _) as [[]|]; completed_case.
  - unfold handleDeleteTask.
    destruct (_ ≫= _) as [[]|]; completed_case.
  - unfold handleMoveTask.
    destruct (_ ≫= _) as [[]|]; [|completed_case].
    destruct (arg_new_project_id _); [|completed_case].
    destruct (list_find _ _) as [[]|]; completed_case.
  - unfold handleGetProjectSummary.
    destruct (_ ≫= _) as [[]|]; completed_case.
Qed.

(** X3: a call through the tool endpoint that ends without an
    exception has left the store as it was; so every call that changes
    the store ends in the ReferenceError of a persistence hook, and only
    delete_project without [delete_tasks] has written its response by
    then.  An unknown tool name answers 404. *)
Theorem completed_calls_change_nothing Date toolName env body st :
  let r := post_tools Date toolName env body st in
  (raised (snd r) = None → fst r = st ∧ is_Some (sent (snd r))) ∧
  (fst r ≠ st →
   (raised (snd r) = Some (JS.ReferenceError "saveTasks") ∨
    raised (snd r) = Some (JS.ReferenceError "saveProjects")) ∧
   (is_Some (sent (snd r)) →
    toolName = "delete_project" ∧
    JS.truthy_bool (arg_delete_tasks (args_of body)) = false)) ∧
  (tool_call toolName env (args_of body) = None →
   r = (st, respond 404 (BError ("Unknown tool: " ++ toolName)%string))).
Proof.
  intros r. subst r. unfold post_tools.
  destruct (tool_call toolName env (args_of body)) as [c|] eqn:Ec.
  - destruct (dispatch_completed Date c st) as [H1 H2].
    split_and!; [done| |done].
    intros Hne. destruct (H2 Hne) as [Hr Hs]. split; [done|].
    intros Hsent. destruct (Hs Hsent) as [args ->].
    unfold tool_call in Ec.
    repeat match type of Ec with
           | context [String.eqb toolName ?s] =>
               destruct (String.eqb_spec toolName s) as [->|?];
               [try discriminate Ec|]
           end; [|discriminate Ec].
    injection Ec as <-. split; [done|].
    simpl in *. unfold handleDeleteProject in *.
    destruct (_ ≫= _) as [[]|]; [|by destruct Hne].
    destruct (JS.truthy_bool _); [|done].
    simpl in Hsent. by destruct Hsent.
  - simpl. split_and!; [by eauto|done|done].
Qed.

Lemma completed_calls_change_nothing_witness :
  let env := {| env_uuid := "t5"; env_now := 5000; env_now' := 5000 |} in
  let body := {| body_arguments := Some (with_id "t2" no_args);
                 body_self := no_args |} in
  let r := post_tools Date_ymd "delete_task" env body sample_store in
  fst r ≠ sample_store ∧
  (raised (snd r) = Some (JS.ReferenceError "saveTasks") ∨
   raised (snd r) = Some (JS.ReferenceError "saveProjects")) ∧
  (is_Some (sent (snd r)) →
   "delete_task" = "delete_project" ∧
   JS.truthy_bool (arg_delete_tasks (args_of body)) = false).
Proof.
  intros env body r.
  assert (fst r ≠ sample_store) as H by (vm_compute; discriminate).
  split; [exact H|].
  exact (proj1 (proj2 (completed_calls_change_nothing
                         Date_ymd "delete_task" env body sample_store)) H).
Defined.

(** ** Ids stay distinct *)

Lemma fmap_insert_same {A B : Type} (g : A → B) (l : list A) i x y :
  l !! i = Some x → g y = g x → g <$> <[i := y]> l = g <$> l.
Proof.
  intros Hi Hg. rewrite list_fmap_insert, Hg.
  apply list_insert_id. by rewrite list_lookup_fmap, Hi.
Qed.

Lemma NoDup_snoc_fresh {A : Type} (l : list A) x :
  NoDup l → x ∉ l → NoDup (l ++ [x]).
Proof.
  intros Hnd Hx. apply NoDup_app. split_and!; [done| |apply NoDup_singleton].
  intros y Hy ->%list_elem_of_singleton. done.
Qed.

(** X4: when [uuidv4()] returns an id that no project (no task) has yet,
    the ids of the projects stay pairwise distinct and so do the ids of
    the tasks, in every state reached from the empty store by any calls. *)
Theorem ids_stay_distinct Date st :
  reachable Date st →
  NoDup (p_id <$> projects st) ∧ NoDup (t_id <$> tasks st).
Proof.
  induction 1 as [|st c Hreach [IHp IHt] Hfresh].
  { split; apply NoDup_nil_2. }
  destruct c as [args|uuid created updated args|now args|args|args
                |uuid created updated args|now args|args|now args|args];
    simpl in *.
  - done.
  - split; [|done]. rewrite fmap_app. apply NoDup_snoc_fresh; [done|].
    intros (p & Hp & Hin)%list_elem_of_fmap. by destruct (Hfresh p Hin).
  - unfold handleUpdateProject.
    destruct (arg_id args) as [id|]; [|done]. simpl.
    destruct (list_find _ (projects st)) as [[i p]|] eqn:E; [|done]. simpl.
    apply find_by_id_Some in E as (Hi & _ & _).
    split; [|done]. by rewrite (fmap_insert_same p_id _ i p).
  - unfold handleDeleteProject.
    destruct (arg_id args) as [id|]; [|done]. simpl.
    destruct (list_find _ (projects st)) as [[i p]|] eqn:E; [|done].
    assert (NoDup (p_id <$> delete i (projects st))) as Hp.
    { rewrite list_fmap_delete. eapply sublist_NoDup; [exact IHp|].
      apply sublist_delete. }
    destruct (JS.truthy_bool _); simpl; [|done].
    split; [done|]. eapply sublist_NoDup; [exact IHt|].
    apply fmap_sublist, sublist_filter.
  - done.
  - unfold handleCreateTask.
    destruct (arg_project_id args) as [pid|]; [|done].
    destruct (list_find _ (projects st)) as [[j project]|]; [|done]. simpl.
    split; [done|]. rewrite fmap_on_parent, fmap_app by done.
    apply NoDup_snoc_fresh; [done|].
    intros (t & Ht & Hin)%list_elem_of_fmap. by destruct (Hfresh t Hin).
  - unfold handleUpdateTask.
    destruct (arg_id args) as [id|]; [|done]. simpl.
    destruct (list_find _ (tasks st)) as [[i t]|] eqn:E; [|done]. simpl.
    apply find_by_id_Some in E as (Hi & _ & _).
    split; [done|]. by rewrite (fmap_insert_same t_id _ i t).
  - unfold handleDeleteTask.
    destruct (arg_id args) as [id|]; [|done]. simpl.
    destruct (list_find _ (tasks st)) as [[i t]|] eqn:E; [|done]. simpl.
    split; [done|]. rewrite fmap_on_parent, list_fmap_delete by done.
    eapply sublist_NoDup; [exact IHt|]. apply sublist_delete.
  - unfold handleMoveTask.
    destruct (arg_task_id args) as [id|]; [|done]. simpl.
    destruct (list_find _ (tasks st)) as [[i t]|] eqn:E; [|done].
    destruct (arg_new_project_id args) as [pid|]; [|done].
    destruct (list_find _ (projects st)) as [[j project]|]; [|done]. simpl.
    apply find_by_id_Some in E as (Hi & _ & _).
    split; [done|]. by rewrite (fmap_insert_same t_id _ i t).
  - unfold handleGetProjectSummary.
    by destruct (_ ≫= _) as [[]|].
Qed.

Lemma ids_stay_distinct_witness :
  reachable Date_ymd (run Date_ymd cascade_over_subtask empty_store) ∧
  NoDup (p_id <$> projects (run Date_ymd cascade_over_subtask empty_store)) ∧
  NoDup (t_id <$> tasks (run Date_ymd cascade_over_subtask empty_store)).
Proof.
  assert (reachable Date_ymd (run Date_ymd cascade_over_subtask empty_store))
    as H.
  { cbv [run cascade_over_subtask subtask_across_projects foldl app].
    repeat (apply reachable_step; [|try exact I]).
    - apply reachable_init.
    - by intros p ?%elem_of_nil.
    - intros p Hp. vm_compute in Hp.
      apply list_elem_of_singleton in Hp as ->. discriminate.
    - by intros t ?%elem_of_nil.
    - intros t Ht. vm_compute in Ht.
      apply list_elem_of_singleton in Ht as ->. discriminate. }
  split; [exact H|]. exact (ids_stay_distinct Date_ymd _ H).
Defined.

(** ** Tasks belong to existing projects *)

Lemma projects_resolve_ids st :
  projects_resolve st ↔
  ∀ x, x ∈ t_project_id <$> tasks st → x ∈ p_id <$> projects st.
Proof.
  unfold projects_resolve. split.
  - intros H x (t & -> & Ht)%list_elem_of_fmap.
    destruct (H t Ht) as (p & Hp & <-). by apply list_elem_of_fmap_2.
  - intros H t Ht.
    assert (t_project_id t ∈ p_id <$> projects st)
      as (p & Hp & Hin)%list_elem_of_fmap
      by (apply H; by apply list_elem_of_fmap_2).
    by exists p.
Qed.

(** X5: as long as no project is deleted without its tasks, every task
    belongs to an existing project: create_task and move_task check the
    project, and delete_project with [delete_tasks] removes the tasks of
    the project it removes. *)
Theorem tasks_belong_to_projects Date st :
  reachable_cascading Date st → projects_resolve st.
Proof.
  induction 1 as [|st c Hreach IH Hc].
  { by intros t ?%elem_of_nil. }
  apply (proj2 (projects_resolve_ids _)).
  pose proof (proj1 (projects_resolve_ids _) IH) as IH'.
  clear IH. rename IH' into IH.
  destruct c as [args|uuid created updated args|now args|args|args
                |uuid created updated args|now args|args|now args|args];
    simpl in *.
  - done.
  - intros x Hx. rewrite fmap_app. apply elem_of_app. left. by apply IH.
  - unfold handleUpdateProject.
    destruct (arg_id args) as [id|]; [|done]. simpl.
    destruct (list_find _ (projects st)) as [[i p]|] eqn:E; [|done]. simpl.
    apply find_by_id_Some in E as (Hi & _ & _).
    by rewrite (fmap_insert_same p_id _ i p).
  - unfold handleDeleteProject.
    destruct (arg_id args) as [id|]; [|done]. simpl.
    destruct (list_find _ (projects st)) as [[i p]|] eqn:E; [|done].
    rewrite Hc. simpl.
    apply find_by_id_Some in E as (Hi & Hid & _).
    intros x (t & -> & [Hne Ht]%list_elem_of_filter)%list_elem_of_fmap.
    assert (t_project_id t ∈ p_id <$> projects st)
      as (q & Hq & Hin)%list_elem_of_fmap
      by (apply IH; by apply list_elem_of_fmap_2).
    rewrite Hq. apply list_elem_of_fmap_2.
    apply (elem_of_delete_other _ i p); [done..|]. congruence.
  - done.
  - unfold handleCreateTask.
    destruct (arg_project_id args) as [pid|]; [|done].
    destruct (list_find _ (projects st)) as [[j project]|] eqn:E; [|done].
    simpl. rewrite fmap_on_parent, fmap_app by done.
    apply find_by_id_Some in E as (_ & Hid & Hin).
    intros x [Hx| ->%list_elem_of_singleton]%elem_of_app; [by apply IH|].
    simpl. rewrite <- Hid. by apply list_elem_of_fmap_2.
  - unfold handleUpdateTask.
    destruct (arg_id args) as [id|]; [|done]. simpl.
    destruct (list_find _ (tasks st)) as [[i t]|] eqn:E; [|done]. simpl.
    apply find_by_id_Some in E as (Hi & _ & _).
    by rewrite (fmap_insert_same t_project_id _ i t).
  - unfold handleDeleteTask.
    destruct (arg_id args) as [id|]; [|done]. simpl.
    destruct (list_find _ (tasks st)) as [[i t]|] eqn:E; [|done]. simpl.
    rewrite fmap_on_parent, list_fmap_delete by done.
    intros x Hx. apply IH. by eapply list_elem_of_delete_inv.
  - unfold handleMoveTask.
    destruct (arg_task_id args) as [id|]; [|done]. simpl.
    destruct (list_find _ (tasks st)) as [[i t]|] eqn:E; [|done].
    destruct (arg_new_project_id args) as [pid|]; [|done].
    destruct (list_find _ (projects st)) as [[j project]|] eqn:E'; [|done].
    simpl. apply find_by_id_Some in E' as (_ & Hid & Hin).
    intros x (t' & -> & [k Hk]%list_elem_of_lookup)%list_elem_of_fmap.
    apply list_lookup_insert_Some in Hk as [(_ & <- & _)|[_ Hk]].
    + simpl. rewrite <- Hid. by apply list_elem_of_fmap_2.
    + apply IH, list_elem_of_fmap_2. by eapply list_elem_of_lookup_2.
  - unfold handleGetProjectSummary.
    by destruct (_ ≫= _) as [[]|].
Qed.

Lemma tasks_belong_to_projects_witness :
  reachable_cascading Date_ymd
    (run Date_ymd cascade_over_subtask empty_store) ∧
  projects_resolve (run Date_ymd cascade_over_subtask empty_store).
Proof.
  assert (reachable_cascading Date_ymd
            (run Date_ymd cascade_over_subtask empty_store)) as H.
  { cbv [run cascade_over_subtask subtask_across_projects foldl app].
    repeat (apply cascading_step; [|first [exact I|reflexivity]]).
    apply cascading_init. }
  split; [exact H|]. exact (tasks_belong_to_projects Date_ymd _ H).
Defined.

(** ** The counts of a project *)

Lemma status_counts (l : list Task) :
  let n := length (filter (λ t, t_status t = "todo") l)
           + length (filter (λ t, t_status t = "in_progress") l)
           + length (filter (λ t, t_status t = "done") l) in
  (n ≤ length l)%nat ∧
  (n = length l ↔ Forall (λ t, known_status (t_status t)) l).
Proof.
  induction l as [|t l [IHle IHeq]]; simpl.
  { split; [lia|]. split; [by constructor|done]. }
  rewrite !filter_cons, Forall_cons. unfold known_status at 1.
  pose proof (length_filter (λ t, t_status t = "todo") l).
  destruct (decide (t_status t = "todo")) as [E1|E1],
           (decide (t_status t = "in_progress")) as [E2|E2],
           (decide (t_status t = "done")) as [E3|E3];
    simpl; try congruence; (split; [lia|]);
    rewrite <- IHeq; split; try (intros [_ ?]; lia); try lia;
    try (intros ?; split; [tauto|lia]).
  intros [[?|[?|?]] _]; done.
Qed.

Lemma priority_counts (l : list Task) :
  let n := length (filter (λ t, t_priority t = "urgent") l)
           + length (filter (λ t, t_priority t = "high") l)
           + length (filter (λ t, t_priority t = "medium") l)
           + length (filter (λ t, t_priority t = "low") l) in
  (n ≤ length l)%nat ∧
  (n = length l ↔ Forall (λ t, known_priority (t_priority t)) l).
Proof.
  induction l as [|t l [IHle IHeq]]; simpl.
  { split; [lia|]. split; [by constructor|done]. }
  rewrite !filter_cons, Forall_cons. unfold known_priority at 1.
  destruct (decide (t_priority t = "urgent")) as [E1|E1],
           (decide (t_priority t = "high")) as [E2|E2],
           (decide (t_priority t = "medium")) as [E3|E3],
           (decide (t_priority t = "low")) as [E4|E4];
    simpl; try congruence; (split; [lia|]);
    rewrite <- IHeq; split; try (intros [_ ?]; lia); try lia;
    try (intros ?; split; [tauto|lia]).
  intros [[?|[?|[?|?]]] _]; done.
Qed.

(** X6: the per-status counts that list_projects and
    get_project_summary report never exceed the total, and add up to it
    exactly when every task of the project has one of the statuses todo,
    in_progress, done (update_task can store any other string); the same
    holds of the per-priority counts of the summary. *)
Theorem counts_add_up Date args st :
  (∀ out n pc,
     snd (handleListProjects Date args st) = respond 200 (BProjects out n) →
     pc ∈ out →
     let ts := filter (λ t, t_project_id t = p_id (pc_project pc)) (tasks st) in
     pc_total pc = length ts ∧
     (pc_todo pc + pc_in_progress pc + pc_done pc ≤ pc_total pc)%nat ∧
     (pc_todo pc + pc_in_progress pc + pc_done pc = pc_total pc
      ↔ Forall (λ t, known_status (t_status t)) ts)) ∧
  (∀ s,
     snd (handleGetProjectSummary args st) = respond 200 (BSummary s) →
     let ts := filter (λ t, Some (t_project_id t) = arg_id args) (tasks st) in
     s_total_tasks s = length ts ∧
     (s_todo s + s_in_progress s + s_done s ≤ s_total_tasks s)%nat ∧
     (s_todo s + s_in_progress s + s_done s = s_total_tasks s
      ↔ Forall (λ t, known_status (t_status t)) ts) ∧
     (s_urgent s + s_high s + s_medium s + s_low s ≤ s_total_tasks s)%nat ∧
     (s_urgent s + s_high s + s_medium s + s_low s = s_total_tasks s
      ↔ Forall (λ t, known_priority (t_priority t)) ts)).
Proof.
  split.
  - intros out n pc Hout Hpc ts. subst ts.
    unfold handleListProjects in Hout. simpl in Hout.
    injection Hout as <- _. rewrite elem_of_sort in Hpc.
    apply list_elem_of_fmap in Hpc as (p & -> & _). simpl.
    split; [done|]. apply status_counts.
  - intros s Hs ts. subst ts. unfold handleGetProjectSummary in Hs.
    destruct (arg_id args ≫= _) as [[i project]|]; [|discriminate Hs].
    simpl in Hs. injection Hs as <-. simpl.
    split; [done|]. split_and!; try apply status_counts;
      apply priority_counts.
Qed.

Lemma counts_add_up_witness :
  let args := with_id "p1" no_args in
  ∃ s,
    snd (handleGetProjectSummary args sample_store)
    = respond 200 (BSummary s) ∧
    (s_todo s + s_in_progress s + s_done s ≤ s_total_tasks s)%nat ∧
    (s_urgent s + s_high s + s_medium s + s_low s ≤ s_total_tasks s)%nat.
Proof.
  intros args. eexists. split; [reflexivity|].
  destruct (proj2 (counts_add_up Date_ymd args sample_store) _ eq_refl)
    as (_ & H1 & _ & H2 & _).
  split; [exact H1|exact H2].
Defined.

(** ** What the listings select *)

Lemma filter_all {A : Type} (P : A → Prop) `{!∀ x, Decision (P x)}
    (l : list A) :
  (∀ x, x ∈ l → P x) → filter P l = l.
Proof.
  induction l as [|x l IH]; intros Hall; [done|].
  rewrite filter_cons_True by apply Hall, list_elem_of_here.
  f_equal. apply IH. intros y Hy. by apply Hall, list_elem_of_further.
Qed.

Lemma filter_by_selects {A : Type} (field : A → string) v (l : list A) :
  filter_by field v l = filter (λ x, selects v (field x)) l.
Proof.
  unfold filter_by. destruct (is_filter v) eqn:E.
  - apply list_filter_iff. intros x. unfold selects. rewrite E. split; auto.
  - symmetry. apply filter_all. intros x _. unfold selects. by rewrite E.
Qed.

Lemma select_tasks_selected args ts :
  select_tasks args ts = filter (task_selected args) ts.
Proof.
  unfold select_tasks.
  assert ((if JS.truthy (arg_project_id args)
           then filter (λ t, Some (t_project_id t) = arg_project_id args) ts
           else ts)
          = filter (λ t, JS.truthy (arg_project_id args) = true
                         → Some (t_project_id t) = arg_project_id args) ts)
    as ->.
  { destruct (JS.truthy (arg_project_id args)) eqn:E.
    - apply list_filter_iff. intros t. split; auto.
    - symmetry. by apply filter_all. }
  rewrite !filter_by_selects, !list_filter_filter.
  apply list_filter_iff. intros t. unfold task_selected. tauto.
Qed.


(** ** The REST listings *)

Lemma filter_by_or_all {A : Type} (field : A → string) v (l : list A) :
  filter_by field (Some (JS.or_str v "all")) l = filter_by field v l.
Proof.
  unfold filter_by, is_filter. destruct v as [s|]; [|done]. simpl.
  destruct (String.eqb_spec s "") as [->|Hs]; [done|]. simpl.
  destruct (String.eqb_spec s "") as [|_]; [done|]. done.
Qed.

(** X8: GET /api/tasks with the query parameters project_id, status and
    priority answers exactly as the tool list_tasks with these three
    arguments: the ['all'] the route substitutes for a missing status or
    priority changes nothing.  GET /api/projects answers as list_projects
    without arguments. *)
Theorem rest_listings_are_tool_listings Date st :
  (∀ project_id status priority,
     get_api_tasks Date project_id status priority st
     = handleListTasks Date (listing_args project_id status priority) st) ∧
  get_api_projects Date st = handleListProjects Date no_args st.
Proof.
  split; [|reflexivity].
  intros project_id status priority.
  unfold get_api_tasks, handleListTasks, select_tasks. simpl.
  by rewrite !filter_by_or_all.
Qed.

(** ** A created project can be read back *)

Lemma list_find_snoc_fresh {A : Type} (P : A → Prop) `{!∀ x, Decision (P x)}
    (l : list A) x :
  (∀ y, y ∈ l → ¬ P y) → P x →
  list_find P (l ++ [x]) = Some (length l, x).
Proof.
  intros Hno Px. apply list_find_Some. split_and!; [|done|].
  - by rewrite lookup_app_r, Nat.sub_diag.
  - intros j y Hj Hlt. rewrite lookup_app_l in Hj by done.
    apply Hno. by eapply list_elem_of_lookup_2.
Qed.

(** X9: after create_project with an id that no project has and no task
    refers to, get_project_summary of that id returns the new project,
    with the name as given and the defaults todo and medium for a
    missing or empty status and priority, no tasks, 0 percent and no
    recent tasks; the projects that existed are still there, in front of
    it. *)
Theorem created_project_is_summarised uuid created updated args st :
  (∀ p, p ∈ projects st → p_id p ≠ uuid) →
  (∀ t, t ∈ tasks st → t_project_id t ≠ uuid) →
  let st' := fst (handleCreateProject uuid created updated args st) in
  ∃ s,
    handleGetProjectSummary (with_id uuid no_args) st'
    = (st', respond 200 (BSummary s)) ∧
    projects st' = projects st ++ [s_project s] ∧
    p_id (s_project s) = uuid ∧
    p_name (s_project s) = arg_name args ∧
    p_status (s_project s) = JS.or_str (arg_status args) "todo" ∧
    p_priority (s_project s) = JS.or_str (arg_priority args) "medium" ∧
    p_created_at (s_project s) = created ∧
    p_updated_at (s_project s) = updated ∧
    s_total_tasks s = 0 ∧
    s_completion_percentage s = Some 0%Z ∧
    s_recent_tasks s = [].
Proof.
  intros Hp Ht. unfold handleCreateProject, handleGetProjectSummary. simpl.
  rewrite list_find_snoc_fresh; [|done..].
  rewrite (filter_none (λ t, Some (t_project_id t) = Some uuid));
    [|intros t Hin [= E]; by destruct (Ht t Hin)].
  eexists. split; [reflexivity|]. simpl. by split_and!.
Qed.

Lemma created_project_is_summarised_witness :
  (∀ p, p ∈ projects sample_store → p_id p ≠ "p3") ∧
  (∀ t, t ∈ tasks sample_store → t_project_id t ≠ "p3") ∧
  let st' := fst (handleCreateProject "p3" 3000 3001
                    (with_name "Launch" no_args) sample_store) in
  ∃ s,
    handleGetProjectSummary (with_id "p3" no_args) st'
    = (st', respond 200 (BSummary s)) ∧
    projects st' = projects sample_store ++ [s_project s] ∧
    p_id (s_project s) = "p3" ∧
    p_name (s_project s) = Some "Launch" ∧
    p_status (s_project s) = "todo" ∧
    p_priority (s_project s) = "medium" ∧
    p_created_at (s_project s) = 3000%Z ∧
    p_updated_at (s_project s) = 3001%Z ∧
    s_total_tasks s = 0 ∧
    s_completion_percentage s = Some 0%Z ∧
    s_recent_tasks s = [].
Proof.
  assert (∀ p, p ∈ projects sample_store → p_id p ≠ "p3") as H1.
  { apply Forall_forall. repeat constructor; discriminate. }
  assert (∀ t, t ∈ tasks sample_store → t_project_id t ≠ "p3") as H2.
  { apply Forall_forall. repeat constructor; discriminate. }
  split; [exact H1|]. split; [exact H2|].
  exact (created_project_is_summarised "p3" 3000 3001
           (with_name "Launch" no_args) sample_store H1 H2).
Defined.

(** ** A created task and its parent *)

(** X10: create_task in an existing project with a [parent_task_id]
    that is the id of a stored task appends the new task and adds its id
    at the end of the [subtasks] of the first task with that id, leaving
    every other task as it is; with a [parent_task_id] that is the id of
    no task the new task is appended all the same, keeps the dangling
    [parent_task_id], and no stored task changes. *)
Theorem create_task_links_parent uuid created updated args st pid j project :
  arg_project_id args = Some pid →
  list_find (λ p, p_id p = pid) (projects st) = Some (j, project) →
  let st' := fst (handleCreateTask uuid created updated args st) in
  (∃ t, tasks st' !! length (tasks st) = Some t ∧
        length (tasks st') = S (length (tasks st)) ∧
        t_id t = uuid ∧
        t_parent_task_id t = JS.or_null (arg_parent_task_id args)) ∧
  (∀ p k P,
     arg_parent_task_id args = Some p → p ≠ "" →
     list_find (λ t, t_id t = p) (tasks st) = Some (k, P) →
     tasks st' !! k = Some (add_subtask uuid P) ∧
     t_subtasks (add_subtask uuid P) = t_subtasks P ++ [uuid] ∧
     ∀ i, i ≠ k → i < length (tasks st) → tasks st' !! i = tasks st !! i) ∧
  ((∀ t, t ∈ tasks st → Some (t_id t) ≠ arg_parent_task_id args) →
   arg_parent_task_id args ≠ Some uuid →
   ∃ t, tasks st' = tasks st ++ [t] ∧ t_subtasks t = []).
Proof.
  intros Hpid Hfind. unfold handleCreateTask. rewrite Hpid, Hfind. simpl.
  split_and!.
  - rewrite length_on_parent, length_app, Nat.add_1_r.
    match goal with
    | |- context [on_parent ?v ?f (?l ++ [?t])] =>
        destruct (lookup_on_parent v f (l ++ [t]) (length l) t) as [E|E];
        [by rewrite lookup_app_r, Nat.sub_diag|..]
    end; rewrite E; by eexists.
  - intros p k P Hparent Hp HP.
    rewrite (on_parent_found _ p _ _ k P);
      [|done..|by apply list_find_app_l].
    apply find_by_id_Some in HP as (Hk & _ & _).
    pose proof (lookup_lt_Some _ _ _ Hk) as Hlt.
    split_and!; [|done|].
    + apply list_lookup_insert_eq. rewrite length_app. lia.
    + intros i Hi Hlen. rewrite list_lookup_insert_ne by done.
      by rewrite lookup_app_l.
  - intros Hno Hself. rewrite on_parent_not_found; [by eexists|].
    intros t [Ht| ->%list_elem_of_singleton]%elem_of_app; [by apply Hno|].
    simpl. congruence.
Qed.

Lemma create_task_links_parent_witness :
  let args := with_parent_task_id "t3"
                (with_title "Proofread" (with_project_id "p1" no_args)) in
  let t3 := sample_task "t3" "p2" "todo" "medium" None [] 2002 in
  list_find (λ p, p_id p = "p1") (projects sample_store)
  = Some (0, sample_project "p1" "medium" None) ∧
  list_find (λ t, t_id t = "t3") (tasks sample_store) = Some (2, t3) ∧
  let st' := fst (handleCreateTask "t5" 3000 3000 args sample_store) in
  tasks st' !! 2 = Some (add_subtask "t5" t3) ∧
  t_subtasks (add_subtask "t5" t3) = t_subtasks t3 ++ ["t5"] ∧
  ∀ i, i ≠ 2 → i < length (tasks sample_store)
       → tasks st' !! i = tasks sample_store !! i.
Proof.
  intros args t3. split; [reflexivity|]. split; [reflexivity|].
  destruct (create_task_links_parent "t5" 3000 3000 args sample_store "p1" 0
              (sample_project "p1" "medium" None) eq_refl eq_refl)
    as (_ & H & _).
  exact (H "t3" 2 t3 eq_refl ltac:(discriminate) eq_refl).
Defined.

(** ** Repeating an update *)

Lemma list_find_insert_same {A : Type} (P : A → Prop) `{!∀ x, Decision (P x)}
    (l : list A) i x y :
  list_find P l = Some (i, x) → P y →
  list_find P (<[i := y]> l) = Some (i, y).
Proof.
  intros (Hi & _ & Hfirst)%list_find_Some Py.
  apply list_find_insert_Some. right. left. split_and!; [done..| |done|].
  - by eapply lookup_lt_Some.
  - intros j z Hj Hlt. by eapply Hfirst.
Qed.

Lemma update_task_fields_twice now now' args t :
  update_task_fields now' args (update_task_fields now args t)
  = update_task_fields now' args t.
Proof.
  unfold update_task_fields, JS.assign_if_defined. simpl.
  by destruct (arg_title args), (arg_description args), (arg_status args),
    (arg_priority args), (arg_due_date args), (arg_assignee args),
    (arg_tags args).
Qed.

Lemma update_project_fields_twice now now' args p :
  update_project_fields now' args (update_project_fields now args p)
  = update_project_fields now' args p.
Proof.
  unfold update_project_fields, JS.assign_if_defined. simpl.
  by destruct (arg_name args), (arg_description args), (arg_status args),
    (arg_priority args), (arg_due_date args), (arg_tags args).
Qed.

(** X11: sending the same update_task (update_project) request again
    only refreshes updated_at: the store after the two calls is the
    store after the second call alone. *)
Theorem repeated_update now now' args st :
  fst (handleUpdateTask now' args (fst (handleUpdateTask now args st)))
  = fst (handleUpdateTask now' args st) ∧
  fst (handleUpdateProject now' args (fst (handleUpdateProject now args st)))
  = fst (handleUpdateProject now' args st).
Proof.
  split.
  - unfold handleUpdateTask.
    destruct (arg_id args) as [id|]; [|done]. simpl.
    destruct (list_find _ (tasks st)) as [[i t]|] eqn:E; simpl;
      [|by rewrite E].
    pose proof (find_by_id_Some _ _ _ _ _ E) as (_ & Hid & _).
    rewrite (list_find_insert_same _ _ i t); [|done..].
    simpl. by rewrite list_insert_insert_eq, update_task_fields_twice.
  - unfold handleUpdateProject.
    destruct (arg_id args) as [id|]; [|done]. simpl.
    destruct (list_find _ (projects st)) as [[i p]|] eqn:E; simpl;
      [|by rewrite E].
    pose proof (find_by_id_Some _ _ _ _ _ E) as (_ & Hid & _).
    rewrite (list_find_insert_same _ _ i p); [|done..].
    simpl. by rewrite list_insert_insert_eq, update_project_fields_twice.
Qed.

(** ** DELETE /api/projects/:id *)

(** X12: the REST route deletes the tasks of the project only when the
    query parameter delete_tasks is the string 'true'; with any other
    value, or none, the project goes and every task stays. *)
Theorem rest_delete_project_flag id flag st i project :
  list_find (λ p, p_id p = id) (projects st) = Some (i, project) →
  let st' := fst (delete_api_project id flag st) in
  projects st' = delete i (projects st) ∧
  (flag = Some "true" →
   tasks st' = filter (λ t, t_project_id t ≠ id) (tasks st)) ∧
  (flag ≠ Some "true" → tasks st' = tasks st).
Proof.
  intros Hfind. unfold delete_api_project, handleDeleteProject. simpl.
  rewrite Hfind. destruct (bool_decide_reflect (flag = Some "true")) as [E|E];
    simpl.
  - split_and!; [done| |done]. intros _.
    apply list_filter_iff. intros t. split; congruence.
  - by split_and!.
Qed.

Lemma rest_delete_project_flag_witness :
  list_find (λ p, p_id p = "p1") (projects sample_store)
  = Some (0, sample_project "p1" "medium" None) ∧
  let st' := fst (delete_api_project "p1" (Some "1") sample_store) in
  projects st' = delete 0 (projects sample_store) ∧
  (Some "1" = Some "true" →
   tasks st' = filter (λ t, t_project_id t ≠ "p1") (tasks sample_store)) ∧
  (Some "1" ≠ Some "true" → tasks st' = tasks sample_store).
Proof.
  split; [reflexivity|].
  exact (rest_delete_project_flag "p1" (Some "1") sample_store 0
           (sample_project "p1" "medium" None) eq_refl).
Defined.

(** * Properties of the MCP servers *)

Module McpFacts.
Import Mcp.

Lemma find_by_mp_id_None (v : option string) (ps : list Project) :
  (v ≫= λ id, list_find (λ p, mp_id p = id) ps) = None →
  ∀ p, p ∈ ps → Some (mp_id p) ≠ v.
Proof.
  intros H p Hp E. destruct v as [id|]; [|done]. simpl in H.
  apply list_find_None in H. rewrite Forall_forall in H.
  apply (H p Hp). congruence.
Qed.

Lemma executeTool_body_throws name env args st e :
  snd (executeTool_body name env args st) = Thrown e →
  fst (executeTool_body name env args st) = st.
Proof.
  unfold executeTool_body. destruct name as [n|]; [|done].
  repeat match goal with
         | |- context [String.eqb n ?s] => destruct (String.eqb n s)
         end; try done.
  - unfold create_task. destruct (arg_project_id args); [|done].
    by destruct (list_find _ _) as [[]|].
  - unfold update_task. by destruct (_ ≫= _) as [[]|].
  - unfold delete_task. by destruct (_ ≫= _) as [[]|].
  - unfold update_project. by destruct (_ ≫= _) as [[]|].
  - unfold delete_project. by destruct (_ ≫= _) as [[]|].
Qed.

Lemma handleTool_throws name env args st e :
  snd (handleTool name env args st) = Thrown e →
  fst (handleTool name env args st) = st.
Proof.
  unfold handleTool. destruct name as [n|]; [|done].
  repeat match goal with
         | |- context [String.eqb n ?s] => destruct (String.eqb n s)
         end; try done; destruct args as [args|]; try done.
  unfold create_task. destruct (arg_project_id args); [|done].
  by destruct (list_find _ _) as [[]|].
Qed.

(** X13: a tool call that fails changes nothing.  When [executeTool]
    or [handleTool] throws, projects and tasks are as before; so the
    [/mcp] endpoint changes them only in a 200 answer that carries a
    tool result, and changes the sessions only on [initialize]; the
    [/tools/call] route of the hybrid server changes them only with
    status 200. *)
Theorem failed_tool_calls_change_nothing name env args st :
  (∀ e, snd (executeTool name env args st) = Thrown e →
        fst (executeTool name env args st) = st) ∧
  (∀ e, snd (handleTool name env args st) = Thrown e →
        fst (handleTool name env args st) = st) ∧
  (∀ message sessions,
     let r := post_mcp env message st sessions in
     (r.1.1 ≠ st →
      http_status r.2 = 200 ∧ ∃ res, body r.2 = ToolResult res) ∧
     (r.1.2 ≠ sessions →
      msg_method message = Some "initialize" ∧ http_status r.2 = 200)) ∧
  (let r := post_tools_call name env args st in
   r.1 ≠ st → r.2.1 = 200).
Proof.
  split_and!.
  - intros e. apply executeTool_body_throws.
  - intros e. apply handleTool_throws.
  - intros message sessions. unfold post_mcp.
    destruct (negb _); [done|].
    destruct (bool_decide_reflect (msg_method message = Some "initialize"))
      as [?|_]; [done|].
    destruct (bool_decide_reflect (msg_method message = Some "tools/list"))
      as [_|_]; [done|].
    destruct (bool_decide_reflect (msg_method message = Some "tools/call"))
      as [_|_].
    + destruct (msg_params message) as [params|]; [|done].
      destruct (executeTool _ env _ st) as [st' [r|e]] eqn:E; simpl.
      * split; [by eauto|done].
      * pose proof (executeTool_body_throws
                      (par_name params) env
                      (default no_args (par_arguments params)) st e) as H.
        unfold executeTool in E. rewrite E in H. simpl in H.
        rewrite H by done. done.
    + by destruct (bool_decide _).
  - unfold post_tools_call.
    destruct (handleTool name env args st) as [st' [r|e]] eqn:E; simpl;
      [done|].
    pose proof (handleTool_throws name env args st e) as H.
    rewrite E in H. simpl in H. rewrite H by done. done.
Qed.

Lemma failed_tool_calls_change_nothing_witness :
  let env := {| env_uuid := "t1"; env_now := 1000; env_now' := 1000 |} in
  let args := Some (with_project_id "p9" no_args) in
  snd (executeTool (Some "create_task") env args empty_store)
  = Thrown (ProjectNotFound (Some "p9")) ∧
  fst (executeTool (Some "create_task") env args empty_store) = empty_store.
Proof.
  intros env args. split; [reflexivity|].
  exact (proj1 (failed_tool_calls_change_nothing
                  (Some "create_task") env args empty_store)
               (ProjectNotFound (Some "p9")) eq_refl).
Defined.

(** ** Tasks belong to existing projects *)

Lemma mcp_projects_resolve_ids st :
  projects_resolve st ↔
  ∀ x, x ∈ mt_project_id <$> tasks st → x ∈ mp_id <$> projects st.
Proof.
  unfold projects_resolve. split.
  - intros H x (t & -> & Ht)%list_elem_of_fmap.
    destruct (H t Ht) as (p & Hp & <-). by apply list_elem_of_fmap_2.
  - intros H t Ht.
    assert (mt_project_id t ∈ mp_id <$> projects st)
      as (p & Hp & Hin)%list_elem_of_fmap
      by (apply H; by apply list_elem_of_fmap_2).
    by exists p.
Qed.


(** ** delete_project and delete_task *)

Lemma length_filter_complement {A : Type} (P : A → Prop)
    `{!∀ x, Decision (P x)} (l : list A) :
  length (filter P l) + length (filter (λ x, ¬ P x) l) = length l.
Proof. by rewrite <- length_app, filter_app_complement. Qed.

(** X15: delete_project of an existing id removes every project of
    that id and every task that refers to it, keeps the others in
    order, and returns the first project of the id and the number of
    tasks removed; afterwards create_task into that project and a
    second delete_project fail with 'Project not found'. *)
Theorem delete_project_cascades env args st id i project :
  arg_project_id args = Some id →
  list_find (λ p, mp_id p = id) (projects st) = Some (i, project) →
  let st' := fst (delete_project args st) in
  snd (delete_project args st)
  = Returned (DeletedProject project
                (length (tasks st) - length (tasks st'))) ∧
  projects st' = filter (λ p, mp_id p ≠ id) (projects st) ∧
  tasks st' = filter (λ t, mt_project_id t ≠ id) (tasks st) ∧
  create_task env args st' = (st', Thrown (ProjectNotFound (Some id))) ∧
  delete_project args st' = (st', Thrown (ProjectNotFound (Some id))).
Proof.
  intros Hid Hfind st'.
  assert (delete_project args st
          = ({| projects := filter (λ p, mp_id p ≠ id) (projects st);
                tasks := filter (λ t, mt_project_id t ≠ id) (tasks st) |},
             Returned (DeletedProject project
               (length (filter (λ t, mt_project_id t = id) (tasks st))))))
    as E.
  { unfold delete_project. rewrite Hid. simpl. rewrite Hfind.
    rewrite (list_filter_iff (λ p, Some (mp_id p) ≠ Some id)
                             (λ p, mp_id p ≠ id))
      by (intros; split; congruence).
    rewrite (list_filter_iff (λ t, Some (mt_project_id t) ≠ Some id)
                             (λ t, mt_project_id t ≠ id))
      by (intros; split; congruence).
    rewrite (list_filter_iff (λ t, Some (mt_project_id t) = Some id)
                             (λ t, mt_project_id t = id))
      by (intros; split; congruence).
    done. }
  subst st'. rewrite E. simpl.
  assert (list_find (λ p, mp_id p = id)
            (filter (λ p, mp_id p ≠ id) (projects st)) = None) as Hgone.
  { apply list_find_None, Forall_forall.
    by intros p [Hp _]%list_elem_of_filter. }
  split_and!; [|done|done| |].
  - do 3 f_equal.
    pose proof (length_filter_complement
                  (λ t, mt_project_id t = id) (tasks st)) as Hlen.
    lia.
  - unfold create_task. rewrite Hid. simpl. by rewrite Hgone.
  - unfold delete_project. rewrite Hid. simpl. by rewrite Hgone.
Qed.

(** X16: delete_task of an existing id removes every task of that id
    and keeps the others in order and the projects as they are, and
    returns the first task of the id; afterwards update_task and a
    second delete_task of the id fail with 'Task not found'. *)
Theorem delete_task_removes_id env args st id i task :
  arg_task_id args = Some id →
  list_find (λ t, mt_id t = id) (tasks st) = Some (i, task) →
  let st' := fst (delete_task args st) in
  snd (delete_task args st) = Returned (DeletedTask task) ∧
  projects st' = projects st ∧
  tasks st' = filter (λ t, mt_id t ≠ id) (tasks st) ∧
  (length (tasks st') < length (tasks st))%nat ∧
  update_task env args st' = (st', Thrown (TaskNotFound (Some id))) ∧
  delete_task args st' = (st', Thrown (TaskNotFound (Some id))).
Proof.
  intros Hid Hfind st'.
  assert (delete_task args st
          = ({| projects := projects st;
                tasks := filter (λ t, mt_id t ≠ id) (tasks st) |},
             Returned (DeletedTask task))) as E.
  { unfold delete_task. rewrite Hid. simpl. rewrite Hfind.
    rewrite (list_filter_iff (λ t, Some (mt_id t) ≠ Some id)
                             (λ t, mt_id t ≠ id))
      by (intros; split; congruence).
    done. }
  subst st'. rewrite E. simpl.
  assert (list_find (λ t, mt_id t = id)
            (filter (λ t, mt_id t ≠ id) (tasks st)) = None) as Hgone.
  { apply list_find_None, Forall_forall.
    by intros t [Ht _]%list_elem_of_filter. }
  apply list_find_Some in Hfind as (Hi & Ht & _).
  split_and!; [done..| | |].
  - apply (length_filter_lt _ _ task); [by eapply list_elem_of_lookup_2|].
    by intros H.
  - unfold update_task. rewrite Hid. simpl. by rewrite Hgone.
  - unfold delete_task. rewrite Hid. simpl. by rewrite Hgone.
Qed.


Lemma delete_project_cascades_witness :
  let args := with_project_id "m1" no_args in
  let st' := fst (delete_project args sample_store) in
  list_find (λ p, mp_id p = "m1") (projects sample_store)
  = Some (0, mkProject "m1" (Some "Launch") "" "todo" "medium" 1000 1000) ∧
  snd (delete_project args sample_store)
  = Returned (DeletedProject
                (mkProject "m1" (Some "Launch") "" "todo" "medium" 1000 1000)
                (length (tasks sample_store) - length (tasks st'))) ∧
  projects st' = filter (λ p, mp_id p ≠ "m1") (projects sample_store) ∧
  tasks st' = filter (λ t, mt_project_id t ≠ "m1") (tasks sample_store) ∧
  create_task sample_env args st'
  = (st', Thrown (ProjectNotFound (Some "m1"))) ∧
  delete_project args st' = (st', Thrown (ProjectNotFound (Some "m1"))).
Proof.
  intros args st'. split; [reflexivity|].
  exact (delete_project_cascades sample_env args sample_store "m1" 0 _
           eq_refl eq_refl).
Defined.

Lemma delete_task_removes_id_witness :
  let args :=
    {| arg_id := None; arg_name := None; arg_title := None;
       arg_description := None; arg_status := None; arg_priority := None;
       arg_due_date := None; arg_assignee := None; arg_tags := None;
       arg_project_id := None; arg_parent_task_id := None;
       arg_task_id := Some "k2"; arg_new_project_id := None;
       arg_delete_tasks := None |} in
  let k2 := mkTask "k2" (Some "Sort files") "" "m2" "done" "low" 2001 2001 in
  let st' := fst (delete_task args sample_store) in
  list_find (λ t, mt_id t = "k2") (tasks sample_store) = Some (1, k2) ∧
  snd (delete_task args sample_store) = Returned (DeletedTask k2) ∧
  projects st' = projects sample_store ∧
  tasks st' = filter (λ t, mt_id t ≠ "k2") (tasks sample_store) ∧
  (length (tasks st') < length (tasks sample_store))%nat ∧
  update_task sample_env args st' = (st', Thrown (TaskNotFound (Some "k2"))) ∧
  delete_task args st' = (st', Thrown (TaskNotFound (Some "k2"))).
Proof.
  intros args k2 st'. split; [reflexivity|].
  exact (delete_task_removes_id sample_env args sample_store "k2" 1 k2
           eq_refl eq_refl).
Defined.

(** ** A created task is listed *)

(** X17: create_task into an existing project appends the task, and the
    listings show it last: list_tasks of that project returns what it
    returned before followed by the new task, and list_tasks without
    arguments returns every task followed by the new one. *)
Theorem created_task_is_listed_last env args st pid j project :
  arg_project_id args = Some pid → pid ≠ "" →
  list_find (λ p, mp_id p = pid) (projects st) = Some (j, project) →
  let st' := fst (create_task env args st) in
  ∃ t l,
    snd (create_task env args st) = Returned (CreatedTask t project) ∧
    mt_id t = env_uuid env ∧ mt_title t = arg_title args ∧
    mt_project_id t = pid ∧
    list_tasks (with_project_id pid no_args) st = (st, Returned (Tasks l)) ∧
    list_tasks (with_project_id pid no_args) st'
    = (st', Returned (Tasks (l ++ [t]))) ∧
    list_tasks no_args st' = (st', Returned (Tasks (tasks st ++ [t]))) ∧
    projects st' = projects st.
Proof.
  intros Hpid Hne Hfind. unfold create_task. rewrite Hpid, Hfind. simpl.
  eexists _, _. split; [reflexivity|]. simpl.
  unfold list_tasks. simpl.
  destruct (String.eqb_spec pid "") as [|_]; [done|]. simpl.
  split_and!; try done.
  rewrite filter_app, filter_cons_True by done. done.
Qed.

Lemma created_task_is_listed_last_witness :
  let args := with_title "Publish" (with_project_id "m2" no_args) in
  let st' := fst (create_task sample_env args sample_store) in
  list_find (λ p, mp_id p = "m2") (projects sample_store)
  = Some (1, mkProject "m2" (Some "Archive") "" "todo" "low" 1001 1001) ∧
  ∃ t l,
    snd (create_task sample_env args sample_store)
    = Returned (CreatedTask t
                  (mkProject "m2" (Some "Archive") "" "todo" "low" 1001 1001)) ∧
    mt_id t = "k4" ∧ mt_title t = Some "Publish" ∧ mt_project_id t = "m2" ∧
    list_tasks (with_project_id "m2" no_args) sample_store
    = (sample_store, Returned (Tasks l)) ∧
    list_tasks (with_project_id "m2" no_args) st'
    = (st', Returned (Tasks (l ++ [t]))) ∧
    list_tasks no_args st'
    = (st', Returned (Tasks (tasks sample_store ++ [t]))) ∧
    projects st' = projects sample_store.
Proof.
  intros args st'. split; [reflexivity|].
  exact (created_task_is_listed_last sample_env args sample_store "m2" 1 _
           eq_refl ltac:(discriminate) eq_refl).
Defined.

(** ** Tools called without arguments *)

(** X18: [handleTool] has no default for its arguments: a call of one
    of its four tools without arguments throws a TypeError and changes
    nothing, and the [/tools/call] route answers 400; [executeTool]
    takes [{}] instead, so that list_projects and list_tasks return
    everything, create_task fails with 'Project not found' and
    create_project stores a project without a name. *)
Theorem tools_without_arguments name env st :
  (name ∈ ["list_projects"; "create_project"; "list_tasks"; "create_task"] →
   handleTool (Some name) env None st = (st, Thrown TypeError) ∧
   post_tools_call (Some name) env None st = (st, (400, None))) ∧
  executeTool (Some "list_projects") env None st
  = (st, Returned (Projects (projects st))) ∧
  executeTool (Some "list_tasks") env None st
  = (st, Returned (Tasks (tasks st))) ∧
  executeTool (Some "create_task") env None st
  = (st, Thrown (ProjectNotFound None)) ∧
  (∃ p, executeTool (Some "create_project") env None st
        = ({| projects := projects st ++ [p]; tasks := tasks st |},
           Returned (CreatedProject p)) ∧
        mp_name p = None ∧ mp_status p = "todo" ∧ mp_priority p = "medium").
Proof.
  split_and!; try reflexivity.
  - intros Hname.
    repeat (apply elem_of_cons in Hname as [->|Hname]; [by split|]).
    by apply elem_of_nil in Hname.
  - eexists. split; [reflexivity|done].
Qed.

Lemma tools_without_arguments_witness :
  "list_tasks" ∈ ["list_projects"; "create_project"; "list_tasks";
                  "create_task"] ∧
  handleTool (Some "list_tasks") sample_env None sample_store
  = (sample_store, Thrown TypeError) ∧
  post_tools_call (Some "list_tasks") sample_env None sample_store
  = (sample_store, (400, None)).
Proof.
  assert ("list_tasks" ∈ ["list_projects"; "create_project"; "list_tasks";
                          "create_task"]) as H.
  { apply list_elem_of_further, list_elem_of_further, list_elem_of_here. }
  split; [exact H|].
  exact (proj1 (tools_without_arguments "list_tasks" sample_env sample_store)
               H).
Defined.

(** ** Updates *)


End McpFacts.

(** * Properties of the first server *)

Module V1Facts.
Import V1.

Lemma v1_same_id_same_index (ts : list Task) i j x y :
  NoDup (t1_id <$> ts) → ts !! i = Some x → ts !! j = Some y →
  t1_id x = t1_id y → i = j.
Proof.
  intros Hnd Hi Hj Hid.
  apply (NoDup_lookup _ i j (t1_id x) Hnd); rewrite list_lookup_fmap.
  - by rewrite Hi.
  - rewrite Hj. simpl. by rewrite Hid.
Qed.

(** In an array of distinct ids, [tasks.find(t => t.id === x.id)] is
    [x] for every task [x] of the array. *)
Lemma v1_find_task_elem (ts : list Task) x :
  NoDup (t1_id <$> ts) → x ∈ ts → find_task ts (t1_id x) = Some x.
Proof.
  intros Hnd [i Hi]%list_elem_of_lookup. unfold find_task.
  destruct (list_find _ ts) as [[j y]|] eqn:E; simpl.
  - apply list_find_Some in E as (Hj & Hy & _).
    assert (i = j) as -> by (by eapply v1_same_id_same_index).
    congruence.
  - apply list_find_None in E. rewrite Forall_forall in E.
    destruct (E x); [by eapply list_elem_of_lookup_2|done].
Qed.

Lemma v1_find_task_Some (ts : list Task) id x :
  find_task ts id = Some x → x ∈ ts ∧ t1_id x = id.
Proof.
  unfold find_task. destruct (list_find _ ts) as [[j y]|] eqn:E; [|done].
  apply list_find_Some in E as (Hj & Hy & _). intros [= <-].
  split; [by eapply list_elem_of_lookup_2|done].
Qed.

Lemma v1_find_task_None (ts : list Task) id :
  find_task ts id = None ↔ ∀ x, x ∈ ts → t1_id x ≠ id.
Proof.
  unfold find_task. split.
  - destruct (list_find _ ts) as [[j y]|] eqn:E; [done|]. intros _.
    apply list_find_None in E. by rewrite Forall_forall in E.
  - intros H. destruct (list_find _ ts) as [[j y]|] eqn:E; [|done].
    apply list_find_Some in E as (Hj & Hy & _).
    destruct (H y); [by eapply list_elem_of_lookup_2|done].
Qed.

Lemma v1_on_parent_retarget v f ts :
  NoDup (t1_id <$> ts) → on_parent v f ts = retarget v f <$> ts.
Proof.
  intros Hnd. unfold on_parent, retarget. destruct (JS.truthy v).
  - destruct (list_find _ ts) as [[i parent]|] eqn:E.
    + apply list_find_Some in E as (Hi & Hp & _).
      apply insert_found_fmap; [done..|].
      intros j y Hj Hy. eapply v1_same_id_same_index; [done..|]. congruence.
    + apply list_find_None in E. rewrite Forall_forall in E.
      rewrite <- (list_fmap_id ts) at 1. apply list_fmap_ext.
      intros j t Ht. rewrite decide_False; [done|].
      apply E. by eapply list_elem_of_lookup_2.
  - by rewrite list_fmap_id.
Qed.

Lemma v1_retarget_id v f t :
  (∀ x, t1_id (f x) = t1_id x) → t1_id (retarget v f t) = t1_id t.
Proof.
  intros Hf. unfold retarget.
  destruct (JS.truthy v); [|done]. by destruct (decide _).
Qed.

Lemma v1_retarget_parent v f t :
  (∀ x, t1_parent_id (f x) = t1_parent_id x) →
  t1_parent_id (retarget v f t) = t1_parent_id t.
Proof.
  intros Hf. unfold retarget.
  destruct (JS.truthy v); [|done]. by destruct (decide _).
Qed.

(** The ids of the children do not change under a map that keeps ids
    and parents. *)
Lemma v1_children_fmap (h : Task → Task) (ts : list Task) pid :
  (∀ x, t1_id (h x) = t1_id x) →
  (∀ x, t1_parent_id (h x) = t1_parent_id x) →
  t1_id <$> children (h <$> ts) pid = t1_id <$> children ts pid.
Proof.
  intros Hid Hp. unfold children. induction ts as [|t ts IH]; [done|].
  rewrite fmap_cons, !filter_cons, Hp.
  destruct (decide _); [|done]. by rewrite !fmap_cons, Hid, IH.
Qed.

Lemma v1_tasks_wf_fmap (h : Task → Task) (ts : list Task) :
  (∀ x, t1_id (h x) = t1_id x) →
  (∀ x, t1_parent_id (h x) = t1_parent_id x) →
  tasks_wf ts → tasks_wf (h <$> ts).
Proof.
  intros Hid Hp [Hnd Hwf]. split.
  - rewrite <- list_fmap_compose.
    by rewrite (list_fmap_ext (t1_id ∘ h) t1_id ts) by (intros; apply Hid).
  - intros t (t0 & -> & Ht0)%list_elem_of_fmap. rewrite Hp, Hid.
    by apply Hwf.
Qed.

Lemma v1_lists_children_fmap (h : Task → Task) (ts : list Task) :
  (∀ x, t1_id (h x) = t1_id x) →
  (∀ x, t1_parent_id (h x) = t1_parent_id x) →
  (∀ x, t1_subtasks (h x) = t1_subtasks x) →
  lists_children ts → lists_children (h <$> ts).
Proof.
  intros Hid Hp Hs Hm T (T0 & -> & HT0)%list_elem_of_fmap.
  rewrite v1_children_fmap, Hid, Hs by done. by apply Hm.
Qed.

(** An assignment through [tasks[i]] that keeps id, parent and
    subtasks keeps the invariant. *)
Lemma v1_invariant_insert (f : Task → Task) (ts : list Task) id i task :
  (∀ x, t1_id (f x) = t1_id x) →
  (∀ x, t1_parent_id (f x) = t1_parent_id x) →
  (∀ x, t1_subtasks (f x) = t1_subtasks x) →
  list_find (λ t, t1_id t = id) ts = Some (i, task) →
  tasks_wf ts ∧ lists_children ts →
  tasks_wf (<[i := f task]> ts) ∧ lists_children (<[i := f task]> ts).
Proof.
  intros Hid Hp Hs (Hi & Ht & _)%list_find_Some [Hwf Hm].
  rewrite (insert_found_fmap (λ t, t1_id t = id)); [|done..|].
  - split.
    + apply v1_tasks_wf_fmap; [..|done]; intros x; by destruct (decide _).
    + apply v1_lists_children_fmap; [..|done]; intros x; by destruct (decide _).
  - intros j y Hj Hy.
    eapply v1_same_id_same_index; [apply Hwf|done..|congruence].
Qed.

Lemma v1_children_none (ts : list Task) pid :
  (∀ c, c ∈ ts → t1_parent_id c ≠ Some pid) → children ts pid = [].
Proof. intros H. by apply filter_none. Qed.

(** [tasks.push(newTask)] followed by the registration with the parent
    (lines 196-204). *)
Lemma v1_invariant_create_task ts uuid v (new : Task) :
  tasks_wf ts ∧ lists_children ts →
  (∀ t, t ∈ ts → t1_id t ≠ uuid ∧ t1_parent_id t ≠ Some uuid) →
  v ≠ Some uuid →
  t1_id new = uuid → t1_parent_id new = JS.or_null v →
  t1_subtasks new = [] →
  tasks_wf (on_parent v (add_subtask uuid) (ts ++ [new])) ∧
  lists_children (on_parent v (add_subtask uuid) (ts ++ [new])).
Proof.
  intros [[Hnd Hwf] Hm] Hfresh Hv Hid Hparent Hsub.
  assert (tasks_wf (ts ++ [new])) as Hwf'.
  { split.
    - rewrite fmap_app. apply NoDup_app. split_and!; [done| |apply NoDup_singleton].
      intros x (t & -> & Ht)%list_elem_of_fmap Hx.
      apply list_elem_of_singleton in Hx.
      destruct (Hfresh t Ht) as [H _]. congruence.
    - intros t [Ht| ->%list_elem_of_singleton]%elem_of_app; [by apply Hwf|].
      rewrite Hparent, Hid. split.
      + intros [-> E]%or_null_Some. discriminate E.
      + intros [E _]%or_null_Some. congruence. }
  rewrite v1_on_parent_retarget by apply Hwf'.
  assert (∀ x, t1_id (retarget v (add_subtask uuid) x) = t1_id x) as Hrid
    by (by intros; apply v1_retarget_id).
  assert (∀ x, t1_parent_id (retarget v (add_subtask uuid) x)
               = t1_parent_id x) as Hrp
    by (by intros; apply v1_retarget_parent).
  split; [by apply v1_tasks_wf_fmap|].
  intros T' (T & -> & HT)%list_elem_of_fmap.
  rewrite v1_children_fmap, Hrid by done. clear Hrid Hrp.
  unfold children. rewrite filter_app, fmap_app, filter_cons, filter_nil.
  apply elem_of_app in HT as [HT| ->%list_elem_of_singleton].
  - specialize (Hm T HT). unfold children in Hm. unfold retarget.
    destruct (JS.truthy v) eqn:Etr; [destruct (decide (Some _ = v)) as [Ev|Ev]|].
    + simpl. rewrite Hm. f_equal.
      rewrite decide_True; [simpl; by rewrite Hid|].
      rewrite Hparent. unfold JS.or_null. by rewrite Etr.
    + rewrite Hm. rewrite decide_False; [by rewrite app_nil_r|].
      rewrite Hparent. intros [E _]%or_null_Some. by destruct Ev.
    + rewrite Hm. rewrite decide_False; [by rewrite app_nil_r|].
      rewrite Hparent. intros [_ E]%or_null_Some. congruence.
  - assert (retarget v (add_subtask uuid) new = new) as ->.
    { unfold retarget. destruct (JS.truthy v); [|done].
      rewrite decide_False; [done|]. congruence. }
    rewrite Hsub, Hid.
    rewrite (filter_none _ ts) by (intros c Hc; by apply Hfresh).
    rewrite decide_False; [done|].
    rewrite Hparent. intros [E _]%or_null_Some. congruence.
Qed.

(** Filtering an id out of the ids of tasks none of which has it. *)
Lemma v1_filter_other_ids (l : list Task) d :
  (∀ c, c ∈ l → t1_id c ≠ d) →
  filter (λ id, id ≠ d) (t1_id <$> l) = t1_id <$> l.
Proof.
  intros H. induction l as [|c l IH]; [done|].
  rewrite fmap_cons, filter_cons.
  rewrite decide_True by (apply H; apply list_elem_of_here).
  rewrite IH; [done|]. intros c' Hc'. apply H. by apply list_elem_of_further.
Qed.

(** [tasks.splice(taskIndex, 1)] followed by the removal from the
    parent's [subtasks] (lines 254-262). *)
Lemma v1_invariant_delete_task (ts : list Task) i D :
  tasks_wf ts ∧ lists_children ts →
  ts !! i = Some D →
  let ts' := on_parent (t1_parent_id D) (remove_subtask (t1_id D))
                       (delete i ts) in
  tasks_wf ts' ∧ lists_children ts'.
Proof.
  intros [[Hnd Hwf] Hm] Hi ts'. subst ts'.
  rewrite delete_take_drop.
  pose proof (take_drop_middle ts i D Hi) as Hts.
  set (l1 := take i ts) in *. set (l2 := drop (S i) ts) in *.
  assert (∀ c, c ∈ ts ↔ c ∈ l1 ++ l2 ∨ c = D) as Hin.
  { intros c. rewrite <- Hts, !elem_of_app, elem_of_cons. tauto. }
  assert (∀ c, c ∈ l1 ++ l2 → t1_id c ≠ t1_id D) as Hother.
  { intros c Hc Hid. rewrite <- Hts, fmap_app, fmap_cons in Hnd.
    apply NoDup_app in Hnd as (_ & Hdisj & [Hnot _]%NoDup_cons).
    apply elem_of_app in Hc as [Hc|Hc].
    - apply (Hdisj (t1_id c)); [by apply list_elem_of_fmap_2|].
      rewrite Hid. apply list_elem_of_here.
    - apply Hnot. rewrite <- Hid. by apply list_elem_of_fmap_2. }
  assert (tasks_wf (l1 ++ l2)) as Hwf'.
  { split.
    - eapply sublist_NoDup; [exact Hnd|].
      apply fmap_sublist. rewrite <- Hts.
      apply sublist_app; [done|]. by apply sublist_cons.
    - intros t Ht. apply Hwf, Hin. by left. }
  rewrite v1_on_parent_retarget by apply Hwf'.
  set (v := t1_parent_id D). set (f := remove_subtask (t1_id D)).
  assert (∀ x, t1_id (retarget v f x) = t1_id x) as Hrid
    by (by intros; apply v1_retarget_id).
  assert (∀ x, t1_parent_id (retarget v f x) = t1_parent_id x) as Hrp
    by (by intros; apply v1_retarget_parent).
  split; [by apply v1_tasks_wf_fmap|].
  intros T' (T & -> & HT)%list_elem_of_fmap.
  rewrite v1_children_fmap, Hrid by done. clear Hrid Hrp.
  assert (T ∈ ts) as HT' by (apply Hin; by left).
  specialize (Hm T HT'). rewrite <- Hts in Hm. unfold children in *.
  rewrite filter_app, filter_cons in Hm. rewrite filter_app.
  assert (JS.truthy v = true ∧ Some (t1_id T) = v ∨
          retarget v f T = T ∧ v ≠ Some (t1_id T)) as [[Etr Ev]|[Er Ev]].
  { unfold retarget. destruct (JS.truthy v) eqn:Etr.
    - destruct (decide (Some (t1_id T) = v)) as [Ev|Ev]; [by left|]. right. split; congruence.
    - right. split; [done|]. intros E. rewrite E in Etr.
      rewrite truthy_Some in Etr; [done|].
      intros E'. destruct (Hwf D) as [H _]; [apply Hin; by right|].
      apply H. fold v. by rewrite E, E'. }
  - unfold retarget. rewrite Etr, decide_True by done. subst f. simpl.
    rewrite decide_True in Hm by done. rewrite Hm.
    rewrite fmap_app, fmap_cons, filter_app, filter_cons.
    rewrite decide_False by (intros H; by apply H).
    rewrite !v1_filter_other_ids, <- fmap_app; [done|..].
    + intros c [_ Hc]%list_elem_of_filter. apply Hother, elem_of_app. by right.
    + intros c [_ Hc]%list_elem_of_filter. apply Hother, elem_of_app. by left.
  - rewrite Er, Hm. rewrite decide_False; [done|]. fold v. congruence.
Qed.


Lemma v1_update_task_invariant now args ts :
  tasks_wf ts ∧ lists_children ts →
  tasks_wf (fst (handleUpdateTask now args ts)) ∧
  lists_children (fst (handleUpdateTask now args ts)).
Proof.
  intros Hinv. unfold handleUpdateTask.
  destruct (a_id args) as [id|]; [|done]. simpl.
  destruct (list_find _ ts) as [[i task]|] eqn:E; [|done]. simpl.
  by apply (v1_invariant_insert (update_task_fields now args) ts id).
Qed.

Lemma v1_delete_task_invariant args ts :
  tasks_wf ts ∧ lists_children ts →
  tasks_wf (fst (handleDeleteTask args ts)) ∧
  lists_children (fst (handleDeleteTask args ts)).
Proof.
  intros Hinv. unfold handleDeleteTask.
  destruct (a_id args) as [id|]; [|done]. simpl.
  destruct (list_find _ ts) as [[i D]|] eqn:E; [|done]. simpl.
  apply list_find_Some in E as (Hi & _).
  by apply v1_invariant_delete_task.
Qed.

(** The invariant of the reachable states. *)
Lemma v1_reachable_invariant Date ts :
  reachable Date ts → tasks_wf ts ∧ lists_children ts.
Proof.
  induction 1 as [|ts c Hreach IH Hc].
  { split; [split|].
    - apply NoDup_nil_2.
    - by intros t ?%elem_of_nil.
    - by intros T ?%elem_of_nil. }
  destruct c as [args|uuid created updated args|now args|args|args]; simpl.
  - done.
  - destruct Hc as [Hfresh Hv]. by apply v1_invariant_create_task.
  - by apply v1_update_task_invariant.
  - by apply v1_delete_task_invariant.
  - unfold handleGetTask. by destruct (_ ≫= _).
Qed.

(** X19: in every state the first server reaches, the ids of the tasks
    are distinct, no task is its own parent, and the subtasks of every
    task are the ids of the tasks whose parent_id is its id, in the
    order of the tasks array: no id twice, and an id is listed exactly
    when a stored task of that id has the task as its parent. *)
Theorem v1_subtasks_list_children Date ts :
  reachable Date ts →
  tasks_wf ts ∧ lists_children ts ∧
  ∀ T, T ∈ ts →
    NoDup (t1_subtasks T) ∧
    ∀ id, id ∈ t1_subtasks T ↔
          ∃ c, c ∈ ts ∧ t1_id c = id ∧ t1_parent_id c = Some (t1_id T).
Proof.
  intros [[Hnd Hwf] Hm]%v1_reachable_invariant.
  split_and!; [done..|]. intros T HT. rewrite (Hm T HT). split.
  - eapply sublist_NoDup; [exact Hnd|].
    apply fmap_sublist, sublist_filter.
  - intros id. rewrite list_elem_of_fmap. unfold children. split.
    + intros (c & -> & [Hp Hc]%list_elem_of_filter). by exists c.
    + intros (c & Hc & <- & Hp). exists c. split; [done|].
      by apply list_elem_of_filter.
Qed.

Lemma v1_sample_reachable : reachable Date_ymd sample_tasks.
Proof.
  cbv [sample_tasks run sample_calls foldl].
  repeat (apply reachable_next; [|split; [|done]]).
  - apply reachable_start.
  - by intros t ?%elem_of_nil.
  - intros t Ht. vm_compute in Ht.
    apply list_elem_of_singleton in Ht as ->. by split.
  - intros t Ht. vm_compute in Ht.
    apply elem_of_cons in Ht as [->|Ht]; [by split|].
    apply list_elem_of_singleton in Ht as ->. by split.
Qed.

Lemma v1_subtasks_list_children_witness :
  reachable Date_ymd sample_tasks ∧
  tasks_wf sample_tasks ∧ lists_children sample_tasks ∧
  ∀ T, T ∈ sample_tasks →
    NoDup (t1_subtasks T) ∧
    ∀ id, id ∈ t1_subtasks T ↔
          ∃ c, c ∈ sample_tasks ∧ t1_id c = id ∧
               t1_parent_id c = Some (t1_id T).
Proof.
  split; [apply v1_sample_reachable|].
  apply (v1_subtasks_list_children Date_ymd), v1_sample_reachable.
Defined.

(** ** [get_task] *)

Lemma v1_resolve_ids (ts l : list Task) :
  NoDup (t1_id <$> ts) → (∀ x, x ∈ l → x ∈ ts) →
  omap (find_task ts) (t1_id <$> l) = l.
Proof.
  intros Hnd. induction l as [|x l IH]; intros Hl; [done|].
  rewrite fmap_cons. simpl.
  rewrite v1_find_task_elem by (done || apply Hl, list_elem_of_here).
  f_equal. apply IH. intros y Hy. by apply Hl, list_elem_of_further.
Qed.

Lemma v1_get_task_children args ts :
  tasks_wf ts ∧ lists_children ts →
  (∃ task, task ∈ ts ∧ Some (t1_id task) = a_id args ∧
     handleGetTask args ts
     = (ts, respond 200 (BTaskWithSubtasks task
                           (children ts (t1_id task))))) ∨
  ((∀ t, t ∈ ts → Some (t1_id t) ≠ a_id args) ∧
   handleGetTask args ts = (ts, respond 404 (BError "Task not found"))).
Proof.
  intros [[Hnd Hwf] Hm]. unfold handleGetTask.
  destruct (a_id args) as [id|]; simpl; [|by right].
  destruct (find_task ts id) as [task|] eqn:E.
  - left. apply v1_find_task_Some in E as [Hin <-].
    exists task. split_and!; [done..|].
    rewrite (Hm task Hin), v1_resolve_ids; [done..|].
    intros x Hx. unfold children in Hx.
    by apply list_elem_of_filter in Hx as [_ Hx].
  - right. split; [|done].
    intros t Ht [= Hid]. by apply (proj1 (v1_find_task_None ts id) E t).
Qed.

(** X20: in a state the first server reaches, get_task of the id of a
    task answers 200 with that task and, as its subtasks, exactly the
    tasks whose parent_id is that id, in the order of the tasks array,
    one for every id of its subtasks list; of any other id it answers
    404; the tasks do not change. *)
Theorem v1_get_task_returns_children Date args ts :
  reachable Date ts →
  (∃ task, task ∈ ts ∧ Some (t1_id task) = a_id args ∧
     handleGetTask args ts
     = (ts, respond 200 (BTaskWithSubtasks task
                           (children ts (t1_id task)))) ∧
     t1_id <$> children ts (t1_id task) = t1_subtasks task) ∨
  ((∀ t, t ∈ ts → Some (t1_id t) ≠ a_id args) ∧
   handleGetTask args ts = (ts, respond 404 (BError "Task not found"))).
Proof.
  intros Hinv%v1_reachable_invariant.
  destruct (v1_get_task_children args ts Hinv)
    as [(task & Hin & Hid & E)|H]; [left|by right].
  exists task. split_and!; [done..|].
  destruct Hinv as [_ Hm]. by rewrite (Hm task Hin).
Qed.

Lemma v1_get_task_returns_children_witness :
  reachable Date_ymd sample_tasks ∧
  ((∃ task, task ∈ sample_tasks ∧
      Some (t1_id task) = a_id (with_id "a" no_args) ∧
      handleGetTask (with_id "a" no_args) sample_tasks
      = (sample_tasks,
         respond 200 (BTaskWithSubtasks task
                        (children sample_tasks (t1_id task)))) ∧
      t1_id <$> children sample_tasks (t1_id task) = t1_subtasks task) ∨
   ((∀ t, t ∈ sample_tasks → Some (t1_id t) ≠ a_id (with_id "a" no_args)) ∧
    handleGetTask (with_id "a" no_args) sample_tasks
    = (sample_tasks, respond 404 (BError "Task not found")))).
Proof.
  split; [apply v1_sample_reachable|].
  apply (v1_get_task_returns_children Date_ymd), v1_sample_reachable.
Defined.

(** ** [list_tasks] *)


(** ** What a call answers *)

(** X22: every call of the first server is answered with 200 or 404; a
    404 leaves the tasks as they are, as do list_tasks and get_task;
    create_task always answers 200 and adds one task, update_task keeps
    their number, and delete_task answered with 200 removes one; an
    unknown tool name answers 404. *)
Theorem v1_calls_answer Date c ts :
  let r := dispatch Date c ts in
  (status (snd r) = 200 ∨ status (snd r) = 404) ∧
  (status (snd r) = 404 → fst r = ts) ∧
  match c with
  | list_tasks _ | get_task _ => fst r = ts
  | create_task _ _ _ _ =>
      status (snd r) = 200 ∧ length (fst r) = S (length ts)
  | update_task _ _ => length (fst r) = length ts
  | delete_task _ => status (snd r) = 200 → S (length (fst r)) = length ts
  end ∧
  ∀ name env args,
    tool_call name env args = None →
    post_tools Date name env args ts
    = (ts, respond 404 (BError ("Unknown tool: " ++ name))).
Proof.
  intros r. subst r. split_and!.
  - destruct c; simpl; auto.
    + unfold handleUpdateTask. destruct (_ ≫= _) as [[]|]; simpl; auto.
    + unfold handleDeleteTask. destruct (_ ≫= _) as [[]|]; simpl; auto.
    + unfold handleGetTask. destruct (_ ≫= _); simpl; auto.
  - destruct c; simpl; try done.
    + unfold handleUpdateTask. by destruct (_ ≫= _) as [[]|].
    + unfold handleDeleteTask. by destruct (_ ≫= _) as [[]|].
    + unfold handleGetTask. by destruct (_ ≫= _).
  - destruct c as [args|uuid created updated args|now args|args|args]; simpl.
    + done.
    + split; [done|]. unfold on_parent.
      destruct (JS.truthy _); [destruct (list_find _ _) as [[]|]|];
        rewrite ?length_insert, length_app; simpl; lia.
    + unfold handleUpdateTask. destruct (_ ≫= _) as [[]|]; simpl; [|done].
      by rewrite length_insert.
    + unfold handleDeleteTask.
      destruct (a_id args) as [id|]; [|done]. simpl.
      destruct (list_find _ ts) as [[i D]|] eqn:E; [|done]. simpl. intros _.
      apply list_find_Some in E as (Hi & _).
      unfold on_parent.
      destruct (JS.truthy _); [destruct (list_find _ _) as [[]|]|];
        rewrite ?length_insert, length_delete by done;
        apply lookup_lt_Some in Hi; lia.
    + unfold handleGetTask. by destruct (_ ≫= _).
  - intros name env args E. unfold post_tools. by rewrite E.
Qed.


(** ** Creating, deleting and getting a task *)

Lemma v1_same_id_same_task (ts : list Task) x y :
  NoDup (t1_id <$> ts) → x ∈ ts → y ∈ ts → t1_id x = t1_id y → x = y.
Proof.
  intros Hnd [i Hi]%list_elem_of_lookup [j Hj]%list_elem_of_lookup Hid.
  assert (i = j) as -> by (by eapply v1_same_id_same_index). congruence.
Qed.

Lemma v1_list_find_elem (ts : list Task) i x :
  NoDup (t1_id <$> ts) → ts !! i = Some x →
  list_find (λ t, t1_id t = t1_id x) ts = Some (i, x).
Proof.
  intros Hnd Hi. apply list_find_Some. split_and!; [done..|].
  intros j y Hj Hlt Hid.
  assert (j = i) by (by eapply v1_same_id_same_index). lia.
Qed.

Lemma v1_filter_fmap_fixed (P : Task → Prop) `{!∀ x, Decision (P x)}
    (h : Task → Task) (l : list Task) :
  (∀ x, P (h x) ↔ P x) → (∀ x, x ∈ l → P x → h x = x) →
  filter P (h <$> l) = filter P l.
Proof.
  intros HP. induction l as [|x l IH]; intros Hfix; [done|].
  rewrite fmap_cons, !filter_cons.
  rewrite IH by (intros y Hy; apply Hfix; by apply list_elem_of_further).
  destruct (decide (P x)) as [Px|Px].
  - rewrite decide_True by (by apply HP).
    by rewrite Hfix by (done || apply list_elem_of_here).
  - rewrite decide_False; [done|]. by rewrite HP.
Qed.

Lemma v1_retarget_fixed v f x :
  Some (t1_id x) ≠ v → retarget v f x = x.
Proof.
  intros H. unfold retarget. destruct (JS.truthy v); [|done].
  by rewrite decide_False.
Qed.

Lemma v1_retarget_elem v f (l : list Task) x :
  x ∈ l → retarget v f x ∈ retarget v f <$> l.
Proof. apply list_elem_of_fmap_2. Qed.

(** X23: in a state the first server reaches, delete_task of the id of a
    task answers 200 with that task; afterwards the ids of the tasks are
    the earlier ones without the deleted id, no subtasks list names it,
    the children of the deleted task are still stored with their
    parent_id, and get_task, update_task and delete_task of the id
    answer 404. *)
Theorem v1_deleted_task_is_gone Date now args ts D :
  reachable Date ts → D ∈ ts → a_id args = Some (t1_id D) →
  let r := handleDeleteTask args ts in
  snd r = respond 200 (BDeleted D) ∧
  (∀ id, id ∈ t1_id <$> fst r ↔ id ∈ t1_id <$> ts ∧ id ≠ t1_id D) ∧
  (∀ T, T ∈ fst r → t1_id D ∉ t1_subtasks T) ∧
  (∀ c, c ∈ ts → t1_parent_id c = Some (t1_id D) →
     ∃ c', c' ∈ fst r ∧ t1_id c' = t1_id c ∧
           t1_parent_id c' = Some (t1_id D)) ∧
  snd (handleGetTask args (fst r)) = respond 404 (BError "Task not found") ∧
  snd (handleUpdateTask now args (fst r))
  = respond 404 (BError "Task not found") ∧
  snd (handleDeleteTask args (fst r)) = respond 404 (BError "Task not found").
Proof.
  intros Hreach HD Hid r.
  pose proof (v1_reachable_invariant Date _
                (reachable_next Date ts (delete_task args) Hreach I))
    as [_ Hm'].
  apply v1_reachable_invariant in Hreach as [[Hnd Hwf] Hm].
  simpl in Hm'. fold r in Hm'.
  apply list_elem_of_lookup in HD as [i Hi].
  assert (r = (retarget (t1_parent_id D) (remove_subtask (t1_id D))
                 <$> delete i ts,
               respond 200 (BDeleted D))) as Er.
  { subst r. unfold handleDeleteTask. rewrite Hid. simpl.
    rewrite (v1_list_find_elem ts i D) by done. simpl. f_equal.
    apply v1_on_parent_retarget.
    eapply sublist_NoDup; [exact Hnd|].
    apply fmap_sublist, sublist_delete. }
  set (v := t1_parent_id D) in *. set (f := remove_subtask (t1_id D)) in *.
  assert (∀ x, t1_id (retarget v f x) = t1_id x) as Hrid
    by (by intros; apply v1_retarget_id).
  assert (∀ x, t1_parent_id (retarget v f x) = t1_parent_id x) as Hrp
    by (by intros; apply v1_retarget_parent).
  assert (∀ c, c ∈ delete i ts ↔ c ∈ ts ∧ t1_id c ≠ t1_id D) as Hin.
  { intros c. rewrite delete_take_drop.
    pose proof (take_drop_middle ts i D Hi) as Hts.
    rewrite <- Hts in Hnd. rewrite fmap_app, fmap_cons in Hnd.
    apply NoDup_app in Hnd as (_ & Hdisj & [Hnot _]%NoDup_cons).
    rewrite <- Hts at 3. rewrite !elem_of_app, elem_of_cons. split.
    - intros [Hc|Hc]; (split; [tauto|]); intros E.
      + apply (Hdisj (t1_id c)); [by apply list_elem_of_fmap_2|].
        rewrite E. apply list_elem_of_here.
      + apply Hnot. rewrite <- E. by apply list_elem_of_fmap_2.
    - intros [[Hc|[->|Hc]] Hne]; [by left|done|by right]. }
  assert (∀ t, t ∈ fst r → t1_id t ≠ t1_id D) as Hgone.
  { rewrite Er. simpl. intros t (t0 & -> & Ht0)%list_elem_of_fmap.
    rewrite Hrid. by apply Hin. }
  split_and!.
  - by rewrite Er.
  - intros id. rewrite Er. simpl. split.
    + intros (t' & -> & (t & -> & Ht)%list_elem_of_fmap)%list_elem_of_fmap.
      rewrite Hrid. apply Hin in Ht as [Ht Hne].
      split; [by apply list_elem_of_fmap_2|done].
    + intros [(t & -> & Ht)%list_elem_of_fmap Hne].
      rewrite <- (Hrid t). apply list_elem_of_fmap_2, list_elem_of_fmap_2.
      by apply Hin.
  - intros T HT. rewrite (Hm' T HT).
    intros (c & E & [_ Hc]%list_elem_of_filter)%list_elem_of_fmap.
    by apply (Hgone c).
  - intros c Hc Hp. exists (retarget v f c). rewrite Er, Hrid, Hrp. simpl.
    split; [|done]. apply list_elem_of_fmap_2, Hin. split; [done|].
    intros E. destruct (Hwf c Hc) as [_ H]. apply H. by rewrite Hp, E.
  - unfold handleGetTask. rewrite Hid. simpl.
    by rewrite (proj2 (v1_find_task_None (fst r) (t1_id D))).
  - unfold handleUpdateTask. rewrite Hid. simpl.
    rewrite (proj2 (list_find_None _ _)); [done|].
    apply Forall_forall. intros t Ht. by apply Hgone.
  - unfold handleDeleteTask at 1. rewrite Hid. simpl.
    rewrite (proj2 (list_find_None _ _)); [done|].
    apply Forall_forall. intros t Ht. by apply Hgone.
Qed.

Lemma v1_deleted_task_is_gone_witness :
  reachable Date_ymd sample_tasks ∧
  (let r := handleDeleteTask (with_id "a" no_args) sample_tasks in
   fst r
   = [ mkTask "b" (Some "Draft") "" "todo" "high" None [] (Some "a")
              2000 2001 [];
       mkTask "c" (Some "Review") "" "todo" "medium" None [] None
              3000 3001 [] ] ∧
   snd (handleGetTask (with_id "a" no_args) (fst r))
   = respond 404 (BError "Task not found")).
Proof.
  split; [apply v1_sample_reachable|].
  intros r. split; [reflexivity|].
  refine (proj1 (proj2 (proj2 (proj2 (proj2
    (v1_deleted_task_is_gone Date_ymd 0 (with_id "a" no_args) sample_tasks
       (mkTask "a" (Some "Plan") "" "todo" "medium" None [] None
               1000 1001 ["b"])
       v1_sample_reachable _ eq_refl)))))).
  vm_compute. apply list_elem_of_here.
Defined.

(** The task [handleCreateTask] builds. *)
Lemma v1_create_task_tasks uuid created updated args ts :
  tasks_wf ts →
  fresh (create_task uuid created updated args) ts →
  let new :=
    {| t1_id := uuid; t1_title := a_title args;
       t1_description := JS.or_str (a_description args) "";
       t1_status := JS.or_str (a_status args) "todo";
       t1_priority := JS.or_str (a_priority args) "medium";
       t1_due_date := JS.or_null (a_due_date args);
       t1_tags := JS.or_nil (a_tags args);
       t1_parent_id := JS.or_null (a_parent_id args);
       t1_created_at := created; t1_updated_at := updated;
       t1_subtasks := [] |} in
  handleCreateTask uuid created updated args ts
  = ((retarget (a_parent_id args) (add_subtask uuid) <$> ts) ++ [new],
     respond 200 (BTask new)).
Proof.
  intros [Hnd Hwf] [Hfresh Hv] new. unfold handleCreateTask. fold new.
  rewrite v1_on_parent_retarget.
  - rewrite fmap_app. simpl.
    rewrite (v1_retarget_fixed _ _ new) by (simpl; congruence).
    by rewrite last_snoc.
  - rewrite fmap_app. apply NoDup_app. split_and!; [done| |apply NoDup_singleton].
    intros x (t & -> & Ht)%list_elem_of_fmap Hx.
    apply list_elem_of_singleton in Hx. simpl in Hx.
    destruct (Hfresh t Ht) as [H _]. congruence.
Qed.

(** X24: in a state the first server reaches, create_task with an id in
    use nowhere answers 200 with the task built from the arguments and
    the defaults; get_task of the new id then returns that task without
    subtasks, and when parent_id names a stored task of non-empty id,
    get_task of the parent returns its earlier children followed by the
    new task. *)
Theorem v1_created_task_is_got Date uuid created updated args ts :
  reachable Date ts →
  fresh (create_task uuid created updated args) ts →
  let new :=
    {| t1_id := uuid; t1_title := a_title args;
       t1_description := JS.or_str (a_description args) "";
       t1_status := JS.or_str (a_status args) "todo";
       t1_priority := JS.or_str (a_priority args) "medium";
       t1_due_date := JS.or_null (a_due_date args);
       t1_tags := JS.or_nil (a_tags args);
       t1_parent_id := JS.or_null (a_parent_id args);
       t1_created_at := created; t1_updated_at := updated;
       t1_subtasks := [] |} in
  let r := handleCreateTask uuid created updated args ts in
  snd r = respond 200 (BTask new) ∧
  handleGetTask (with_id uuid no_args) (fst r)
  = (fst r, respond 200 (BTaskWithSubtasks new [])) ∧
  ∀ P, P ∈ ts → a_parent_id args = Some (t1_id P) → t1_id P ≠ "" →
    handleGetTask (with_id (t1_id P) no_args) (fst r)
    = (fst r, respond 200 (BTaskWithSubtasks (add_subtask uuid P)
                             (children ts (t1_id P) ++ [new]))).
Proof.
  intros Hreach Hfresh new r.
  assert (tasks_wf (fst r) ∧ lists_children (fst r)) as Hinv'
    by exact (v1_reachable_invariant Date _
                (reachable_next Date ts
                   (create_task uuid created updated args) Hreach Hfresh)).
  apply v1_reachable_invariant in Hreach as [[Hnd Hwf] Hm].
  assert (r = ((retarget (a_parent_id args) (add_subtask uuid) <$> ts)
               ++ [new], respond 200 (BTask new))) as Er
    by (by apply v1_create_task_tasks).
  clearbody r. subst r. cbn [fst snd] in *.
  destruct Hfresh as [Hfresh Hv].
  set (v := a_parent_id args) in *. set (f := add_subtask uuid) in *.
  set (ts' := (retarget v f <$> ts) ++ [new]) in *.
  assert (∀ x, t1_parent_id (retarget v f x) = t1_parent_id x) as Hrp
    by (by intros; apply v1_retarget_parent).
  assert (new ∈ ts') as Hnew.
  { apply elem_of_app. right. apply list_elem_of_here. }
  split_and!.
  - done.
  - destruct (v1_get_task_children (with_id uuid no_args) ts' Hinv')
      as [(task & Hin & [= Hid] & ->)|[Hno _]].
    + assert (task = new) as ->
        by (by apply (v1_same_id_same_task ts'); [apply Hinv'|..]).
      do 3 f_equal. apply filter_none.
      intros c [(c0 & -> & Hc0)%list_elem_of_fmap
               | ->%list_elem_of_singleton]%elem_of_app.
      * rewrite Hrp. by apply Hfresh.
      * simpl. intros [E _]%or_null_Some. by apply Hv.
    + by destruct (Hno new Hnew).
  - intros P HP Hpar Hne.
    assert (retarget v f P = f P) as EP.
    { unfold retarget. rewrite Hpar, truthy_Some by done.
      by rewrite decide_True. }
    assert (f P ∈ ts') as HfP.
    { apply elem_of_app. left. rewrite <- EP.
      by apply list_elem_of_fmap_2. }
    destruct (v1_get_task_children (with_id (t1_id P) no_args) ts' Hinv')
      as [(task & Hin & [= Hid] & ->)|[Hno _]];
      [|by destruct (Hno (f P) HfP)].
    assert (task = f P) as ->
      by (by apply (v1_same_id_same_task ts'); [apply Hinv'|..]).
    do 3 f_equal. cbn [f add_subtask t1_id]. unfold children. subst ts'.
    rewrite filter_app, filter_cons, filter_nil.
    rewrite decide_True
      by (simpl; fold v; rewrite Hpar;
          unfold JS.or_null; by rewrite truthy_Some).
    f_equal. apply v1_filter_fmap_fixed.
    + intros x. by rewrite Hrp.
    + intros x Hx Hxp. apply v1_retarget_fixed. rewrite Hpar.
      intros [= E]. assert (x = P) as -> by (by eapply v1_same_id_same_task).
      destruct (Hwf P HP) as [_ H]. by apply H.
Qed.

Lemma v1_created_task_is_got_witness :
  reachable Date_ymd sample_tasks ∧
  (let r := handleCreateTask "d" 4000 4001
              (sample_args "Publish" None (Some "a")) sample_tasks in
   handleGetTask (with_id "a" no_args) (fst r)
   = (fst r,
      respond 200
        (BTaskWithSubtasks
           (mkTask "a" (Some "Plan") "" "todo" "medium" None [] None
                   1000 1001 ["b"; "d"])
           [ mkTask "b" (Some "Draft") "" "todo" "high" None [] (Some "a")
                    2000 2001 [];
             mkTask "d" (Some "Publish") "" "todo" "medium" None []
                    (Some "a") 4000 4001 [] ]))).
Proof.
  split; [apply v1_sample_reachable|].
  assert (fresh (create_task "d" 4000 4001
                   (sample_args "Publish" None (Some "a"))) sample_tasks)
    as Hfresh.
  { split; [|done]. intros t Ht. vm_compute in Ht.
    repeat (apply elem_of_cons in Ht as [->|Ht]; [by split|]).
    by apply elem_of_nil in Ht. }
  refine (proj2 (proj2
    (v1_created_task_is_got Date_ymd "d" 4000 4001
       (sample_args "Publish" None (Some "a")) sample_tasks
       v1_sample_reachable Hfresh))
    (mkTask "a" (Some "Plan") "" "todo" "medium" None [] None
            1000 1001 ["b"]) _ eq_refl _).
  - vm_compute. apply list_elem_of_here.
  - done.
Defined.

End V1Facts.
